(** * CreatorAssistant: highlight detection ([detect.py])

    A shallow embedding of the detection core of [detect.py]: the score
    normaliser, the audio-energy downsampling, the signal peak selector with
    its non-maximum suppression, the event-log selector and the orchestrator
    [detect_highlights].

    Numbers.  Python floats and numpy arrays of floats are embedded as exact
    rationals ([Q]) and lists of rationals: comparisons are total and
    arithmetic does not round.  The one NaN the code itself produces from
    such numbers, the mean of an empty window of motion samples, is
    modelled explicitly up to the point where it would enter a series of
    scores; there the run ends with [NotANumber].  Integers ([len],
    indices, [max_clips_per_video]) are [nat] or [Z].

    Configuration.  The YAML configuration is a nested mapping read with
    [dict.get(key, default)]; each section is a record of optional fields,
    an absent section being the record with every field [None]. *)

From Stdlib Require Import String Ascii.
From Stdlib Require Import List Bool Arith ZArith QArith Qround Qabs Lia.
From Stdlib Require Import Permutation.
Import ListNotations.

Set Implicit Arguments.

(** ** Results of fallible code *)

(** The exceptions the code raises.  [NotANumber] is not one of them: it
    ends a run of the signal pipeline whose motion scores hold a NaN.  The
    code goes on with NaN scores, which the rational series here cannot
    hold; what it returns then is outside this embedding. *)
Inductive exn : Type :=
| ZeroDivisionError
| ValueError
| IndexError
| AttributeError
| TypeError
| FileNotFoundError
| MediaError
| NotANumber.

Inductive result (A : Type) : Type :=
| Ok (a : A)
| Raise (e : exn).

Arguments Ok {A} a.
Arguments Raise {A} e.

(** [dict.get(key, default)] on an optional field. *)
Definition get_or {A} (o : option A) (d : A) : A :=
  match o with Some a => a | None => d end.

(** Truthiness of [dict.get(key)] / [dict.get(key, d)] for a boolean key. *)
Definition truthy (o : option bool) (d : bool) : bool := get_or o d.

(** ** Numeric helpers: Python's [min]/[max], numpy reductions *)

Module Num.

(** [a < b] as a boolean. *)
Definition Qltb (a b : Q) : bool := negb (Qle_bool b a).

(** Python [max(a, b)]: [b] only when it is strictly greater. *)
Definition qmax (a b : Q) : Q := if Qltb a b then b else a.

(** Python [min(a, b)]: [b] only when it is strictly smaller. *)
Definition qmin (a b : Q) : Q := if Qltb b a then b else a.

(** [np.max] / [np.min]; [None] on an empty array, where numpy raises. *)
Definition np_max (s : list Q) : option Q :=
  match s with
  | [] => None
  | x :: xs => Some (fold_left qmax xs x)
  end.

Definition np_min (s : list Q) : option Q :=
  match s with
  | [] => None
  | x :: xs => Some (fold_left qmin xs x)
  end.

(** [np.zeros_like] and [np.zeros]. *)
Definition zeros_like (s : list Q) : list Q := map (fun _ => 0) s.

Definition zeros (n : Z) : list Q := repeat 0 (Z.to_nat n).

(** [np.mean] of a slice that is not empty: the slices of
    [compute_audio_energy] never are.  Where a slice can be empty the
    mean is taken with [window_mean]. *)
Definition np_mean (s : list Q) : Q :=
  match s with
  | [] => 0
  | _ => fold_left Qplus s 0 / inject_Z (Z.of_nat (List.length s))
  end.

(** [np.mean] of a slice that may be empty: numpy gives NaN, [None] here,
    for an empty one. *)
Definition window_mean (s : list Q) : option Q :=
  match s with
  | [] => None
  | _ => Some (np_mean s)
  end.

(** A series that may hold NaN, as a series of rationals: a NaN ends the
    run with [NotANumber]. *)
Fixpoint numbers (s : list (option Q)) : result (list Q) :=
  match s with
  | [] => Ok []
  | None :: _ => Raise NotANumber
  | Some x :: s' =>
      match numbers s' with
      | Ok xs => Ok (x :: xs)
      | Raise e => Raise e
      end
  end.

(** Python [int(x)] on a float: truncation towards zero. *)
Definition py_int (x : Q) : Z :=
  if Qltb x 0 then Qceiling x else Qfloor x.

(** A python slice [s[a:b]] with non-negative bounds. *)
Definition slice {A} (s : list A) (a b : nat) : list A :=
  firstn (b - a) (skipn a s).

(** [np.pad(s, (0, k), mode="edge")]: repeat the last value; numpy raises
    [ValueError] when asked to extend an empty array along its axis. *)
Definition pad_edge (s : list Q) (k : nat) : result (list Q) :=
  match k, s with
  | O, _ => Ok s
  | _, [] => Raise ValueError
  | _, x :: xs => Ok (s ++ repeat (last xs x) k)
  end.

(** [list.sort(key=...)] is stable: insertion of each element in front of
    the sorted rest, after the elements that come strictly before it.
    [before y x] says that [y] sorts strictly before [x]. *)
Fixpoint insert_by {A} (before : A -> A -> bool) (x : A) (l : list A) : list A :=
  match l with
  | [] => [x]
  | y :: l' => if before y x then y :: insert_by before x l' else x :: l
  end.

Definition sort_by {A} (before : A -> A -> bool) (l : list A) : list A :=
  fold_right (insert_by before) [] l.

(** [np.percentile(a, q)], default (linear) method: [ValueError] for [q]
    outside [0, 100], which numpy checks first; [IndexError] for an empty
    array; otherwise the linear interpolation between the two order
    statistics around the virtual index [(n - 1) * q / 100].  The
    percentile is optional: [None] is the NaN that numpy returns for an
    array holding a NaN, which no array of rationals gives. *)
Definition np_percentile (a : list Q) (q : Q) : result (option Q) :=
  if Qltb q 0 || Qltb 100 q then Raise ValueError
  else
    match a with
    | [] => Raise IndexError
    | _ =>
        let sorted := sort_by Qltb a in
        let n := List.length a in
        let virtual := inject_Z (Z.of_nat (n - 1)) * (q / 100) in
        let previous := Z.to_nat (Qfloor virtual) in
        let next := Nat.min (S previous) (n - 1) in
        let gamma := virtual - inject_Z (Qfloor virtual) in
        let lo := nth previous sorted 0 in
        let hi := nth next sorted 0 in
        Ok (Some (lo + (hi - lo) * gamma))
    end.

End Num.

Import Num.

(** ** Score normaliser *)

(** [normalize_scores]: rescale to the 0-1 range; an empty or constant
    series gives zeros. *)
Definition normalize_scores (scores : list Q) : list Q :=
  match np_max scores, np_min scores with
  | Some mx, Some mn =>
      if Qeq_bool mx mn then zeros_like scores
      else map (fun x => (x - mn) / (mx - mn)) scores
  | _, _ => zeros_like scores
  end.

(** ** Audio energy estimator *)

(** [compute_audio_energy], given the hop-level RMS series that
    [librosa.feature.rms] returns for the audio (the media backend).  [//]
    is Python's floor division, which raises on a zero divisor. *)
Definition compute_audio_energy (rms : list Q) (window_seconds : Q)
  : result (list Q) :=
  let len := List.length rms in
  let hops_per_window := py_int (window_seconds * 2) in
  if (hops_per_window =? 0)%Z then Raise ZeroDivisionError
  else
    let n_windows := Z.max 1 (Z.of_nat len / hops_per_window) in
    if (n_windows >=? Z.of_nat len)%Z then Ok rms
    else
      let n := Z.to_nat n_windows in
      Ok (map (fun i => np_mean (slice rms (i * len / n) ((i + 1) * len / n)))
              (seq 0 n)).

(** ** Motion estimator *)

(** [compute_motion_scores], from the sequence of mean frame differences of
    the sampled frames ([None]: the capture could not be opened).  A score
    is [None] when it is NaN: the mean of a window that holds no sample. *)
Definition compute_motion_scores (motions : option (list Q))
  (duration window_seconds : Q) : result (list (option Q)) :=
  match motions with
  | None =>
      if Qeq_bool window_seconds 0 then Raise ZeroDivisionError
      else
        let n := (py_int (duration / window_seconds) + 1)%Z in
        if (n <? 0)%Z then Raise ValueError else Ok (map Some (zeros n))
  | Some motions =>
      let len := List.length motions in
      if (len <? 2)%nat then Ok [Some 0]
      else if Qeq_bool window_seconds 0 then Raise ZeroDivisionError
      else
        let n_windows := Z.to_nat (Z.max 1 (py_int (duration / window_seconds))) in
        let window_size := Nat.max 1 (len / n_windows) in
        Ok (map (fun i => window_mean (slice motions (i * window_size)
                                         (Nat.min ((i + 1) * window_size) len)))
                (seq 0 n_windows))
  end.

(** ** Highlight candidates and the selection policy *)

Record candidate : Type := mkCandidate {
  c_start : Q;
  c_end : Q;
  c_score : Q;
  c_source : option string
}.

Record detection_cfg : Type := mkDetection {
  audio_weight : option Q;
  motion_weight : option Q;
  sensitivity : option Q;
  min_score : option Q;
  min_prominence : option Q;
  min_seconds_between_clips : option Q;
  max_clips_per_video : option Z;
  window_seconds : option Q
}.

Record clip_cfg : Type := mkClip {
  duration_seconds : option Q;
  padding_before : option Q;
  padding_after : option Q;
  min_clip_length : option Q
}.

Record game_events_cfg : Type := mkGameEvents {
  ge_enabled : option bool;
  ge_file : option string;
  prefer_events_over_ai : option bool;
  filter_my_kills_only : option bool;
  player_summoner_name : option string;
  recording_start_offset : option Q
}.

Record config : Type := mkConfig {
  detection : detection_cfg;
  clip : clip_cfg;
  game_events : game_events_cfg;
  ffmpeg_path : option string
}.

(** ** Non-maximum suppression (the spacing and limit loop)

    The loop both selectors end with: walk the ordered candidates, stop once
    [max_clips] are selected, skip a candidate whose start is closer than
    [min_between] to the start of a selected one. *)

Section Nms.

Variable A : Type.
Variable start_of : A -> Q.

Definition too_close (min_between : Q) (c : A) (selected : list A) : bool :=
  existsb (fun s => Qltb (Qabs (start_of c - start_of s)) min_between) selected.

Fixpoint nms_loop (max_clips : Z) (min_between : Q)
  (candidates selected : list A) : list A :=
  match candidates with
  | [] => selected
  | c :: rest =>
      if (Z.of_nat (List.length selected) >=? max_clips)%Z then selected
      else if too_close min_between c selected
           then nms_loop max_clips min_between rest selected
           else nms_loop max_clips min_between rest (selected ++ [c])
  end.

End Nms.

(** ** Signal highlight selector: peaks of the combined series *)

Section SignalSelector.

Variable det : detection_cfg.
Variable cl : clip_cfg.

Definition cfg_sensitivity : Q := get_or (sensitivity det) (1 # 2).
Definition cfg_min_score : Q := get_or (min_score det) (3 # 5).
Definition cfg_min_prominence : Q := get_or (min_prominence det) (3 # 20).
Definition cfg_min_between : Q := get_or (min_seconds_between_clips det) 120.
Definition cfg_max_clips : Z := get_or (max_clips_per_video det) 5%Z.
Definition cfg_window_sec : Q := get_or (window_seconds det) 4.
Definition cfg_clip_duration : Q := get_or (duration_seconds cl) 30.
Definition cfg_padding_before : Q := get_or (padding_before cl) 3.
Definition cfg_min_clip_length : Q := get_or (min_clip_length cl) 15.

(** [score < threshold]; a comparison with NaN is false. *)
Definition below_threshold (score : Q) (threshold : option Q) : bool :=
  match threshold with
  | Some t => Qltb score t
  | None => false
  end.

(** The three [continue] tests of the peak loop at index [i]. *)
Definition is_peak (combined : list Q) (threshold : option Q) (i : nat) : bool :=
  let score := nth i combined 0 in
  let left := nth (i - 1) combined 0 in
  let right := nth (i + 1) combined 0 in
  if Qltb score left || Qltb score right then false
  else if below_threshold score threshold || Qltb score cfg_min_score then false
  else
    let valley := qmin left right in
    if Qltb (score - valley) cfg_min_prominence then false else true.

(** The clip window of a peak at index [i]; [None] when it is shorter than
    [min_clip_length]. *)
Definition clip_window (duration : Q) (combined : list Q) (i : nat)
  : option candidate :=
  let start_sec :=
    qmax 0 (inject_Z (Z.of_nat i) * cfg_window_sec - cfg_padding_before) in
  let end_sec := qmin duration (start_sec + cfg_clip_duration) in
  if Qle_bool cfg_min_clip_length (end_sec - start_sec)
  then Some (mkCandidate start_sec end_sec (nth i combined 0) None)
  else None.

(** [for i in range(1, len(combined) - 1)]: the indices that pass the peak
    tests, in loop order. *)
Definition peak_indices (combined : list Q) (threshold : option Q) : list nat :=
  filter (is_peak combined threshold) (seq 1 (List.length combined - 2)).

(** The candidates the loop appends, each with the index it comes from (the
    index is not part of the python dict; it is kept alongside to state
    properties of the selected indices). *)
Definition indexed_candidates (duration : Q) (combined : list Q)
  (threshold : option Q) : list (nat * candidate) :=
  flat_map (fun i => match clip_window duration combined i with
                     | Some c => [(i, c)]
                     | None => []
                     end)
           (peak_indices combined threshold).

Definition by_score_desc {I} (y x : I * candidate) : bool :=
  Qltb (c_score (snd x)) (c_score (snd y)).

Definition by_start_asc {I} (y x : I * candidate) : bool :=
  Qltb (c_start (snd y)) (c_start (snd x)).

(** From the combined series to the returned list: threshold, peaks,
    suppression in descending score order, final sort by start. *)
Definition select_indexed (duration : Q) (combined : list Q)
  : result (list (nat * candidate)) :=
  match np_percentile combined (100 - cfg_sensitivity * 40) with
  | Raise e => Raise e
  | Ok threshold =>
      let candidates := indexed_candidates duration combined threshold in
      let candidates := sort_by by_score_desc candidates in
      let selected :=
        nms_loop (fun c => c_start (snd c)) cfg_max_clips cfg_min_between
                 candidates [] in
      Ok (sort_by by_start_asc selected)
  end.

Definition select_peaks (duration : Q) (combined : list Q)
  : result (list candidate) :=
  match select_indexed duration combined with
  | Raise e => Raise e
  | Ok l => Ok (map snd l)
  end.

End SignalSelector.

(** ** Strings: [str.strip] and [str.lower] on ASCII text

    A string is a sequence of bytes.  On ASCII text, where every byte is
    below 128, [lower] and [strip] are Python's [str.lower] and
    [str.strip].  On other text Python does more (it lowers accented
    capitals and strips the other spaces of Unicode): a statement that
    rests on what [lower] and [strip] make of a name says that the name is
    ASCII. *)

Module Str.

Fixpoint is_ascii (s : string) : bool :=
  match s with
  | EmptyString => true
  | String c s' => (nat_of_ascii c <? 128)%nat && is_ascii s'
  end.

Definition is_space (c : ascii) : bool :=
  let n := nat_of_ascii c in
  ((9 <=? n) && (n <=? 13) || (28 <=? n) && (n <=? 32))%nat.

Definition lower_char (c : ascii) : ascii :=
  let n := nat_of_ascii c in
  if ((65 <=? n) && (n <=? 90))%nat then ascii_of_nat (n + 32) else c.

Fixpoint lower (s : string) : string :=
  match s with
  | EmptyString => EmptyString
  | String c s' => String (lower_char c) (lower s')
  end.

Fixpoint lstrip (s : string) : string :=
  match s with
  | EmptyString => EmptyString
  | String c s' => if is_space c then lstrip s' else s
  end.

Fixpoint rev_string (s acc : string) : string :=
  match s with
  | EmptyString => acc
  | String c s' => rev_string s' (String c acc)
  end.

Definition rstrip (s : string) : string :=
  rev_string (lstrip (rev_string s EmptyString)) EmptyString.

Definition strip (s : string) : string := rstrip (lstrip s).

(** Python [a or b] on optional strings: the first one present and
    non-empty. *)
Definition str_or (a : option string) (b : option string) : option string :=
  match a with
  | Some s => if String.eqb s EmptyString then b else a
  | None => b
  end.

End Str.

(** ** Event log and event highlight selector *)

Record game_event : Type := mkEvent {
  ev_type : option string;
  ev_wall_clock : option Q;
  ev_game_time : option Q;
  ev_killer_name : option string;
  ev_data_KillerName : option string;
  ev_data_killerName : option string
}.

Record event_log : Type := mkLog {
  session_start : option Q;
  events : list game_event
}.

(** What [json.load] returns for the events file, as far as
    [load_highlights_from_events] looks into it before it selects:
    - [Log]: an object; its ["events"], when present, iterate as objects
      with fields of the types the logger writes (fields of other types
      are outside this embedding);
    - [NotAnObject]: a list, a string, a number, a boolean or [null], on
      which [data.get] raises [AttributeError];
    - [EventsNotIterable]: an object whose ["events"] is [null], a number
      or a boolean, over which the comprehension raises [TypeError];
    - [EventNotAnObject]: an object whose ["events"] hold a value that is
      not an object, on which [e.get] raises [AttributeError]. *)
Inductive json_doc : Type :=
| Log (log : event_log)
| NotAnObject
| EventsNotIterable
| EventNotAnObject.

(** The file system as [load_highlights_from_events] and the orchestrator
    see it. *)
Record filesystem : Type := mkFs {
  path_exists : string -> bool;
  (** [open] then [json.load]; [None] when either raises. *)
  read_json : string -> option json_doc;
  (** [os.path.getctime]; [None] on [OSError]. *)
  getctime : string -> option Q;
  is_absolute : string -> bool;
  (** [script_dir / Path(p).name] *)
  in_script_dir : string -> string;
  (** [Path(video_path).parent / Path(p).name] *)
  next_to_video : string -> string -> string;
  (** [str(Path(p).resolve())] *)
  resolve : string -> string;
  (** [load_config()]: the parsed [config.yaml]; [None] when reading it
      raises. *)
  config_yaml : option config;
  (** [shutil.which] *)
  which : string -> option string;
  (** [str(folder / name)], [name] with [.exe] appended on Windows. *)
  executable_in : string -> string -> string;
  (** The usual install folders tried last by [_get_ffmpeg_bin]. *)
  install_folders : list string
}.

Definition is_kill (e : game_event) : bool :=
  match ev_type e with
  | Some t => String.eqb t "ChampionKill"
  | None => false
  end.

(** [k.get("killer_name") or ... or ""], before [strip] and [lower]. *)
Definition killer_name_of (k : game_event) : string :=
  get_or (Str.str_or (ev_killer_name k)
            (Str.str_or (ev_data_KillerName k)
               (Str.str_or (ev_data_killerName k) (Some EmptyString))))
         EmptyString.

Definition killer_of (k : game_event) : string :=
  Str.lower (Str.strip (killer_name_of k)).

Definition event_candidate (log : event_log) (video_start_time offset
  padding_before clip_duration : Q) (k : game_event) : candidate :=
  let wall_clock :=
    match ev_wall_clock k with
    | Some w => w
    | None => get_or (ev_game_time k) 0 + get_or (session_start log) 0
    end in
  let video_sec := wall_clock - video_start_time + offset in
  let start_sec := qmax 0 (video_sec - padding_before) in
  let end_sec := start_sec + clip_duration in
  mkCandidate start_sec end_sec 1 (Some "game_events"%string).

Definition by_start (y x : candidate) : bool := Qltb (c_start y) (c_start x).

(** [load_highlights_from_events]; [None] is python's [None].  The reading
    of the file is inside a [try]; the two lines after it, which look for
    the kills, are not. *)
Definition load_highlights_from_events (fs : filesystem)
  (events_path video_path : string) (cfg : config)
  : result (option (list candidate)) :=
  if negb (path_exists fs events_path) then Ok None
  else
    match read_json fs events_path with
    | None => Ok None
    | Some NotAnObject => Raise AttributeError
    | Some EventsNotIterable => Raise TypeError
    | Some EventNotAnObject => Raise AttributeError
    | Some (Log data) =>
        let kills := filter is_kill (events data) in
        match kills with
        | [] => Ok None
        | _ =>
            let ge_cfg := game_events cfg in
            let clip_c := clip cfg in
            let filtered : option (list game_event) :=
              if truthy (filter_my_kills_only ge_cfg) false then
                let player_name :=
                  Str.lower (Str.strip
                    (get_or (Str.str_or (player_summoner_name ge_cfg)
                                        (Some EmptyString)) EmptyString)) in
                if String.eqb player_name EmptyString then Some kills
                else
                  match filter (fun k => String.eqb (killer_of k) player_name)
                               kills with
                  | [] => None
                  | ks => Some ks
                  end
              else Some kills in
            match filtered with
            | None => Ok None
            | Some kills =>
                let offset := get_or (recording_start_offset ge_cfg) 0 in
                let clip_duration := cfg_clip_duration clip_c in
                let padding_before := cfg_padding_before clip_c in
                let min_between := cfg_min_between (detection cfg) in
                let max_clips := cfg_max_clips (detection cfg) in
                let video_start_time := get_or (getctime fs video_path) 0 in
                let candidates :=
                  map (event_candidate data video_start_time offset
                                       padding_before clip_duration) kills in
                let candidates := sort_by by_start candidates in
                Ok (Some (nms_loop c_start max_clips min_between candidates []))
            end
        end
    end.

(** ** Media backend and observable actions *)

(** The media backend: ffmpeg/ffprobe, librosa and OpenCV. *)
Record media : Type := mkMedia {
  (** [get_video_info video ffprobe]: duration and fps; [None] when the
      output of ffprobe does not parse as numbers ([ValueError]). *)
  get_video_info : string -> string -> option (Q * Q);
  (** [extract_audio video ffmpeg] followed by [librosa.feature.rms] with
      0.5 s hops; [None] when ffmpeg or librosa raises. *)
  audio_rms : string -> string -> option (list Q);
  (** The mean absolute differences of the frames sampled by
      [compute_motion_scores] at the given fps; [None] when the capture
      cannot be opened. *)
  frame_motions : string -> Q -> option (list Q)
}.

(** The last resort of [_get_ffmpeg_bin]: the first usual install folder
    that exists and holds both executables. *)
Definition find_installed (fs : filesystem) : result (string * string) :=
  match find (fun folder =>
                path_exists fs folder
                && path_exists fs (executable_in fs folder "ffmpeg")
                && path_exists fs (executable_in fs folder "ffprobe"))
             (install_folders fs) with
  | Some folder => Ok (executable_in fs folder "ffmpeg",
                       executable_in fs folder "ffprobe")
  | None => Raise FileNotFoundError
  end.

(** [_get_ffmpeg_bin]: the configured folder if it exists, else PATH, else
    the usual install folders, else [FileNotFoundError]. *)
Definition _get_ffmpeg_bin (fs : filesystem) (cfg : config)
  : result (string * string) :=
  let cfg_path := Str.strip (get_or (ffmpeg_path cfg) EmptyString) in
  if negb (String.eqb cfg_path EmptyString) && path_exists fs cfg_path
  then Ok (executable_in fs cfg_path "ffmpeg", executable_in fs cfg_path "ffprobe")
  else
    match which fs "ffmpeg", which fs "ffprobe" with
    | Some fmpeg, Some fprobe =>
        if negb (String.eqb fmpeg EmptyString) && negb (String.eqb fprobe EmptyString)
        then Ok (fmpeg, fprobe)
        else find_installed fs
    | _, _ => find_installed fs
    end.

(** What a run does that can be observed from outside: the lines it prints
    and the calls it makes to the media backend. *)
Inductive action : Type :=
| Print (msg : string)
| ProbeVideo (video : string)
| ExtractAudio (video : string)
| ReadFrames (video : string).

Definition is_media_action (a : action) : bool :=
  match a with
  | Print _ => false
  | _ => true
  end.

(** A run: the actions performed, in order, and the outcome. *)
Definition run (A : Type) : Type := (list action * result A)%type.

Definition ret {A} (a : A) : run A := ([], Ok a).

Definition raise {A} (e : exn) : run A := ([], Raise e).

Definition emit (a : action) : run unit := ([a], Ok tt).

Definition lift {A} (r : result A) : run A := ([], r).

Definition bind {A B} (m : run A) (f : A -> run B) : run B :=
  match m with
  | (t, Ok a) => let (t', r) := f a in (t ++ t', r)
  | (t, Raise e) => (t, Raise e)
  end.

Notation "x <- m ;; k" := (bind m (fun x => k))
  (at level 61, m at next level, right associativity).
Notation "m ;;; k" := (bind m (fun _ => k))
  (at level 61, right associativity).

(** ** The signal pipeline of [detect_highlights] *)

(** Pad with the last value up to [n_windows], then trim. *)
Definition align (s : list Q) (n_windows : nat) : result (list Q) :=
  if (List.length s <? n_windows)%nat then
    match pad_edge s (n_windows - List.length s) with
    | Ok s' => Ok (firstn n_windows s')
    | Raise e => Raise e
    end
  else Ok (firstn n_windows s).

(** [audio_weight * audio_norm + motion_weight * motion_norm]. *)
Definition combine_scores (aw mw : Q) (audio_norm motion_norm : list Q)
  : list Q :=
  map (fun p => aw * fst p + mw * snd p) (List.combine audio_norm motion_norm).

Definition detect_signal (fs : filesystem) (m : media) (video_path : string)
  (cfg : config) : run (list candidate) :=
  let det_cfg := detection cfg in
  let clip_c := clip cfg in
  let aw := get_or (audio_weight det_cfg) (1 # 2) in
  let mw := get_or (motion_weight det_cfg) (1 # 2) in
  let window_sec := cfg_window_sec det_cfg in
  let video_path := resolve fs video_path in
  if negb (path_exists fs video_path) then raise FileNotFoundError
  else
    bins <- lift (_get_ffmpeg_bin fs cfg) ;;
    let (ffmpeg, ffprobe) := bins : string * string in
    emit (ProbeVideo video_path) ;;;
    match get_video_info m video_path ffprobe with
    | None => raise ValueError
    | Some (duration, fps) =>
        emit (Print "  Extracting audio...") ;;;
        emit (ExtractAudio video_path) ;;;
        match audio_rms m video_path ffmpeg with
        | None => raise MediaError
        | Some rms =>
            audio_energy <- lift (compute_audio_energy rms window_sec) ;;
            let audio_norm := normalize_scores audio_energy in
            let n_windows :=
              Z.to_nat (Z.max (Z.of_nat (List.length audio_norm))
                              (py_int (duration / window_sec))) in
            audio_norm <- lift (align audio_norm n_windows) ;;
            emit (Print "  Analyzing motion...") ;;;
            emit (ReadFrames video_path) ;;;
            motion_scores <-
              lift (compute_motion_scores (frame_motions m video_path fps)
                                          duration window_sec) ;;
            motion_scores <- lift (numbers motion_scores) ;;
            let motion_norm := normalize_scores motion_scores in
            motion_norm <- lift (align motion_norm n_windows) ;;
            let combined := combine_scores aw mw audio_norm motion_norm in
            lift (select_peaks det_cfg clip_c duration combined)
        end
    end.

(** ** Detection orchestrator *)

(** Where the event log is looked for. *)
Definition resolve_events_path (fs : filesystem) (video_path : string)
  (cfg : config) (events_file : option string) : string :=
  let events_path :=
    match events_file with
    | Some f => if String.eqb f EmptyString
                then get_or (ge_file (game_events cfg)) "game_events.json"%string
                else f
    | None => get_or (ge_file (game_events cfg)) "game_events.json"%string
    end in
  if negb (is_absolute fs events_path) then
    match find (path_exists fs)
               [in_script_dir fs events_path;
                next_to_video fs video_path events_path] with
    | Some p => p
    | None => in_script_dir fs events_path
    end
  else events_path.

(** The event branch of [detect_highlights]: [Some highlights] when it
    returns from the function, [None] when control falls through to the
    signal pipeline. *)
Definition try_events (fs : filesystem) (video_path : string) (cfg : config)
  (events_file : option string) : run (option (list candidate)) :=
  let ge_cfg := game_events cfg in
  if truthy (ge_enabled ge_cfg) true then
    let events_path := resolve_events_path fs video_path cfg events_file in
    if truthy (prefer_events_over_ai ge_cfg) true then
      highlights <-
        lift (load_highlights_from_events fs events_path video_path cfg) ;;
      match highlights with
      | Some (c :: cs) =>
          emit (Print "  Using game events (kill timestamps from Live Client Data API)") ;;;
          ret (Some (c :: cs))
      | _ =>
          (if path_exists fs events_path
           then emit (Print "  Events file found but no matching kills (check filter_my_kills_only / player_summoner_name)")
           else emit (Print "  No game_events.json found - using AI detection")) ;;;
          ret None
      end
    else ret None
  else ret None.

Definition detect_highlights (fs : filesystem) (m : media)
  (video_path : string) (config : option config)
  (events_file : option string) : run (list candidate) :=
  cfg <- match config with
         | Some c => ret c
         | None => match config_yaml fs with
                   | Some c => ret c
                   | None => raise FileNotFoundError
                   end
         end ;;
  highlights <- try_events fs video_path cfg events_file ;;
  match highlights with
  | Some hl => ret hl
  | None => detect_signal fs m video_path cfg
  end.

(** Specification-side notions of minimum, maximum and constancy. *)
Definition is_min (m : Q) (s : list Q) : Prop :=
  (exists x, In x s /\ x == m) /\ Forall (fun x => m <= x) s.

Definition is_max (m : Q) (s : list Q) : Prop :=
  (exists x, In x s /\ x == m) /\ Forall (fun x => x <= m) s.

Definition constant_series (s : list Q) : Prop :=
  forall a b, In a s -> In b s -> a == b.

Definition in_unit (y : Q) : Prop := 0 <= y /\ y <= 1.

(** No two candidates at different positions of [l] start less than
    [min_between] apart. *)
Definition no_two_close {A} (start_of : A -> Q) (min_between : Q)
  (l : list A) : Prop :=
  forall i j a b, i <> j ->
    nth_error l i = Some a -> nth_error l j = Some b ->
    ~ Qabs (start_of a - start_of b) < min_between.

(** The same, by recursion on the list: each element is far from all the
    later ones. *)
Fixpoint spaced {A} (start_of : A -> Q) (min_between : Q) (l : list A) : Prop :=
  match l with
  | [] => True
  | a :: l' =>
      Forall (fun b => min_between <= Qabs (start_of a - start_of b)) l'
      /\ spaced start_of min_between l'
  end.

(** [l] is a list that one of the two selectors, or [detect_highlights]
    itself, returns under configuration [cfg]. *)
Definition returned_under (cfg : config) (l : list candidate) : Prop :=
  (exists fs events_path video_path,
      load_highlights_from_events fs events_path video_path cfg = Ok (Some l))
  \/ (exists duration combined,
      select_peaks (detection cfg) (clip cfg) duration combined = Ok l)
  \/ (exists fs m video_path events_file t,
      detect_highlights fs m video_path (Some cfg) events_file = (t, Ok l)).

(** The configuration with no key set: every [get] yields its default. *)
Definition empty_config : config :=
  mkConfig (mkDetection None None None None None None None None)
           (mkClip None None None None)
           (mkGameEvents None None None None None None)
           None.

(** A combined series with two peaks, 12 seconds apart at the default
    window length of 4 seconds. *)
Definition two_peaks : list Q := [0; 1; 0; 0; 9 # 10; 0].

(** ** Rescaling, to state the scale invariance of peak selection *)

(** The series [c * combined]. *)
Definition scale (c : Q) (s : list Q) : list Q := map (Qmult c) s.

(** The indices of the combined series that the signal selector returns, in
    the order of the returned list. *)
Definition selected_indices (det : detection_cfg) (cl : clip_cfg)
  (duration : Q) (combined : list Q) : result (list nat) :=
  match select_indexed det cl duration combined with
  | Raise e => Raise e
  | Ok l => Ok (map fst l)
  end.

(** [det] with [min_score] and [min_prominence] both multiplied by [c]. *)
Definition scale_thresholds (c : Q) (det : detection_cfg) : detection_cfg :=
  mkDetection (audio_weight det) (motion_weight det) (sensitivity det)
              (Some (c * cfg_min_score det))
              (Some (c * cfg_min_prominence det))
              (min_seconds_between_clips det) (max_clips_per_video det)
              (window_seconds det).

(** [det] with [min_prominence] alone multiplied by [c]. *)
Definition scale_min_prominence (c : Q) (det : detection_cfg) : detection_cfg :=
  mkDetection (audio_weight det) (motion_weight det) (sensitivity det)
              (min_score det)
              (Some (c * cfg_min_prominence det))
              (min_seconds_between_clips det) (max_clips_per_video det)
              (window_seconds det).

(** A series with one peak of height 1. *)
Definition one_peak : list Q := [0; 1; 0].

(** [detect_highlights] falls back to the signal pipeline: it prints
    messages, makes no call to the media backend of its own, and then does
    and returns what [detect_signal] does and returns. *)
Definition falls_back_to_signal (fs : filesystem) (m : media)
  (video_path : string) (cfg : config) (events_file : option string) : Prop :=
  exists msgs,
    forallb (fun a => negb (is_media_action a)) msgs = true
    /\ detect_highlights fs m video_path (Some cfg) events_file
       = (msgs ++ fst (detect_signal fs m video_path cfg),
          snd (detect_signal fs m video_path cfg)).

(** The killer-name filter is on, with a player name that is not blank. *)
Definition filters_kills_of (cfg : config) (name : string) : Prop :=
  filter_my_kills_only (game_events cfg) = Some true
  /\ player_summoner_name (game_events cfg) = Some name
  /\ Str.lower (Str.strip name) <> EmptyString.

(** The event-log conditions: no file, no parsable JSON, a log with no
    kill event, or a log with no kill by the configured player (ASCII
    names, compared after [strip] and [lower]). *)
Definition no_usable_events (fs : filesystem) (events_path : string)
  (cfg : config) : Prop :=
  path_exists fs events_path = false
  \/ read_json fs events_path = None
  \/ (exists log, read_json fs events_path = Some (Log log)
                  /\ filter is_kill (events log) = [])
  \/ (exists log name,
         read_json fs events_path = Some (Log log)
         /\ filters_kills_of cfg name
         /\ Str.is_ascii name = true
         /\ forall k, In k (events log) -> is_kill k = true ->
                      Str.is_ascii (killer_name_of k) = true
                      /\ killer_of k <> Str.lower (Str.strip name)).

(** ** An example run: a 24 second recording with one logged kill *)

Definition example_log : event_log :=
  mkLog (Some 0)
        [mkEvent (Some "ChampionKill"%string) (Some 10) (Some 10)
                 (Some "Ahri"%string) None None].

(** Every path exists, holds [example_log] and was created at time 0. *)
Definition example_fs : filesystem :=
  mkFs (fun _ => true) (fun _ => Some (Log example_log)) (fun _ => Some 0)
       (fun _ => true) (fun p => p) (fun _ p => p) (fun p => p) None
       (fun name => Some name) (fun _ name => name) [].

(** 24 seconds at 30 fps: 48 hops of audio energy and 47 frame
    differences, both with a burst in the second window. *)
Definition example_media : media :=
  mkMedia (fun _ _ => Some (24, 30))
          (fun _ _ => Some (repeat 0 8 ++ repeat 1 8 ++ repeat 0 32))
          (fun _ _ => Some (repeat 0 7 ++ repeat 1 7 ++ repeat 0 33)).

(** Event detection enabled (by default), [prefer_events_over_ai] off. *)
Definition events_not_preferred : config :=
  mkConfig (detection empty_config) (clip empty_config)
           (mkGameEvents None None (Some false) None None None) None.

(** A file system on which no path exists. *)
Definition missing_fs : filesystem :=
  mkFs (fun _ => false) (fun _ => None) (fun _ => None)
       (fun _ => true) (fun p => p) (fun _ p => p) (fun p => p) None
       (fun _ => None) (fun _ name => name) [].

(** A log with a single kill, at wall-clock time [w]. *)
Definition one_kill_log (w : Q) : event_log :=
  mkLog None [mkEvent (Some "ChampionKill"%string) (Some w) None None None None].

(** Every path exists, holds the JSON document [doc] and was created at
    time [created]. *)
Definition fs_with_doc (doc : json_doc) (created : Q) : filesystem :=
  mkFs (fun _ => true) (fun _ => Some doc) (fun _ => Some created)
       (fun _ => true) (fun p => p) (fun _ p => p) (fun p => p) None
       (fun name => Some name) (fun _ name => name) [].

(** Every path exists, holds the log [log] and was created at time
    [created]. *)
Definition fs_with_log (log : event_log) (created : Q) : filesystem :=
  fs_with_doc (Log log) created.

(** A log with three kills at wall-clock times 1130, 1000 and 1260 and an
    event of another type. *)
Definition three_kills_log : event_log :=
  mkLog (Some 990)
        [mkEvent (Some "ChampionKill"%string) (Some 1130) (Some 140)
                 (Some "Ahri"%string) None None;
         mkEvent (Some "DragonKill"%string) (Some 1100) (Some 110) None None None;
         mkEvent (Some "ChampionKill"%string) (Some 1000) (Some 10)
                 (Some "Ahri"%string) None None;
         mkEvent (Some "ChampionKill"%string) (Some 1260) (Some 270)
                 (Some "Zed"%string) None None].

(** [x] is [c] times [y]. *)
Definition scaled (c x y : Q) : Prop := x == c * y.

(** The same outcome of [np.percentile], up to the factor [c]. *)
Definition threshold_scaled (c : Q) (r' r : result (option Q)) : Prop :=
  match r', r with
  | Ok (Some t'), Ok (Some t) => t' == c * t
  | Ok None, Ok None => True
  | Raise e', Raise e => e' = e
  | _, _ => False
  end.

(** Two indexed candidates for the same index and the same clip window,
    the score of the first being [c] times the score of the second. *)
Definition same_clip (c : Q) (x y : nat * candidate) : Prop :=
  fst x = fst y
  /\ c_start (snd x) = c_start (snd y)
  /\ c_end (snd x) = c_end (snd y)
  /\ c_score (snd x) == c * c_score (snd y).

(** * Further notions used to state properties of the code *)

From Stdlib Require Import Lqa Sorted.

(** Candidates in ascending order of start. *)
Definition sorted_by_start (l : list candidate) : Prop :=
  StronglySorted (fun x y => c_start x <= c_start y) l.

(** [x] starts less than [min_between] away from some element of [l]. *)
Definition near_one_of (min_between : Q) (x : candidate) (l : list candidate)
  : Prop :=
  exists s, In s l /\ Qabs (c_start x - c_start s) < min_between.

(** The candidates the event selector builds before the spacing loop, in
    log order: one per kill that passes the killer-name filter. *)
Definition event_candidates (fs : filesystem) (video_path : string)
  (cfg : config) (data : event_log) (kills : list game_event)
  : list candidate :=
  map (event_candidate data (get_or (getctime fs video_path) 0)
         (get_or (recording_start_offset (game_events cfg)) 0)
         (cfg_padding_before (clip cfg)) (cfg_clip_duration (clip cfg)))
      kills.

(** The candidates of the signal selector before suppression, without their
    indices. *)
Definition signal_candidates (det : detection_cfg) (cl : clip_cfg)
  (duration : Q) (combined : list Q) (threshold : option Q) : list candidate :=
  map snd (indexed_candidates det cl duration combined threshold).

(** The player name the killer-name filter compares with: [strip] and
    [lower] of the configured name, empty when there is none. *)
Definition filter_player_name (cfg : config) : string :=
  Str.lower (Str.strip (get_or (player_summoner_name (game_events cfg))
                               EmptyString)).

(** The kills of a log that the event selector turns into candidates: all
    of them, or, when [filter_my_kills_only] is on and the player name is
    not blank, those whose killer is that player. *)
Definition surviving_kills (cfg : config) (data : event_log) : list game_event :=
  let kills := filter is_kill (events data) in
  if truthy (filter_my_kills_only (game_events cfg)) false
     && negb (String.eqb (filter_player_name cfg) EmptyString)
  then filter (fun k => String.eqb (killer_of k) (filter_player_name cfg)) kills
  else kills.

(** [cfg] with [filter_my_kills_only] switched off. *)
Definition without_killer_filter (cfg : config) : config :=
  mkConfig (detection cfg) (clip cfg)
           (mkGameEvents (ge_enabled (game_events cfg))
                         (ge_file (game_events cfg))
                         (prefer_events_over_ai (game_events cfg))
                         (Some false)
                         (player_summoner_name (game_events cfg))
                         (recording_start_offset (game_events cfg)))
           (ffmpeg_path cfg).

(** The interpolation of [np_percentile] on a series that is not empty,
    from the sorted series and its length [n]. *)
Definition interpolate (sorted : list Q) (n : nat) (q : Q) : Q :=
  let virtual := inject_Z (Z.of_nat (n - 1)) * (q / 100) in
  let previous := Z.to_nat (Qfloor virtual) in
  let next := Nat.min (S previous) (n - 1) in
  let gamma := virtual - inject_Z (Qfloor virtual) in
  nth previous sorted 0 + (nth next sorted 0 - nth previous sorted 0) * gamma.

(** The runs of consecutive hops that [compute_audio_energy] averages when
    it downsamples a series to [n] windows. *)
Definition audio_buckets (rms : list Q) (n : nat) : list (list Q) :=
  map (fun i => slice rms (i * List.length rms / n) ((i + 1) * List.length rms / n))
      (seq 0 n).

(** [fs] with another content and creation time for every file: the same
    paths exist and the same executables are found, but what is read from
    a log, and when a video was created, is replaced. *)
Definition replace_event_log (fs : filesystem)
  (read : string -> option json_doc) (ctime : string -> option Q)
  : filesystem :=
  mkFs (path_exists fs) read ctime (is_absolute fs) (in_script_dir fs)
       (next_to_video fs) (resolve fs) (config_yaml fs) (which fs)
       (executable_in fs) (install_folders fs).

(** The calls to the media backend among the actions of a run. *)
Definition media_calls (t : list action) : list action :=
  filter is_media_action t.

(** Both executables are found on PATH. *)
Definition on_path (fs : filesystem) : option (string * string) :=
  match which fs "ffmpeg", which fs "ffprobe" with
  | Some fmpeg, Some fprobe =>
      if negb (String.eqb fmpeg EmptyString) && negb (String.eqb fprobe EmptyString)
      then Some (fmpeg, fprobe)
      else None
  | _, _ => None
  end.

(** The folder holds both executables. *)
Definition holds_ffmpeg (fs : filesystem) (folder : string) : bool :=
  path_exists fs folder
  && path_exists fs (executable_in fs folder "ffmpeg")
  && path_exists fs (executable_in fs folder "ffprobe").

(** * Clip extraction ([extract.py]) *)

From Stdlib Require Import DecimalString DecimalNat.

(** [l1] is [l2] with some elements left out, the others in their order. *)
Inductive subseq {A : Type} : list A -> list A -> Prop :=
| subseq_nil : forall l, subseq [] l
| subseq_keep : forall x l1 l2, subseq l1 l2 -> subseq (x :: l1) (x :: l2)
| subseq_skip : forall x l1 l2, subseq l1 l2 -> subseq l1 (x :: l2).

Module Extract.

(** The keys of the [clip] section read by [extract_all_clips]. *)
Record render_cfg : Type := mkRender {
  output_dir : option string;
  aspect_ratio : option string;
  crf : option Z;
  preset : option string
}.

(** The ffmpeg command line built by [extract_clip]: the values that vary,
    the fixed options ([-y], [-c:v libx264], [-c:a aac], [-b:a 192k]) being
    left out. *)
Record clip_command : Type := mkCommand {
  cmd_ffmpeg : string;
  cmd_ss : Q;
  cmd_input : string;
  cmd_t : Q;
  cmd_vf : string;
  cmd_preset : string;
  cmd_crf : Z;
  cmd_output : string
}.

Definition crop_filter : string :=
  "crop='min(iw,ih*9/16)':'ih':'max(0,(iw-ih*9/16)/2)':'0',scale=1080:1920:flags=lanczos".

(** What [extract_all_clips] prints and does. *)
Inductive action : Type :=
| MakeDirs (dir : string)
| SaySkipping (i total : nat) (name : string)
| SayExtracting (i total : nat) (start_sec end_sec : Q)
| RunFfmpeg (cmd : clip_command)
| SayError
| SaySaved (path : string)
| SayFailed.

Definition is_run (a : action) : bool :=
  match a with RunFfmpeg _ => true | _ => false end.

Definition is_failed (a : action) : bool :=
  match a with SayFailed => true | _ => false end.

(** Why [extract_all_clips] raises: [load_config] failed, [_get_ffmpeg_bin]
    raised, or the output folder could not be made. *)
Inductive failure : Type :=
| NoConfig
| NoFfmpeg (e : exn)
| NoDirectory.

(** Python's [format(n, "02d")] for a natural number: decimal digits,
    padded with a zero to two characters. *)
Definition fmt_02d (n : nat) : string :=
  let s := NilEmpty.string_of_uint (Nat.to_uint n) in
  if (String.length s <? 2)%nat then String "0" s else s.

(** [f"{video_stem}_clip_{i+1:02d}.mp4"] *)
Definition clip_name (video_stem : string) (i : nat) : string :=
  (video_stem ++ "_clip_" ++ fmt_02d (i + 1) ++ ".mp4")%string.

Section World.

(** The machine: its files, as [detect.py] sees them through [view]; what
    running ffmpeg does to it ([None]: [subprocess.run] raised); making a
    folder with its parents ([None]: [mkdir] raised); [Path.stem] and
    [Path / name]; [load_config()]. *)
Variable W : Type.
Variable view : W -> filesystem.
Variable run_ffmpeg : W -> clip_command -> option bool * W.
Variable make_dirs : W -> string -> option W.
Variable path_stem : string -> string.
Variable join_path : string -> string -> string.
Variable load_config : W -> option (config * render_cfg).

(** [extract_clip]: [True] when ffmpeg ran and exited with 0.  The
    [aspect_ratio] argument is not used by the body. *)
Definition extract_clip (w : W) (video_path : string) (start_sec end_sec : Q)
  (output_path aspect_ratio ffmpeg_path : string) (crf : Z) (preset : string)
  : list action * W * bool :=
  let duration := end_sec - start_sec in
  let output_path := resolve (view w) output_path in
  let cmd := mkCommand ffmpeg_path start_sec video_path duration crop_filter
                       preset crf output_path in
  match run_ffmpeg w cmd with
  | (Some ok, w') => ([RunFfmpeg cmd], w', ok)
  | (None, w') => ([RunFfmpeg cmd; SayError], w', false)
  end.

(** The loop of [extract_all_clips] from index [i] on. *)
Fixpoint extract_loop (w : W) (video_path out_dir video_stem aspect ffmpeg_path
  : string) (crf : Z) (preset : string) (total i : nat)
  (highlights : list candidate) (output_paths : list string)
  : list action * W * list string :=
  match highlights with
  | [] => ([], w, output_paths)
  | h :: rest =>
      let out_name := clip_name video_stem i in
      let out_path := join_path out_dir out_name in
      if path_exists (view w) out_path then
        let '(t, w', r) :=
          extract_loop w video_path out_dir video_stem aspect ffmpeg_path crf
                       preset total (S i) rest (output_paths ++ [out_path]) in
        (SaySkipping (i + 1) total out_name :: t, w', r)
      else
        let '(t1, w1, ok) :=
          extract_clip w video_path (c_start h) (c_end h) out_path aspect
                       ffmpeg_path crf preset in
        let '(t, w', r) :=
          extract_loop w1 video_path out_dir video_stem aspect ffmpeg_path crf
                       preset total (S i) rest
                       (if ok then output_paths ++ [out_path] else output_paths) in
        (SayExtracting (i + 1) total (c_start h) (c_end h)
           :: t1 ++ (if ok then SaySaved out_path else SayFailed) :: t,
         w', r)
  end.

(** Python's [a or b] for an optional string argument. *)
Definition or_else (a : option string) (b : string) : string :=
  match a with
  | Some s => if String.eqb s EmptyString then b else s
  | None => b
  end.

(** [extract_all_clips]: the actions, the machine afterwards, and the list
    of output paths or the reason for raising. *)
Definition extract_all_clips (w : W) (video_path : string)
  (highlights : list candidate) (output_dir_arg base_name : option string)
  (config : option (config * render_cfg))
  : list action * W * (list string + failure) :=
  match (match config with Some c => Some c | None => load_config w end) with
  | None => ([], w, inr NoConfig)
  | Some (cfg, clip_cfg) =>
      let out_dir := or_else output_dir_arg
                             (get_or (output_dir clip_cfg) "outputs"%string) in
      let aspect := get_or (aspect_ratio clip_cfg) "9:16"%string in
      let crf := get_or (crf clip_cfg) 18%Z in
      let preset := get_or (preset clip_cfg) "slow"%string in
      match _get_ffmpeg_bin (view w) cfg with
      | Raise e => ([], w, inr (NoFfmpeg e))
      | Ok (ffmpeg_path, _) =>
          match make_dirs w out_dir with
          | None => ([MakeDirs out_dir], w, inr NoDirectory)
          | Some w1 =>
              let video_stem := or_else base_name (path_stem video_path) in
              let '(t, w', r) :=
                extract_loop w1 video_path out_dir video_stem aspect ffmpeg_path
                             crf preset (List.length highlights) 0 highlights [] in
              (MakeDirs out_dir :: t, w', inl r)
          end
      end
  end.

(** The output paths planned for [n] highlights from index [i] on. *)
Definition planned_paths (out_dir video_stem : string) (i n : nat) : list string :=
  map (fun k => join_path out_dir (clip_name video_stem k)) (seq i n).

End World.

End Extract.

(** The command [cmd] cuts one of the highlights out of [video_path] with
    [ffmpeg_path]: it seeks to the start of the highlight, lasts from its
    start to its end, and crops with the fixed filter. *)
Definition clips_one_of (ffmpeg_path video_path : string)
  (highlights : list candidate) (cmd : Extract.clip_command) : Prop :=
  Extract.cmd_ffmpeg cmd = ffmpeg_path
  /\ Extract.cmd_input cmd = video_path
  /\ Extract.cmd_vf cmd = Extract.crop_filter
  /\ exists h, In h highlights
               /\ Extract.cmd_ss cmd = c_start h
               /\ Extract.cmd_t cmd = c_end h - c_start h.

(** [clip_cfg] with another [aspect_ratio]. *)
Definition with_aspect_ratio (clip_cfg : Extract.render_cfg)
  (aspect : option string) : Extract.render_cfg :=
  Extract.mkRender (Extract.output_dir clip_cfg) aspect
                   (Extract.crf clip_cfg) (Extract.preset clip_cfg).

(** The runs of ffmpeg among the actions. *)
Definition ffmpeg_runs (t : list Extract.action) : list Extract.action :=
  filter Extract.is_run t.

(** A machine for examples: the list of the paths that exist.  ffmpeg
    succeeds and creates its output, except for clips that start at a
    negative time. *)
Definition example_view (w : list string) : filesystem :=
  mkFs (fun p => existsb (String.eqb p) w) (fun _ => None) (fun _ => None)
       (fun _ => true) (fun p => p) (fun _ p => p) (fun p => p) None
       (fun name => Some name) (fun _ name => name) [].

Definition example_ffmpeg (w : list string) (cmd : Extract.clip_command)
  : option bool * list string :=
  if Qle_bool 0 (Extract.cmd_ss cmd)
  then (Some true, Extract.cmd_output cmd :: w)
  else (Some false, w).

Definition example_join (dir name : string) : string :=
  (dir ++ "/" ++ name)%string.

Definition example_extract (w : list string) (highlights : list candidate)
  (clip_cfg : Extract.render_cfg) :=
  Extract.extract_all_clips example_view example_ffmpeg
    (fun w dir => Some (dir :: w)) (fun _ => "game"%string) example_join
    (fun _ => None) w "game.mp4" highlights None None
    (Some (empty_config, clip_cfg)).

(** Three highlights on an empty machine: the second starts at a negative
    time and fails. *)
Definition example_highlights : list candidate :=
  [mkCandidate 2 32 1 None; mkCandidate (-1) 29 1 None;
   mkCandidate 262 292 1 None].

Definition example_run :
  list Extract.action * list string * (list string + Extract.failure) :=
  example_extract [] example_highlights (Extract.mkRender None None None None).

Definition example_trace : list Extract.action := fst (fst example_run).

(** An ffmpeg that always succeeds and creates its output. *)
Definition reliable_ffmpeg (w : list string) (cmd : Extract.clip_command)
  : option bool * list string :=
  (Some true, Extract.cmd_output cmd :: w).

(** * Upload to YouTube ([youtube_upload.py]): one video *)

Module YouTube.

(** The request body of [upload_video]. *)
Record video_body : Type := mkBody {
  b_title : string;
  b_description : string;
  b_tags : list string;
  b_category : string;
  b_privacy : string
}.

(** What one call of [request.execute()] does: it returns a response, whose
    ["id"] may be missing; it raises [HttpError] with a status; or it raises
    something else. *)
Inductive attempt : Type :=
| Response (id : option string)
| HttpError (status : Z)
| OtherError.

(** Why [upload_video] raises. *)
Inductive failure : Type :=
| NoService
| NoMedia
| Http (status : Z)
| Other.

(** What [upload_video] does: a call of [execute], or a sleep of a random
    time between 1 second and the bound. *)
Inductive action : Type :=
| Execute
| SleepUpTo (seconds : Z).

Definition is_execute (a : action) : bool :=
  match a with Execute => true | _ => false end.

Definition sleep_bound (a : action) : Z :=
  match a with SleepUpTo s => s | Execute => 0%Z end.

(** [e.resp.status in (500, 502, 503, 504)] *)
Definition server_error (status : Z) : bool :=
  ((status =? 500) || (status =? 502) || (status =? 503) || (status =? 504))%Z.

Definition max_retries : nat := 5.

(** The loop [while retries < max_retries], by recursion on
    [max_retries - retries]; [execute k] is the outcome of the call made
    after [k] retries. *)
Fixpoint retry_loop (execute : nat -> attempt) (remaining retries : nat)
  : list action * (option string + failure) :=
  match remaining with
  | O => ([], inl None)
  | S remaining' =>
      match execute retries with
      | Response id => ([Execute], inl id)
      | HttpError status =>
          if server_error status then
            let (t, r) := retry_loop execute remaining' (S retries) in
            (Execute :: SleepUpTo (2 ^ Z.of_nat (S retries)) :: t, r)
          else ([Execute], inr (Http status))
      | OtherError => ([Execute], inr Other)
      end
  end.

(** What [upload_video] returns or raises when a call of [execute] is not
    retried. *)
Definition outcome_of (a : attempt) : option string + failure :=
  match a with
  | Response id => inl id
  | HttpError status => inr (Http status)
  | OtherError => inr Other
  end.

(** The call failed with a status that is retried. *)
Definition retried (a : attempt) : bool :=
  match a with
  | HttpError status => server_error status
  | _ => false
  end.

(** The request body: the title cut to 100 characters, the description to
    5000 with a default for an empty one, default tags for no tags. *)
Definition request_body (title description : string)
  (tags : option (list string)) (privacy category_id : string) : video_body :=
  mkBody (String.substring 0 100 title)
         (let d := String.substring 0 5000 description in
          if String.eqb d EmptyString
          then "League of Legends highlight clip"%string else d)
         (match tags with
          | Some (t :: ts) => t :: ts
          | _ => ["League of Legends"; "Gaming"; "Shorts"]%string
          end)
         category_id privacy.

Section Service.

(** A service object; [get_youtube_service()] ([None]: it raises);
    [MediaFileUpload] ([false]: it raises, the file cannot be read); the
    outcomes of the calls of [execute] for a request. *)
Variable service : Type.
Variable get_youtube_service : option service.
Variable media_file_upload : string -> bool.
Variable execute : service -> video_body -> string -> nat -> attempt.

(** The service [upload_video] uses: the one passed, or a new one. *)
Definition service_of (youtube : option service) : option service :=
  match youtube with
  | Some y => Some y
  | None => get_youtube_service
  end.

(** [upload_video]: the video id, [None] after giving up, or the
    exception. *)
Definition upload_video (file_path title description : string)
  (tags : option (list string)) (privacy category_id : string)
  (youtube : option service) : list action * (option string + failure) :=
  match service_of youtube with
  | None => ([], inr NoService)
  | Some youtube =>
      let body := request_body title description tags privacy category_id in
      if media_file_upload file_path
      then retry_loop (execute youtube body file_path) max_retries 0
      else ([], inr NoMedia)
  end.

End Service.

(** The calls of [execute] and the longest total sleep of a run. *)
Definition executions (t : list action) : nat :=
  List.length (filter is_execute t).

Definition longest_sleep (t : list action) : Z :=
  fold_right Z.add 0%Z (map sleep_bound t).

(** ** [upload_clips] *)

(** The keys of the [youtube] section read by [upload_clips]. *)
Record youtube_cfg : Type := mkYoutube {
  yt_enabled : option bool;
  yt_clip_counter_start : option Z;
  yt_client_secrets_file : option string;
  yt_title_template : option string;
  yt_description : option string;
  yt_tags : option (list string);
  yt_privacy : option string
}.

Definition empty_youtube : youtube_cfg :=
  mkYoutube None None None None None None None.

Definition CLIENT_SECRETS_FILE : string := "client_secrets.json".

(** The counter file: missing; there but unreadable or not a number; or a
    number. *)
Inductive counter_file : Type :=
| NoCounter
| BadCounter
| Counter (n : Z).

Definition _get_next_clip_num (counter : counter_file) (start : Z) : Z :=
  match counter with
  | Counter n => n
  | _ => start
  end.

(** What [upload_clips] does: the line announcing a clip, the actions of
    [upload_video], a call of [_save_clip_counter], and the line that
    follows. *)
Inductive clips_action : Type :=
| SayUploading (n total : nat) (clip_num : Z) (name : string)
| Upload (a : action)
| SaveCounter (value : Z)
| SayUrl (vid : string)
| SayFailed
| SayError.

(** Why [upload_clips] raises: [get_youtube_service] did; [clip_numbers[-1]]
    of an empty list; [str.format] did. *)
Inductive clips_failure : Type :=
| ServiceError
| IndexError
| FormatError.

(** [clip_numbers[i] if i < len(clip_numbers) else clip_numbers[-1] + i] *)
Definition clip_number (clip_numbers : list Z) (i : nat) : option Z :=
  if (i <? List.length clip_numbers)%nat then nth_error clip_numbers i
  else match clip_numbers with
       | [] => None
       | _ => Some (last clip_numbers 0 + Z.of_nat i)%Z
       end.

(** [yt_cfg.get("client_secrets_file", "").strip() or CLIENT_SECRETS_FILE] *)
Definition secrets_file_of (yt : youtube_cfg) : string :=
  let s := Str.strip (get_or (yt_client_secrets_file yt) EmptyString) in
  if String.eqb s EmptyString then CLIENT_SECRETS_FILE else s.

Definition title_template_of (yt : youtube_cfg) : string :=
  get_or (yt_title_template yt) "League Highlight {num}"%string.

Section Clips.

(** [get_youtube_service(secrets_path=...)] ([None]: it raises); for the
    clip at a position of the list, [MediaFileUpload] and the outcomes of
    [execute]; [str.format] with [num], [n] and [total] ([None]: it raises);
    [Path(path).name]; whether [_save_clip_counter] returns at a position
    ([false]: it raises). *)
Variable service : Type.
Variable get_youtube_service : string -> option service.
Variable media_file_upload : nat -> string -> bool.
Variable execute : nat -> service -> video_body -> string -> nat -> attempt.
Variable format : string -> Z -> nat -> nat -> option string.
Variable path_name : string -> string.
Variable _save_clip_counter : nat -> Z -> bool.

(** The call of [upload_video] for the clip at position [i]. *)
Definition upload_one (yt : youtube_cfg) (youtube : service) (i : nat)
  (path title : string) : list action * (option string + failure) :=
  upload_video (get_youtube_service CLIENT_SECRETS_FILE)
    (media_file_upload i) (execute i) path title
    (get_or (yt_description yt) EmptyString)
    (Some (get_or (yt_tags yt) ["League of Legends"; "Gaming"; "Shorts"]%string))
    (get_or (yt_privacy yt) "private"%string) "20" (Some youtube).

(** The body of the [try]: what is done after [upload_video], and the id
    appended to [uploaded]. *)
Definition after_upload (given : bool) (i : nat) (clip_num : Z)
  (r : option string + failure) : list clips_action * option string :=
  match r with
  | inl (Some vid) =>
      if String.eqb vid EmptyString then ([SayFailed], None)
      else if given then ([SayUrl vid], Some vid)
      else if _save_clip_counter i (clip_num + 1)%Z
           then ([SaveCounter (clip_num + 1)%Z; SayUrl vid], Some vid)
           else ([SaveCounter (clip_num + 1)%Z; SayError], Some vid)
  | inl None => ([SayFailed], None)
  | inr _ => ([SayError], None)
  end.

(** The loop [for i, path in enumerate(clip_paths)], from position [i];
    [given] says that [clip_nums] was passed. *)
Fixpoint upload_loop (yt : youtube_cfg) (youtube : service) (given : bool)
  (clip_numbers : list Z) (total i : nat) (paths : list string)
  : list clips_action * (list string + clips_failure) :=
  match paths with
  | [] => ([], inl [])
  | path :: rest =>
      match clip_number clip_numbers i with
      | None => ([], inr IndexError)
      | Some clip_num =>
          match format (title_template_of yt) clip_num (i + 1) total with
          | None => ([], inr FormatError)
          | Some title =>
              let (t, r) := upload_one yt youtube i path title in
              let (here, vid) := after_upload given i clip_num r in
              let (t', r') :=
                upload_loop yt youtube given clip_numbers total (S i) rest in
              (SayUploading (i + 1) total clip_num (path_name path)
                 :: map Upload t ++ here ++ t',
               match r' with
               | inl ids =>
                   inl (match vid with Some v => v :: ids | None => ids end)
               | inr e => inr e
               end)
          end
      end
  end.

(** [upload_clips], from the [youtube] section of the configuration, the
    numbers passed and the counter file. *)
Definition upload_clips (clip_paths : list string) (yt_cfg : option youtube_cfg)
  (clip_nums : option (list Z)) (counter : counter_file)
  : list clips_action * (list string + clips_failure) :=
  let yt := get_or yt_cfg empty_youtube in
  if negb (truthy (yt_enabled yt) false) then ([], inl [])
  else
    let clip_numbers :=
      match clip_nums with
      | Some nums => nums
      | None =>
          let start :=
            _get_next_clip_num counter (get_or (yt_clip_counter_start yt) 1%Z) in
          map (fun i => (start + Z.of_nat i)%Z) (seq 0 (List.length clip_paths))
      end in
    match get_youtube_service (secrets_file_of yt) with
    | None => ([], inr ServiceError)
    | Some youtube =>
        upload_loop yt youtube
          (match clip_nums with Some _ => true | None => false end)
          clip_numbers (List.length clip_paths) 0 clip_paths
    end.

End Clips.

(** The clips announced, with their position and number; the values saved
    to the counter file. *)
Definition announced (t : list clips_action) : list (nat * Z) :=
  flat_map (fun a => match a with
                     | SayUploading n _ clip_num _ => [(n, clip_num)]
                     | _ => []
                     end) t.

Definition saved (t : list clips_action) : list Z :=
  flat_map (fun a => match a with SaveCounter v => [v] | _ => [] end) t.

End YouTube.

(** A service whose first calls fail with status 503. *)
Definition flaky_execute (failures : nat) (_ : unit) (_ : YouTube.video_body)
  (_ : string) (k : nat) : YouTube.attempt :=
  if (k <? failures)%nat then YouTube.HttpError 503
  else YouTube.Response (Some "abc123"%string).

(** Three clips, of which the second is never accepted by the service. *)
Definition example_uploads : list YouTube.clips_action
                             * (list string + YouTube.clips_failure) :=
  YouTube.upload_clips (fun _ => Some tt) (fun _ _ => true)
    (fun i => flaky_execute (if (i =? 1)%nat then 5 else 0))
    (fun template _ _ _ => Some template) (fun path => path) (fun _ _ => true)
    ["a.mp4"; "b.mp4"; "c.mp4"]%string
    (Some (YouTube.mkYoutube (Some true) None None None None None None))
    None (YouTube.Counter 7).

(** * Properties *)

(** ** Comparisons *)

Lemma Qltb_lt a b : Qltb a b = true <-> a < b.
Proof.
  unfold Qltb. rewrite negb_true_iff. split.
  - intros H. apply Qnot_le_lt. intros Hle.
    apply Qle_bool_iff in Hle. congruence.
  - intros H. destruct (Qle_bool b a) eqn:E; [|reflexivity].
    apply Qle_bool_iff in E. exfalso. exact (Qlt_not_le _ _ H E).
Qed.

Lemma Qltb_ge a b : Qltb a b = false <-> b <= a.
Proof.
  unfold Qltb. rewrite negb_false_iff. apply Qle_bool_iff.
Qed.

Lemma Qltb_spec a b : BoolSpec (a < b) (b <= a) (Qltb a b).
Proof.
  destruct (Qltb a b) eqn:E; constructor;
    [apply Qltb_lt | apply Qltb_ge]; exact E.
Qed.

#[export] Instance Qltb_proper : Proper (Qeq ==> Qeq ==> eq) Qltb.
Proof.
  intros a a' Ha b b' Hb.
  destruct (Qltb_spec a b) as [H|H], (Qltb_spec a' b') as [H'|H']; try reflexivity.
  - rewrite Ha, Hb in H. exfalso. exact (Qlt_not_le _ _ H H').
  - rewrite <- Ha, <- Hb in H'. exfalso. exact (Qlt_not_le _ _ H' H).
Qed.

(** ** Score normaliser *)

Section NormalizerFacts.

Lemma qmin_le_l a b : qmin a b <= a.
Proof. unfold qmin. destruct (Qltb_spec b a); [apply Qlt_le_weak; auto | apply Qle_refl]. Qed.

Lemma qmin_le_r a b : qmin a b <= b.
Proof. unfold qmin. destruct (Qltb_spec b a); [apply Qle_refl | auto]. Qed.

Lemma qmin_cases a b : qmin a b = a \/ qmin a b = b.
Proof. unfold qmin. destruct (Qltb b a); auto. Qed.

Lemma qmax_ge_l a b : a <= qmax a b.
Proof. unfold qmax. destruct (Qltb_spec a b); [apply Qlt_le_weak; auto | apply Qle_refl]. Qed.

Lemma qmax_ge_r a b : b <= qmax a b.
Proof. unfold qmax. destruct (Qltb_spec a b); [apply Qle_refl | auto]. Qed.

Lemma qmax_cases a b : qmax a b = a \/ qmax a b = b.
Proof. unfold qmax. destruct (Qltb a b); auto. Qed.

Lemma fold_qmin_spec xs : forall a,
    (fold_left qmin xs a = a \/ In (fold_left qmin xs a) xs)
    /\ fold_left qmin xs a <= a
    /\ Forall (fun x => fold_left qmin xs a <= x) xs.
Proof.
  induction xs as [|x xs IH]; intros a; simpl.
  - repeat split; auto using Qle_refl.
  - destruct (IH (qmin a x)) as (Hin & Hle & Hall).
    repeat split.
    + destruct Hin as [E|Hin]; [|auto].
      rewrite E. destruct (qmin_cases a x) as [->| ->]; auto.
    + eapply Qle_trans; [exact Hle | apply qmin_le_l].
    + constructor; [eapply Qle_trans; [exact Hle | apply qmin_le_r] | exact Hall].
Qed.

Lemma fold_qmax_spec xs : forall a,
    (fold_left qmax xs a = a \/ In (fold_left qmax xs a) xs)
    /\ a <= fold_left qmax xs a
    /\ Forall (fun x => x <= fold_left qmax xs a) xs.
Proof.
  induction xs as [|x xs IH]; intros a; simpl.
  - repeat split; auto using Qle_refl.
  - destruct (IH (qmax a x)) as (Hin & Hle & Hall).
    repeat split.
    + destruct Hin as [E|Hin]; [|auto].
      rewrite E. destruct (qmax_cases a x) as [->| ->]; auto.
    + eapply Qle_trans; [apply qmax_ge_l | exact Hle].
    + constructor; [eapply Qle_trans; [apply qmax_ge_r | exact Hle] | exact Hall].
Qed.

Lemma np_min_spec s m : np_min s = Some m -> In m s /\ Forall (fun x => m <= x) s.
Proof.
  destruct s as [|x xs]; simpl; [discriminate|].
  intros [= <-]. destruct (fold_qmin_spec xs x) as (Hin & Hle & Hall).
  split; [destruct Hin as [->|]; auto | constructor; assumption].
Qed.

Lemma np_max_spec s m : np_max s = Some m -> In m s /\ Forall (fun x => x <= m) s.
Proof.
  destruct s as [|x xs]; simpl; [discriminate|].
  intros [= <-]. destruct (fold_qmax_spec xs x) as (Hin & Hle & Hall).
  split; [destruct Hin as [->|]; auto | constructor; assumption].
Qed.

Lemma np_min_is_min s m : np_min s = Some m -> is_min m s.
Proof.
  intros H. apply np_min_spec in H as [Hin Hall].
  split; [exists m; split; [assumption | reflexivity] | assumption].
Qed.

Lemma np_max_is_max s m : np_max s = Some m -> is_max m s.
Proof.
  intros H. apply np_max_spec in H as [Hin Hall].
  split; [exists m; split; [assumption | reflexivity] | assumption].
Qed.

Lemma is_min_unique s m m' : is_min m s -> is_min m' s -> m == m'.
Proof.
  intros [(x & Hx & Ex) Hm] [(x' & Hx' & Ex') Hm'].
  rewrite Forall_forall in Hm, Hm'.
  apply Qle_antisym.
  - rewrite <- Ex'. auto.
  - rewrite <- Ex. auto.
Qed.

Lemma is_max_unique s m m' : is_max m s -> is_max m' s -> m == m'.
Proof.
  intros [(x & Hx & Ex) Hm] [(x' & Hx' & Ex') Hm'].
  rewrite Forall_forall in Hm, Hm'.
  apply Qle_antisym.
  - rewrite <- Ex. auto.
  - rewrite <- Ex'. auto.
Qed.

Lemma zeros_like_length s : length (zeros_like s) = length s.
Proof. apply List.length_map. Qed.

Lemma zeros_like_repeat s : zeros_like s = repeat 0 (length s).
Proof. induction s; simpl; congruence. Qed.

Lemma normalize_scores_length s : length (normalize_scores s) = length s.
Proof.
  unfold normalize_scores.
  destruct (np_max s), (np_min s); try apply zeros_like_length.
  destruct (Qeq_bool _ _); [apply zeros_like_length | apply List.length_map].
Qed.

Lemma normalize_scores_nil : normalize_scores [] = [].
Proof. reflexivity. Qed.

Lemma Forall2_map_r {A B} (R : A -> B -> Prop) (f : A -> B) (l : list A) :
  (forall x, In x l -> R x (f x)) -> Forall2 R l (map f l).
Proof.
  induction l as [|a l IH]; simpl; intros H; constructor; auto.
Qed.

(** The unit-interval bound of one rescaled value. *)
Lemma rescale_in_unit x mn mx :
  mn <= x -> x <= mx -> ~ mx == mn -> in_unit ((x - mn) / (mx - mn)).
Proof.
  intros Hlo Hhi Hne.
  assert (Hlt : 0 < mx - mn).
  { assert (mn <= mx) by (eapply Qle_trans; eauto).
    destruct (Qlt_le_dec mn mx) as [Hl|Hl].
    - rewrite <- (Qplus_opp_r mn). apply Qplus_lt_le_compat; [assumption | apply Qle_refl].
    - exfalso. apply Hne. apply Qle_antisym; assumption. }
  split.
  - apply Qle_shift_div_l; [assumption|].
    rewrite Qmult_0_l. rewrite <- (Qplus_opp_r mn).
    apply Qplus_le_compat; [assumption | apply Qle_refl].
  - apply Qle_shift_div_r; [assumption|].
    rewrite Qmult_1_l. apply Qplus_le_compat; [assumption | apply Qle_refl].
Qed.

Lemma Forall2_map_l {A B} (R : B -> A -> Prop) (f : A -> B) (l : list A) :
  (forall x, In x l -> R (f x) x) -> Forall2 R (map f l) l.
Proof.
  induction l as [|a l IH]; simpl; intros H; constructor; auto.
Qed.

Lemma min_lt_max_of_nonconstant s mn mx :
  is_min mn s -> is_max mx s -> ~ constant_series s -> ~ mx == mn.
Proof.
  intros [_ Hmn] [_ Hmx] Hnc E. apply Hnc. intros a b Ha Hb.
  rewrite Forall_forall in Hmn, Hmx.
  apply Qle_antisym.
  - apply Qle_trans with mx; [auto|]. rewrite E. auto.
  - apply Qle_trans with mx; [auto|]. rewrite E. auto.
Qed.

Lemma constant_min_eq_max s mn mx :
  is_min mn s -> is_max mx s -> constant_series s -> mx == mn.
Proof.
  intros [(a & Ha & Ea) _] [(b & Hb & Eb) _] Hc.
  rewrite <- Ea, <- Eb. apply Hc; assumption.
Qed.

(** What [normalize_scores] computes on a series that is not constant. *)
Lemma normalize_scores_rescale s mn mx :
  np_min s = Some mn -> np_max s = Some mx -> ~ mx == mn ->
  normalize_scores s = map (fun x => (x - mn) / (mx - mn)) s.
Proof.
  intros Hmn Hmx Hne. unfold normalize_scores. rewrite Hmn, Hmx.
  destruct (Qeq_bool mx mn) eqn:E; [|reflexivity].
  apply Qeq_bool_iff in E. contradiction.
Qed.

Lemma np_min_some s : s <> [] -> exists m, np_min s = Some m.
Proof. destruct s; [congruence | eexists; reflexivity]. Qed.

Lemma np_max_some s : s <> [] -> exists m, np_max s = Some m.
Proof. destruct s; [congruence | eexists; reflexivity]. Qed.

Lemma normalize_scores_in_unit s : Forall in_unit (normalize_scores s).
Proof.
  assert (Hz : Forall in_unit (zeros_like s)).
  { unfold zeros_like. apply Forall_forall. intros y Hy.
    apply in_map_iff in Hy as (x & <- & _). split; [apply Qle_refl | discriminate]. }
  unfold normalize_scores.
  destruct (np_max s) as [mx|] eqn:Hmx; [|exact Hz].
  destruct (np_min s) as [mn|] eqn:Hmn; [|exact Hz].
  destruct (Qeq_bool mx mn) eqn:E; [exact Hz|].
  apply Qeq_bool_neq in E.
  apply np_min_spec in Hmn as [_ Hlo]. apply np_max_spec in Hmx as [_ Hhi].
  rewrite Forall_forall in Hlo, Hhi.
  apply Forall_forall. intros y Hy. apply in_map_iff in Hy as (x & <- & Hx).
  apply rescale_in_unit; auto.
Qed.

(** Normalising twice is normalising once, on every series that is not
    constant. *)
Lemma normalize_scores_twice s :
  ~ constant_series s ->
  Forall2 Qeq (normalize_scores (normalize_scores s)) (normalize_scores s).
Proof.
  intros Hnc.
  assert (Hs : s <> []).
  { intros ->. apply Hnc. intros a b []. }
  destruct (np_min_some Hs) as (mn & Hmn), (np_max_some Hs) as (mx & Hmx).
  pose proof (np_min_is_min _ Hmn) as Imn. pose proof (np_max_is_max _ Hmx) as Imx.
  pose proof (min_lt_max_of_nonconstant Imn Imx Hnc) as Hne.
  set (f := fun x => (x - mn) / (mx - mn)).
  assert (Hy : normalize_scores s = map f s) by (apply normalize_scores_rescale; auto).
  pose proof (normalize_scores_in_unit s) as Hunit. rewrite Hy in *.
  rewrite Forall_forall in Hunit.
  assert (Hden : ~ mx - mn == 0).
  { intros E. apply Hne. rewrite <- (Qplus_0_l mn), <- E. ring. }
  assert (I0 : is_min 0 (map f s)).
  { split.
    - apply np_min_spec in Hmn as [Hin _]. exists (f mn). split; [apply in_map; exact Hin|].
      unfold f. field. exact Hden.
    - apply Forall_forall. intros y Hyin. apply Hunit. exact Hyin. }
  assert (I1 : is_max 1 (map f s)).
  { split.
    - apply np_max_spec in Hmx as [Hin _]. exists (f mx). split; [apply in_map; exact Hin|].
      unfold f. field. exact Hden.
    - apply Forall_forall. intros y Hyin. apply Hunit. exact Hyin. }
  assert (Hy' : map f s <> []) by (destruct s; [congruence | discriminate]).
  destruct (np_min_some Hy') as (m0 & Hm0), (np_max_some Hy') as (m1 & Hm1).
  assert (E0 : m0 == 0) by (eapply is_min_unique; [apply np_min_is_min; eassumption | exact I0]).
  assert (E1 : m1 == 1) by (eapply is_max_unique; [apply np_max_is_max; eassumption | exact I1]).
  rewrite (@normalize_scores_rescale (map f s) m0 m1 Hm0 Hm1).
  - apply Forall2_map_l. intros y _. rewrite E0, E1. field.
  - rewrite E0, E1. discriminate.
Qed.

End NormalizerFacts.

(** C5. [normalize_scores] keeps the length; on an empty or constant series
    (maximum equal to minimum) it returns zeros; otherwise each value [x]
    becomes [(x - min) / (max - min)]; in every case the output values lie
    in the unit interval. *)
Theorem normalize_scores_spec (s : list Q) :
  List.length (normalize_scores s) = List.length s
  /\ ((s = [] \/ exists mn mx, is_min mn s /\ is_max mx s /\ mx == mn) ->
      normalize_scores s = repeat 0 (List.length s))
  /\ (forall mn mx, is_min mn s -> is_max mx s -> ~ mx == mn ->
      Forall2 (fun x y => y == (x - mn) / (mx - mn)) s (normalize_scores s))
  /\ Forall in_unit (normalize_scores s).
Proof.
  split; [apply normalize_scores_length|].
  split; [|split; [|apply normalize_scores_in_unit]].
  - intros [->|(mn & mx & Imn & Imx & E)]; [reflexivity|].
    unfold normalize_scores.
    destruct (np_max s) as [mx0|] eqn:Hmx; [|apply zeros_like_repeat].
    destruct (np_min s) as [mn0|] eqn:Hmn; [|apply zeros_like_repeat].
    assert (E0 : mx0 == mn0).
    { rewrite (is_max_unique (np_max_is_max _ Hmx) Imx).
      rewrite (is_min_unique (np_min_is_min _ Hmn) Imn). exact E. }
    apply Qeq_bool_iff in E0. rewrite E0. apply zeros_like_repeat.
  - intros mn mx Imn Imx Hne.
    assert (Hs : s <> []).
    { destruct Imn as [(x & Hx & _) _]. intros ->. exact Hx. }
    destruct (np_min_some Hs) as (mn0 & Hmn), (np_max_some Hs) as (mx0 & Hmx).
    assert (Emn : mn0 == mn) by (eapply is_min_unique; [apply np_min_is_min|]; eassumption).
    assert (Emx : mx0 == mx) by (eapply is_max_unique; [apply np_max_is_max|]; eassumption).
    rewrite (@normalize_scores_rescale s mn0 mx0 Hmn Hmx).
    + apply Forall2_map_r. intros x _. simpl. rewrite Emn, Emx. reflexivity.
    + rewrite Emn, Emx. exact Hne.
Qed.

(** C9. On a series that is not constant and whose values already lie in
    the unit interval, normalising twice gives the same values as
    normalising once. *)
Theorem normalize_scores_idempotent (x : list Q) :
  Forall in_unit x -> ~ constant_series x ->
  Forall2 Qeq (normalize_scores (normalize_scores x)) (normalize_scores x).
Proof.
  intros _ Hnc. apply normalize_scores_twice. exact Hnc.
Qed.

Lemma normalize_scores_idempotent_witness :
  Forall2 Qeq (normalize_scores (normalize_scores [1 # 4; 3 # 4; 1 # 2]))
              (normalize_scores [1 # 4; 3 # 4; 1 # 2]).
Proof.
  apply normalize_scores_idempotent.
  - repeat constructor; discriminate.
  - intros H. specialize (H (1 # 4) (3 # 4)). simpl in H.
    assert (E : 1 # 4 == 3 # 4) by (apply H; auto).
    discriminate E.
Defined.

(** ** Stable sorting *)

Section SortFacts.

Context {A : Type} (before : A -> A -> bool).

Lemma insert_by_perm x l : Permutation (insert_by before x l) (x :: l).
Proof.
  induction l as [|y l IH]; simpl; [reflexivity|].
  destruct (before y x); [|reflexivity].
  rewrite IH. apply perm_swap.
Qed.

Lemma sort_by_perm l : Permutation (sort_by before l) l.
Proof.
  induction l as [|x l IH]; simpl; [reflexivity|].
  rewrite insert_by_perm. constructor. exact IH.
Qed.

Lemma sort_by_length l : List.length (sort_by before l) = List.length l.
Proof. apply Permutation_length, sort_by_perm. Qed.

Lemma sort_by_In x l : In x (sort_by before l) <-> In x l.
Proof.
  split; apply Permutation_in; [|symmetry]; apply sort_by_perm.
Qed.

End SortFacts.

(** Sorting two pointwise related lists with orders that agree on related
    elements gives pointwise related lists. *)
Section SortRelated.

Context {A B : Type} (R : A -> B -> Prop).
Context (beforeA : A -> A -> bool) (beforeB : B -> B -> bool).
Hypothesis before_agree : forall x1 x2 y1 y2,
    R x1 x2 -> R y1 y2 -> beforeA y1 x1 = beforeB y2 x2.

Lemma insert_by_related x1 x2 l1 l2 :
  R x1 x2 -> Forall2 R l1 l2 ->
  Forall2 R (insert_by beforeA x1 l1) (insert_by beforeB x2 l2).
Proof.
  intros Hx Hl. induction Hl as [|y1 y2 l1 l2 Hy Hl IH]; simpl.
  - constructor; [assumption | constructor].
  - rewrite (before_agree Hx Hy).
    destruct (beforeB y2 x2); constructor; auto.
Qed.

Lemma sort_by_related l1 l2 :
  Forall2 R l1 l2 -> Forall2 R (sort_by beforeA l1) (sort_by beforeB l2).
Proof.
  induction 1; simpl; [constructor | apply insert_by_related; assumption].
Qed.

End SortRelated.

(** ** Non-maximum suppression *)

Section NmsFacts.

Context {A : Type} (start_of : A -> Q).

Lemma too_close_false mb c sel :
  too_close start_of mb c sel = false ->
  Forall (fun s => mb <= Qabs (start_of s - start_of c)) sel.
Proof.
  unfold too_close. intros H. apply Forall_forall. intros s Hs.
  destruct (Qltb_spec (Qabs (start_of c - start_of s)) mb) as [Hlt|Hge].
  - exfalso. assert (E : existsb (fun s => Qltb (Qabs (start_of c - start_of s)) mb) sel = true).
    { apply existsb_exists. exists s. split; [assumption | apply Qltb_lt; assumption]. }
    congruence.
  - rewrite Qabs_Qminus. exact Hge.
Qed.

Lemma spaced_snoc mb l c :
  spaced start_of mb l ->
  Forall (fun s => mb <= Qabs (start_of s - start_of c)) l ->
  spaced start_of mb (l ++ [c]).
Proof.
  induction l as [|a l IH]; cbn [spaced app]; intros Hs Hc.
  - split; constructor.
  - destruct Hs as [Ha Hs]. inversion Hc as [|? ? Hac Hc']; subst.
    split; [|apply IH; assumption].
    apply Forall_app. split; [assumption | constructor; [assumption | constructor]].
Qed.

Lemma spaced_perm mb l l' :
  Permutation l l' -> spaced start_of mb l -> spaced start_of mb l'.
Proof.
  induction 1 as [| x l l' Hp IH | x y l | l l' l'' H1 IH1 H2 IH2]; cbn [spaced].
  - trivial.
  - intros [Hx Hs]. split; [|auto].
    eapply Permutation_Forall; eassumption.
  - intros [Hy [Hx Hs]]. inversion Hy as [|? ? Hyx Hy']; subst.
    repeat split; try assumption.
    constructor; [|assumption]. rewrite Qabs_Qminus. exact Hyx.
  - auto.
Qed.

Lemma spaced_no_two_close mb l :
  spaced start_of mb l -> no_two_close start_of mb l.
Proof.
  assert (Hord : forall l, spaced start_of mb l ->
            forall i j a b, (i < j)%nat ->
              nth_error l i = Some a -> nth_error l j = Some b ->
              mb <= Qabs (start_of a - start_of b)).
  { clear l. induction l as [|x l IH]; intros Hs i j a b Hij Hi Hj.
    - destruct i; discriminate.
    - destruct Hs as [Hx Hs]. destruct j as [|j]; [lia|].
      simpl in Hj. destruct i as [|i]; simpl in Hi.
      + injection Hi as <-. rewrite Forall_forall in Hx.
        apply Hx. eapply nth_error_In; eassumption.
      + apply (IH Hs i j); [lia | assumption | assumption]. }
  intros Hs i j a b Hij Hi Hj Hlt.
  apply (Qlt_not_le _ _ Hlt).
  destruct (Nat.lt_ge_cases i j) as [L|L].
  - eapply Hord; eassumption.
  - rewrite Qabs_Qminus. eapply (Hord l Hs j i); [lia | assumption | assumption].
Qed.

Lemma nms_loop_spaced max_clips mb cands : forall sel,
  spaced start_of mb sel ->
  spaced start_of mb (nms_loop start_of max_clips mb cands sel).
Proof.
  induction cands as [|c rest IH]; cbn [nms_loop]; intros sel Hs; [assumption|].
  destruct (Z.of_nat (List.length sel) >=? max_clips)%Z; [assumption|].
  destruct (too_close start_of mb c sel) eqn:E; [auto|].
  apply IH. apply spaced_snoc; [assumption | apply too_close_false; assumption].
Qed.

Lemma nms_loop_length max_clips mb cands : forall sel,
  (Z.of_nat (List.length sel) <= max_clips)%Z ->
  (Z.of_nat (List.length (nms_loop start_of max_clips mb cands sel)) <= max_clips)%Z.
Proof.
  induction cands as [|c rest IH]; cbn [nms_loop]; intros sel Hl; [assumption|].
  destruct (Z.geb_spec (Z.of_nat (List.length sel)) max_clips); [assumption|].
  destruct (too_close start_of mb c sel); [auto|].
  apply IH. rewrite List.length_app. simpl. lia.
Qed.

(** The selected candidates are candidates, kept in the order given. *)
Lemma nms_loop_incl max_clips mb cands : forall sel x,
  In x (nms_loop start_of max_clips mb cands sel) -> In x sel \/ In x cands.
Proof.
  induction cands as [|c rest IH]; cbn [nms_loop]; intros sel x Hx; [auto|].
  destruct (Z.of_nat (List.length sel) >=? max_clips)%Z; [auto|].
  destruct (too_close start_of mb c sel).
  - destruct (IH _ _ Hx) as [H|H]; [left | right; right]; assumption.
  - destruct (IH _ _ Hx) as [H|H]; [|right; right; assumption].
    apply in_app_or in H as [H|[H|[]]]; [left | right; left]; assumption.
Qed.

End NmsFacts.

Lemma spaced_map {A B} (f : A -> B) (start_of : B -> Q) mb (l : list A) :
  spaced (fun a => start_of (f a)) mb l -> spaced start_of mb (map f l).
Proof.
  induction l as [|a l IH]; cbn [spaced map]; [trivial|].
  intros [Ha Hs]. split; [|auto].
  apply Forall_map. exact Ha.
Qed.

(** ** Runs *)

Lemma bind_ok_inv {A B} (m : run A) (f : A -> run B) t b :
  bind m f = (t, Ok b) ->
  exists t1 a t2, m = (t1, Ok a) /\ f a = (t2, Ok b) /\ t = t1 ++ t2.
Proof.
  unfold bind. destruct m as [t1 [a|e]]; [|discriminate].
  destruct (f a) as [t2 r] eqn:E. intros [= <- ->].
  exists t1, a, t2. auto.
Qed.

Lemma bind_ok {A B} (f : A -> run B) t a :
  bind (t, Ok a) f = (t ++ fst (f a), snd (f a)).
Proof. unfold bind. destruct (f a); reflexivity. Qed.

Lemma bind_raise {A B} (f : A -> run B) t e :
  bind (t, Raise e) f = (t, Raise e).
Proof. reflexivity. Qed.

(** Whatever [detect_signal] returns is what [select_peaks] returns on the
    combined series it built. *)
Lemma detect_signal_ok fs m video_path cfg t l :
  detect_signal fs m video_path cfg = (t, Ok l) ->
  exists duration combined,
    select_peaks (detection cfg) (clip cfg) duration combined = Ok l.
Proof.
  unfold detect_signal.
  destruct (negb (path_exists fs (resolve fs video_path))); [discriminate|].
  intros H.
  apply bind_ok_inv in H as (? & [ffmpeg ffprobe] & ? & _ & H & _).
  apply bind_ok_inv in H as (? & ? & ? & _ & H & _).
  destruct (get_video_info m (resolve fs video_path) ffprobe) as [[duration fps]|];
    [|discriminate].
  apply bind_ok_inv in H as (? & ? & ? & _ & H & _).
  apply bind_ok_inv in H as (? & ? & ? & _ & H & _).
  destruct (audio_rms m (resolve fs video_path) ffmpeg) as [rms|]; [|discriminate].
  apply bind_ok_inv in H as (? & audio_energy & ? & _ & H & _).
  apply bind_ok_inv in H as (? & audio_norm & ? & _ & H & _).
  apply bind_ok_inv in H as (? & ? & ? & _ & H & _).
  apply bind_ok_inv in H as (? & ? & ? & _ & H & _).
  apply bind_ok_inv in H as (? & motion_nan & ? & _ & H & _).
  apply bind_ok_inv in H as (? & motion_scores & ? & _ & H & _).
  apply bind_ok_inv in H as (? & motion_norm & ? & _ & H & _).
  unfold lift in H. injection H as _ H.
  eauto.
Qed.

(** Whatever the event branch returns is what the event selector returns. *)
Lemma try_events_some fs video_path cfg events_file t hl :
  try_events fs video_path cfg events_file = (t, Ok (Some hl)) ->
  load_highlights_from_events fs
    (resolve_events_path fs video_path cfg events_file) video_path cfg
  = Ok (Some hl)
  /\ hl <> []
  /\ t = [Print "  Using game events (kill timestamps from Live Client Data API)"].
Proof.
  unfold try_events.
  destruct (truthy (ge_enabled (game_events cfg)) true); [|discriminate].
  destruct (truthy (prefer_events_over_ai (game_events cfg)) true); [|discriminate].
  destruct (load_highlights_from_events fs _ video_path cfg) as [[[|c cs]|]|e];
    unfold lift; [rewrite bind_ok..|rewrite bind_raise; discriminate].
  - destruct (path_exists fs _); discriminate.
  - cbn. intros [= <- <-]. repeat split; congruence.
  - destruct (path_exists fs _); discriminate.
Qed.

(** An exception of the event branch is one of the event selector. *)
Lemma try_events_raise fs video_path cfg events_file t e :
  try_events fs video_path cfg events_file = (t, Raise e) ->
  load_highlights_from_events fs
    (resolve_events_path fs video_path cfg events_file) video_path cfg
  = Raise e.
Proof.
  unfold try_events.
  destruct (truthy (ge_enabled (game_events cfg)) true); [|discriminate].
  destruct (truthy (prefer_events_over_ai (game_events cfg)) true); [|discriminate].
  destruct (load_highlights_from_events fs _ video_path cfg) as [[[|c cs]|]|e'];
    unfold lift; [rewrite bind_ok..|rewrite bind_raise].
  - destruct (path_exists fs _); discriminate.
  - discriminate.
  - destruct (path_exists fs _); discriminate.
  - intros [= _ <-]. reflexivity.
Qed.

(** ** Spacing and limit of the returned list *)

Lemma load_highlights_from_events_nms fs events_path video_path cfg l :
  load_highlights_from_events fs events_path video_path cfg = Ok (Some l) ->
  exists candidates,
    l = nms_loop c_start (cfg_max_clips (detection cfg))
                 (cfg_min_between (detection cfg)) candidates [].
Proof.
  unfold load_highlights_from_events.
  destruct (negb (path_exists fs events_path)); [discriminate|].
  destruct (read_json fs events_path) as [[data| | |]|]; try discriminate.
  destruct (filter is_kill (events data)) as [|k ks]; [discriminate|].
  match goal with |- match ?f with _ => _ end = _ -> _ => destruct f as [kills|] end;
    [|discriminate].
  intros [= <-]. eauto.
Qed.

Lemma select_indexed_nms det cl duration combined l :
  select_indexed det cl duration combined = Ok l ->
  exists candidates,
    Permutation l (nms_loop (fun c : nat * candidate => c_start (snd c))
                            (cfg_max_clips det) (cfg_min_between det)
                            candidates []).
Proof.
  unfold select_indexed.
  destruct (np_percentile combined _) as [threshold|]; [|discriminate].
  intros [= <-]. eexists. apply sort_by_perm.
Qed.

Lemma selected_spaced_and_limited cfg l :
  returned_under cfg l ->
  spaced c_start (cfg_min_between (detection cfg)) l
  /\ ((0 <= cfg_max_clips (detection cfg))%Z ->
      (Z.of_nat (List.length l) <= cfg_max_clips (detection cfg))%Z).
Proof.
  assert (Hev : forall fs events_path video_path,
            load_highlights_from_events fs events_path video_path cfg
            = Ok (Some l) ->
            spaced c_start (cfg_min_between (detection cfg)) l
            /\ ((0 <= cfg_max_clips (detection cfg))%Z ->
                (Z.of_nat (List.length l) <= cfg_max_clips (detection cfg))%Z)).
  { intros fs ep vp H. apply load_highlights_from_events_nms in H as (cands & ->).
    split.
    - apply nms_loop_spaced. exact I.
    - intros Hmax. apply nms_loop_length. exact Hmax. }
  assert (Hsig : forall duration combined,
            select_peaks (detection cfg) (clip cfg) duration combined = Ok l ->
            spaced c_start (cfg_min_between (detection cfg)) l
            /\ ((0 <= cfg_max_clips (detection cfg))%Z ->
                (Z.of_nat (List.length l) <= cfg_max_clips (detection cfg))%Z)).
  { intros duration combined. unfold select_peaks.
    destruct (select_indexed _ _ duration combined) as [li|] eqn:E; [|discriminate].
    intros [= <-]. apply select_indexed_nms in E as (cands & Hp).
    split.
    - apply spaced_map. eapply spaced_perm; [symmetry; exact Hp|].
      apply nms_loop_spaced. exact I.
    - intros Hmax. rewrite List.length_map, (Permutation_length Hp).
      apply nms_loop_length. exact Hmax. }
  intros [(fs & ep & vp & H) | [(duration & combined & H) | (fs & m & vp & ef & t & H)]].
  - eapply Hev; eassumption.
  - eapply Hsig; eassumption.
  - unfold detect_highlights in H. unfold ret at 1 in H. rewrite bind_ok in H.
    cbn [app] in H.
    apply pair_equal_spec in H as [_ H].
    destruct (try_events fs vp cfg ef) as [t1 [[hl|]|e]] eqn:E.
    + rewrite bind_ok in H. cbn in H. injection H as ->.
      apply try_events_some in E as (E & _). eapply Hev; eassumption.
    + rewrite bind_ok in H. cbn [snd] in H.
      destruct (detect_signal fs m vp cfg) as [t2 r] eqn:E2. cbn [snd] in H. subst r.
      apply detect_signal_ok in E2 as (duration & combined & E2).
      eapply Hsig; eassumption.
    + rewrite bind_raise in H. discriminate.
Qed.

(** C2. In every list returned by the event selector, by the signal
    selector or by [detect_highlights], no two candidates at different
    positions have starts that differ by less than
    [min_seconds_between_clips] in absolute value, and the list is no longer
    than [max_clips_per_video] (a count: a non-negative integer). *)
Theorem nms_spacing_and_limit (cfg : config) (l : list candidate) :
  returned_under cfg l ->
  no_two_close c_start (cfg_min_between (detection cfg)) l
  /\ ((0 <= cfg_max_clips (detection cfg))%Z ->
      (Z.of_nat (List.length l) <= cfg_max_clips (detection cfg))%Z).
Proof.
  intros H. apply selected_spaced_and_limited in H as [Hs Hl].
  split; [apply spaced_no_two_close; exact Hs | exact Hl].
Qed.

Lemma nms_spacing_and_limit_witness :
  no_two_close c_start (cfg_min_between (detection empty_config))
               [mkCandidate 1 31 1 None]
  /\ ((0 <= cfg_max_clips (detection empty_config))%Z ->
      (Z.of_nat (List.length [mkCandidate 1 31 1 None])
       <= cfg_max_clips (detection empty_config))%Z).
Proof.
  apply (@nms_spacing_and_limit empty_config).
  right; left. exists 1000, two_peaks.
  vm_compute. reflexivity.
Defined.

(** ** Audio energy downsampling *)

Lemma py_int_nonneg x : 0 <= x -> py_int x = Qfloor x.
Proof.
  intros H. unfold py_int. destruct (Qltb_spec x 0) as [Hlt|_]; [|reflexivity].
  exfalso. exact (Qlt_not_le _ _ Hlt H).
Qed.

(** A window shorter than one hop has zero hops: the floor division
    raises. *)
Lemma compute_audio_energy_short_window rms window_seconds :
  0 <= window_seconds -> window_seconds < 1 # 2 ->
  compute_audio_energy rms window_seconds = Raise ZeroDivisionError.
Proof.
  intros Hpos Hlt. unfold compute_audio_energy.
  assert (H0 : 0 <= window_seconds * 2).
  { rewrite <- (Qmult_0_l 2). apply Qmult_le_compat_r; [assumption | discriminate]. }
  assert (H1 : window_seconds * 2 < 1).
  { setoid_replace 1 with ((1 # 2) * 2) by reflexivity.
    apply Qmult_lt_compat_r; [reflexivity | assumption]. }
  rewrite (py_int_nonneg H0).
  assert (E : Qfloor (window_seconds * 2) = 0%Z).
  { pose proof (Qfloor_le (window_seconds * 2)) as Hf.
    pose proof (Qlt_floor (window_seconds * 2)) as Hc.
    assert (Hlo : (0 <= Qfloor (window_seconds * 2))%Z).
    { change 0%Z with (Qfloor 0). apply Qfloor_resp_le. exact H0. }
    assert (Hhi : (Qfloor (window_seconds * 2) < 1)%Z).
    { rewrite Zlt_Qlt. eapply Qle_lt_trans; [exact Hf | exact H1]. }
    lia. }
  rewrite E. reflexivity.
Qed.

(** From half a second on, the downsampling returns, and returns
    [max(1, hop_count // hops_per_window)] values; when that is not below
    the hop count the hop-level series comes back as it is. *)
Lemma compute_audio_energy_length rms window_seconds :
  rms <> [] -> 1 # 2 <= window_seconds ->
  let hops_per_window := py_int (window_seconds * 2) in
  let n_windows := Z.max 1 (Z.of_nat (List.length rms) / hops_per_window) in
  exists out,
    compute_audio_energy rms window_seconds = Ok out
    /\ Z.of_nat (List.length out) = n_windows
    /\ ((n_windows >= Z.of_nat (List.length rms))%Z -> out = rms).
Proof.
  intros Hne Hws. cbv zeta. unfold compute_audio_energy.
  assert (H1 : 1 <= window_seconds * 2).
  { setoid_replace 1 with ((1 # 2) * 2) by reflexivity.
    apply Qmult_le_compat_r; [assumption | discriminate]. }
  assert (H0 : 0 <= window_seconds * 2).
  { eapply Qle_trans; [|exact H1]. discriminate. }
  rewrite (py_int_nonneg H0).
  assert (Hh : (1 <= Qfloor (window_seconds * 2))%Z).
  { change 1%Z with (Qfloor 1). apply Qfloor_resp_le. exact H1. }
  set (h := Qfloor (window_seconds * 2)) in *.
  assert (Hlen : (1 <= Z.of_nat (List.length rms))%Z).
  { destruct rms; [congruence | cbn [List.length]; lia]. }
  assert (Hdiv : (Z.of_nat (List.length rms) / h <= Z.of_nat (List.length rms))%Z).
  { apply Z.div_le_upper_bound; nia. }
  destruct (Z.eqb_spec h 0); [lia|].
  destruct (Z.geb_spec (Z.max 1 (Z.of_nat (List.length rms) / h))
                       (Z.of_nat (List.length rms))) as [Hge|Hlt].
  - exists rms. split; [reflexivity|]. split; [lia | reflexivity].
  - eexists. split; [reflexivity|]. split.
    + rewrite List.length_map, List.length_seq. lia.
    + lia.
Qed.

(** C8, at a window of a quarter of a second: [int(0.25 * 2)] is 0 and
    [len(rms) // 0] raises, where a series of [max(1, n_windows)] values is
    promised. *)
Theorem compute_audio_energy_quarter_second :
  compute_audio_energy [1; 2; 3] (1 # 4) = Raise ZeroDivisionError.
Proof. reflexivity. Qed.

Lemma compute_audio_energy_length_witness :
  exists out,
    compute_audio_energy [1; 2; 3; 4; 5; 6; 7; 8; 9] 2 = Ok out
    /\ Z.of_nat (List.length out) = 2%Z
    /\ ((2 >= 9)%Z -> out = [1; 2; 3; 4; 5; 6; 7; 8; 9]).
Proof.
  apply (@compute_audio_energy_length [1; 2; 3; 4; 5; 6; 7; 8; 9] 2);
    [discriminate | discriminate].
Defined.

(** ** Peak criteria *)

Lemma np_percentile_in_range a q :
  0 <= q -> q <= 100 -> a <> [] ->
  exists t, np_percentile a q = Ok (Some t).
Proof.
  intros H0 H100 Hne. unfold np_percentile.
  destruct (Qltb_spec q 0) as [H|_]; [exfalso; exact (Qlt_not_le _ _ H H0)|].
  destruct (Qltb_spec 100 q) as [H|_]; [exfalso; exact (Qlt_not_le _ _ H H100)|].
  cbn [orb]. destruct a as [|x a]; [congruence|].
  eexists. reflexivity.
Qed.

Lemma percentile_argument_in_range s :
  0 <= s -> s <= 1 -> 0 <= 100 - s * 40 /\ 100 - s * 40 <= 100.
Proof.
  intros H0 H1.
  assert (Hhi : s * 40 <= 40).
  { setoid_replace 40 with (1 * 40) at 2 by reflexivity.
    apply Qmult_le_compat_r; [assumption | discriminate]. }
  assert (Hlo : 0 <= s * 40).
  { rewrite <- (Qmult_0_l 40). apply Qmult_le_compat_r; [assumption | discriminate]. }
  split.
  - apply Qle_trans with (100 - 40); [discriminate|].
    apply Qplus_le_compat; [apply Qle_refl | apply Qopp_le_compat; exact Hhi].
  - apply Qle_trans with (100 - 0); [|discriminate].
    apply Qplus_le_compat; [apply Qle_refl | apply Qopp_le_compat; exact Hlo].
Qed.

(** The peak tests of the loop, as inequalities. *)
Lemma is_peak_iff det combined threshold i :
  is_peak det combined threshold i = true <->
  nth (i - 1) combined 0 <= nth i combined 0
  /\ nth (i + 1) combined 0 <= nth i combined 0
  /\ (forall t, threshold = Some t -> t <= nth i combined 0)
  /\ cfg_min_score det <= nth i combined 0
  /\ cfg_min_prominence det
     <= nth i combined 0 - qmin (nth (i - 1) combined 0) (nth (i + 1) combined 0).
Proof.
  unfold is_peak, below_threshold.
  set (score := nth i combined 0).
  set (left := nth (i - 1) combined 0).
  set (right := nth (i + 1) combined 0).
  destruct (Qltb_spec score left) as [H1|H1]; cbn [orb].
  { split; [discriminate|]. intros (H & _). exfalso. exact (Qlt_not_le _ _ H1 H). }
  destruct (Qltb_spec score right) as [H2|H2].
  { split; [discriminate|]. intros (_ & H & _). exfalso. exact (Qlt_not_le _ _ H2 H). }
  assert (Hthr : (match threshold with Some t => Qltb score t | None => false end) = false
                 <-> (forall t, threshold = Some t -> t <= score)).
  { destruct threshold as [t|].
    - rewrite Qltb_ge. split; [intros H t' [= <-]; exact H | intros H; apply H; reflexivity].
    - split; [intros _ t' [=] | reflexivity]. }
  destruct (match threshold with Some t => Qltb score t | None => false end); cbn [orb].
  { split; [discriminate|]. intros (_ & _ & H & _).
    apply Hthr in H. discriminate. }
  destruct (Qltb_spec score (cfg_min_score det)) as [H3|H3].
  { split; [discriminate|]. intros (_ & _ & _ & H & _). exfalso. exact (Qlt_not_le _ _ H3 H). }
  destruct (Qltb_spec (score - qmin left right) (cfg_min_prominence det)) as [H4|H4].
  { split; [discriminate|]. intros (_ & _ & _ & _ & H). exfalso. exact (Qlt_not_le _ _ H4 H). }
  split; [|reflexivity]. intros _.
  repeat split; try assumption. apply Hthr. reflexivity.
Qed.

(** C3. With a sensitivity in [0, 1] the threshold is the
    [100 - sensitivity * 40] percentile of the combined series (a number as
    soon as the series is not empty), and an index [i] is a peak exactly
    when it is interior ([1 <= i <= n - 2]), a non-strict local maximum, at
    least the threshold, at least [min_score], and at least
    [min_prominence] above the lower of its two neighbours. *)
Theorem peak_criteria (det : detection_cfg) (combined : list Q) (i : nat) :
  0 <= cfg_sensitivity det -> cfg_sensitivity det <= 1 ->
  (combined <> [] ->
   exists t, np_percentile combined (100 - cfg_sensitivity det * 40) = Ok (Some t))
  /\ forall threshold,
      (combined <> [] ->
       np_percentile combined (100 - cfg_sensitivity det * 40) = Ok threshold) ->
      (In i (peak_indices det combined threshold) <->
       (1 <= i)%nat /\ (i + 2 <= List.length combined)%nat
       /\ nth (i - 1) combined 0 <= nth i combined 0
       /\ nth (i + 1) combined 0 <= nth i combined 0
       /\ (exists t, threshold = Some t /\ t <= nth i combined 0)
       /\ cfg_min_score det <= nth i combined 0
       /\ cfg_min_prominence det
          <= nth i combined 0
             - qmin (nth (i - 1) combined 0) (nth (i + 1) combined 0)).
Proof.
  intros H0 H1.
  destruct (percentile_argument_in_range H0 H1) as [Hq0 Hq100].
  split.
  - intros Hne. exact (np_percentile_in_range Hq0 Hq100 Hne).
  - intros threshold Hthr.
    unfold peak_indices. rewrite filter_In, in_seq, is_peak_iff.
    split.
    + intros ((Hlo & Hhi) & Hl & Hr & Ht & Hm & Hpr).
      assert (Hne : combined <> []) by (intros ->; cbn in Hhi; lia).
      destruct (np_percentile_in_range Hq0 Hq100 Hne) as (t & Hp).
      assert (E : Some t = threshold) by (specialize (Hthr Hne); congruence).
      subst threshold.
      repeat split; try assumption; try lia.
      exists t. split; [reflexivity | apply Ht; reflexivity].
    + intros (Hlo & Hhi & Hl & Hr & (t & -> & Ht) & Hm & Hpr).
      repeat split; try assumption; try lia.
      intros t' [= <-]. exact Ht.
Qed.

Lemma peak_criteria_witness :
  (two_peaks <> [] ->
   exists t, np_percentile two_peaks
               (100 - cfg_sensitivity (detection empty_config) * 40) = Ok (Some t))
  /\ forall threshold,
      (two_peaks <> [] ->
       np_percentile two_peaks
         (100 - cfg_sensitivity (detection empty_config) * 40) = Ok threshold) ->
      (In 1%nat (peak_indices (detection empty_config) two_peaks threshold) <->
       (1 <= 1)%nat /\ (1 + 2 <= List.length two_peaks)%nat
       /\ nth (1 - 1) two_peaks 0 <= nth 1 two_peaks 0
       /\ nth (1 + 1) two_peaks 0 <= nth 1 two_peaks 0
       /\ (exists t, threshold = Some t /\ t <= nth 1 two_peaks 0)
       /\ cfg_min_score (detection empty_config) <= nth 1 two_peaks 0
       /\ cfg_min_prominence (detection empty_config)
          <= nth 1 two_peaks 0
             - qmin (nth (1 - 1) two_peaks 0) (nth (1 + 1) two_peaks 0)).
Proof.
  apply (@peak_criteria (detection empty_config) two_peaks 1%nat);
    vm_compute; discriminate.
Defined.

(** ** Rescaling the combined series *)

Section Rescaling.

Variable c : Q.
Hypothesis c_pos : 0 < c.

Lemma Qltb_scaled a' a b' b :
  a' == c * a -> b' == c * b -> Qltb a' b' = Qltb a b.
Proof.
  intros Ha Hb. rewrite Ha, Hb.
  destruct (Qltb_spec a b) as [H|H].
  - apply Qltb_lt. rewrite !(Qmult_comm c). apply Qmult_lt_compat_r; assumption.
  - apply Qltb_ge. rewrite !(Qmult_comm c).
    apply Qmult_le_compat_r; [assumption | apply Qlt_le_weak; assumption].
Qed.

Lemma qmin_scaled a' a b' b :
  a' == c * a -> b' == c * b -> qmin a' b' == c * qmin a b.
Proof.
  intros Ha Hb. unfold qmin. rewrite (Qltb_scaled Hb Ha).
  destruct (Qltb b a); assumption.
Qed.

Lemma scale_scaled s : Forall2 (scaled c) (scale c s) s.
Proof.
  unfold scale. apply Forall2_map_l. intros x _. unfold scaled. reflexivity.
Qed.

Lemma scaled_nth l1 l2 :
  Forall2 (scaled c) l1 l2 -> forall k, nth k l1 0 == c * nth k l2 0.
Proof.
  induction 1 as [|x y l1 l2 Hxy Hl IH]; intros k.
  - destruct k; cbn [nth]; rewrite Qmult_0_r; reflexivity.
  - destruct k; cbn [nth]; [exact Hxy | apply IH].
Qed.

Lemma sort_scaled l1 l2 :
  Forall2 (scaled c) l1 l2 -> Forall2 (scaled c) (sort_by Qltb l1) (sort_by Qltb l2).
Proof.
  apply sort_by_related. intros x1 x2 y1 y2 Hx Hy. apply Qltb_scaled; assumption.
Qed.

(** The percentile of the rescaled series is the rescaled percentile. *)
Lemma np_percentile_scale a q :
  threshold_scaled c (np_percentile (scale c a) q) (np_percentile a q).
Proof.
  unfold np_percentile.
  destruct (Qltb q 0 || Qltb 100 q); [reflexivity|].
  destruct a as [|x a]; [reflexivity|].
  change (scale c (x :: a)) with (c * x :: scale c a).
  cbn [threshold_scaled].
  assert (Hlen : List.length (c * x :: scale c a) = List.length (x :: a)).
  { cbn [List.length]. unfold scale. rewrite List.length_map. reflexivity. }
  rewrite Hlen.
  pose proof (sort_scaled (scale_scaled (x :: a))) as Hs.
  change (scale c (x :: a)) with (c * x :: scale c a) in Hs.
  rewrite (scaled_nth Hs), (scaled_nth Hs). ring.
Qed.

Variable det : detection_cfg.
Variable cl : clip_cfg.

Lemma is_peak_scale combined' combined t' t i :
  Forall2 (scaled c) combined' combined ->
  match t', t with
  | Some a', Some a => a' == c * a
  | None, None => True
  | _, _ => False
  end ->
  is_peak (scale_thresholds c det) combined' t' i = is_peak det combined t i.
Proof.
  intros Hc Ht. unfold is_peak.
  change (cfg_min_score (scale_thresholds c det)) with (c * cfg_min_score det).
  change (cfg_min_prominence (scale_thresholds c det)) with (c * cfg_min_prominence det).
  pose proof (scaled_nth Hc i) as Hi.
  pose proof (scaled_nth Hc (i - 1)) as Hl.
  pose proof (scaled_nth Hc (i + 1)) as Hr.
  rewrite (Qltb_scaled Hi Hl), (Qltb_scaled Hi Hr).
  assert (Hb : below_threshold (nth i combined' 0) t'
               = below_threshold (nth i combined 0) t).
  { unfold below_threshold. destruct t' as [a'|], t as [a|]; try contradiction.
    - apply Qltb_scaled; assumption.
    - reflexivity. }
  rewrite Hb.
  rewrite (@Qltb_scaled (nth i combined' 0) (nth i combined 0)
             (c * cfg_min_score det) (cfg_min_score det) Hi (Qeq_refl _)).
  assert (Hp : nth i combined' 0 - qmin (nth (i - 1) combined' 0) (nth (i + 1) combined' 0)
               == c * (nth i combined 0
                       - qmin (nth (i - 1) combined 0) (nth (i + 1) combined 0))).
  { rewrite (qmin_scaled Hl Hr), Hi. ring. }
  rewrite (@Qltb_scaled _ _ (c * cfg_min_prominence det) (cfg_min_prominence det)
             Hp (Qeq_refl _)).
  reflexivity.
Qed.

Lemma same_clip_fst l1 l2 : Forall2 (same_clip c) l1 l2 -> map fst l1 = map fst l2.
Proof.
  induction 1 as [|x y l1 l2 (E & _) _ IH]; cbn [map]; congruence.
Qed.

Lemma indexed_candidates_scale duration combined' combined t' t :
  Forall2 (scaled c) combined' combined ->
  match t', t with
  | Some a', Some a => a' == c * a
  | None, None => True
  | _, _ => False
  end ->
  Forall2 (same_clip c)
    (indexed_candidates (scale_thresholds c det) cl duration combined' t')
    (indexed_candidates det cl duration combined t).
Proof.
  intros Hc Ht. unfold indexed_candidates, peak_indices.
  rewrite (Forall2_length Hc).
  rewrite (filter_ext _ _ (fun i => @is_peak_scale _ _ _ _ i Hc Ht)).
  induction (filter (is_peak det combined t) (seq 1 (List.length combined - 2)))
    as [|i l IH]; cbn [flat_map]; [constructor|].
  apply Forall2_app; [|exact IH].
  unfold clip_window.
  change (cfg_window_sec (scale_thresholds c det)) with (cfg_window_sec det).
  destruct (Qle_bool _ _); constructor; [|constructor].
  repeat split. cbn [snd c_score]. apply scaled_nth. exact Hc.
Qed.

Lemma too_close_same_clip mb x y s1 s2 :
  same_clip c x y -> Forall2 (same_clip c) s1 s2 ->
  too_close (fun p : nat * candidate => c_start (snd p)) mb x s1
  = too_close (fun p : nat * candidate => c_start (snd p)) mb y s2.
Proof.
  intros (_ & Ex & _) Hs. unfold too_close.
  induction Hs as [|a b s1 s2 (_ & Eab & _) _ IH]; cbn [existsb]; [reflexivity|].
  rewrite IH, Ex, Eab. reflexivity.
Qed.

Lemma nms_loop_same_clip max_clips mb c1 c2 :
  Forall2 (same_clip c) c1 c2 -> forall s1 s2,
  Forall2 (same_clip c) s1 s2 ->
  Forall2 (same_clip c)
    (nms_loop (fun p : nat * candidate => c_start (snd p)) max_clips mb c1 s1)
    (nms_loop (fun p : nat * candidate => c_start (snd p)) max_clips mb c2 s2).
Proof.
  induction 1 as [|x y c1 c2 Hxy Hc IH]; intros s1 s2 Hs; cbn [nms_loop];
    [exact Hs|].
  rewrite (Forall2_length Hs).
  destruct (Z.of_nat (List.length s2) >=? max_clips)%Z; [exact Hs|].
  rewrite (too_close_same_clip mb Hxy Hs).
  destruct (too_close _ mb y s2); apply IH; [exact Hs|].
  apply Forall2_app; [exact Hs | constructor; [exact Hxy | constructor]].
Qed.

Lemma select_indexed_scale duration combined :
  match select_indexed (scale_thresholds c det) cl duration (scale c combined),
        select_indexed det cl duration combined with
  | Ok l', Ok l => Forall2 (same_clip c) l' l
  | Raise e', Raise e => e' = e
  | _, _ => False
  end.
Proof.
  unfold select_indexed.
  change (cfg_sensitivity (scale_thresholds c det)) with (cfg_sensitivity det).
  change (cfg_max_clips (scale_thresholds c det)) with (cfg_max_clips det).
  change (cfg_min_between (scale_thresholds c det)) with (cfg_min_between det).
  pose proof (np_percentile_scale combined (100 - cfg_sensitivity det * 40)) as Hp.
  unfold threshold_scaled in Hp.
  destruct (np_percentile (scale c combined) _) as [t'|e'],
           (np_percentile combined _) as [t|e]; try contradiction.
  - apply sort_by_related.
    { intros x1 x2 y1 y2 (_ & Ex & _) (_ & Ey & _).
      unfold by_start_asc. rewrite Ex, Ey. reflexivity. }
    apply nms_loop_same_clip; [|constructor].
    apply sort_by_related.
    { intros x1 x2 y1 y2 (_ & _ & _ & Ex) (_ & _ & _ & Ey).
      unfold by_score_desc. apply Qltb_scaled; assumption. }
    apply indexed_candidates_scale; [apply scale_scaled|].
    destruct t' as [a'|], t as [a|]; try contradiction; assumption.
  - destruct t' as [[]|]; contradiction.
  - exact Hp.
Qed.

Lemma selected_indices_scale duration combined :
  selected_indices (scale_thresholds c det) cl duration (scale c combined)
  = selected_indices det cl duration combined.
Proof.
  unfold selected_indices.
  pose proof (select_indexed_scale duration combined) as H.
  destruct (select_indexed (scale_thresholds c det) cl duration (scale c combined)),
           (select_indexed det cl duration combined); try contradiction.
  - f_equal. apply same_clip_fst. exact H.
  - congruence.
Qed.

End Rescaling.

(** C7, as stated: with [min_score] and [min_prominence] left as they are,
    halving the series [0, 1, 0] takes its peak below [min_score], and the
    selection changes. *)
Lemma rescaled_series_selects_differently :
  selected_indices (detection empty_config) (clip empty_config) 1000 one_peak
  = Ok [1%nat]
  /\ selected_indices (detection empty_config) (clip empty_config) 1000
                      (scale (1 # 2) one_peak)
     = Ok [].
Proof. split; reflexivity. Qed.

(** C7, amended.  Rescaling the combined series by a positive constant
    [c] selects the same indices when [min_score] and [min_prominence] are
    rescaled by [c] with it (the percentile threshold rescales by itself);
    rescaling [min_prominence] on its own does change the selection. *)
Theorem peak_selection_scale_coupling :
  (forall c det cl duration combined,
      0 < c ->
      selected_indices (scale_thresholds c det) cl duration (scale c combined)
      = selected_indices det cl duration combined)
  /\ (exists c det cl duration combined,
         0 < c
         /\ selected_indices (scale_min_prominence c det) cl duration combined
            <> selected_indices det cl duration combined).
Proof.
  split.
  - intros c det cl duration combined Hc. apply selected_indices_scale. exact Hc.
  - exists 10, (detection empty_config), (clip empty_config), 1000, one_peak.
    split; [reflexivity|]. vm_compute. discriminate.
Qed.

Lemma peak_selection_scale_coupling_witness :
  selected_indices (scale_thresholds (1 # 2) (detection empty_config))
                   (clip empty_config) 1000 (scale (1 # 2) two_peaks)
  = selected_indices (detection empty_config) (clip empty_config) 1000 two_peaks.
Proof.
  apply (proj1 peak_selection_scale_coupling). reflexivity.
Defined.

(** ** Event highlight selector *)

Lemma str_or_empty (a : option string) :
  get_or (Str.str_or a (Some EmptyString)) EmptyString = get_or a EmptyString.
Proof.
  destruct a as [s|]; [|reflexivity]. unfold Str.str_or.
  destruct (String.eqb_spec s EmptyString) as [->|]; reflexivity.
Qed.

Lemma filter_none {A} (f : A -> bool) (l : list A) :
  (forall x, In x l -> f x = false) -> filter f l = [].
Proof.
  induction l as [|a l IH]; cbn [filter]; intros H; [reflexivity|].
  rewrite (H a (or_introl eq_refl)). apply IH. intros x Hx. apply H. right. exact Hx.
Qed.

(** What a returned list is made of. *)
Lemma load_highlights_from_events_inv fs events_path video_path cfg l :
  load_highlights_from_events fs events_path video_path cfg = Ok (Some l) ->
  exists data kills,
    read_json fs events_path = Some (Log data)
    /\ kills <> []
    /\ incl kills (filter is_kill (events data))
    /\ l = nms_loop c_start (cfg_max_clips (detection cfg))
                    (cfg_min_between (detection cfg))
                    (sort_by by_start
                       (map (event_candidate data
                               (get_or (getctime fs video_path) 0)
                               (get_or (recording_start_offset (game_events cfg)) 0)
                               (cfg_padding_before (clip cfg))
                               (cfg_clip_duration (clip cfg)))
                            kills))
                    [].
Proof.
  unfold load_highlights_from_events.
  destruct (negb (path_exists fs events_path)); [discriminate|].
  destruct (read_json fs events_path) as [[data| | |]|]; try discriminate.
  destruct (filter is_kill (events data)) as [|k ks] eqn:Hk; [discriminate|].
  destruct (truthy (filter_my_kills_only (game_events cfg)) false).
  - destruct (String.eqb _ EmptyString).
    + intros [= <-]. exists data, (k :: ks).
      repeat split; [discriminate | rewrite Hk; apply incl_refl].
    + destruct (filter _ (k :: ks)) as [|k' ks'] eqn:Hf; [discriminate|].
      intros [= <-]. exists data, (k' :: ks').
      repeat split; [discriminate|].
      rewrite Hk, <- Hf. intros x Hx. apply filter_In in Hx. tauto.
  - intros [= <-]. exists data, (k :: ks).
    repeat split; [discriminate | rewrite Hk; apply incl_refl].
Qed.

Lemma no_usable_events_none fs events_path video_path cfg :
  no_usable_events fs events_path cfg ->
  load_highlights_from_events fs events_path video_path cfg = Ok None.
Proof.
  unfold load_highlights_from_events.
  intros [H | [H | [(log & H & Hk)
                   | (log & name & H & (Hf & Hn & Hne) & _ & Hk)]]].
  - rewrite H. reflexivity.
  - destruct (negb (path_exists fs events_path)); [reflexivity|]. rewrite H. reflexivity.
  - destruct (negb (path_exists fs events_path)); [reflexivity|]. rewrite H, Hk. reflexivity.
  - destruct (negb (path_exists fs events_path)); [reflexivity|]. rewrite H.
    destruct (filter is_kill (events log)) as [|k ks] eqn:E; [reflexivity|].
    rewrite Hf, Hn. cbn [truthy get_or]. rewrite str_or_empty. cbn [get_or].
    destruct (String.eqb_spec (Str.lower (Str.strip name)) EmptyString) as [E0|_];
      [contradiction|].
    rewrite filter_none; [reflexivity|].
    intros x Hx. apply String.eqb_neq. apply Hk.
    + assert (Hin : In x (filter is_kill (events log))) by (rewrite E; exact Hx).
      apply filter_In in Hin. tauto.
    + assert (Hin : In x (filter is_kill (events log))) by (rewrite E; exact Hx).
      apply filter_In in Hin. tauto.
Qed.

(** ** Orchestrator *)

Lemma detect_highlights_unfold fs m video_path cfg events_file :
  detect_highlights fs m video_path (Some cfg) events_file
  = bind (try_events fs video_path cfg events_file)
         (fun highlights => match highlights with
                            | Some hl => ret hl
                            | None => detect_signal fs m video_path cfg
                            end).
Proof.
  unfold detect_highlights, ret. rewrite bind_ok. cbn [app].
  symmetry. apply surjective_pairing.
Qed.

Lemma try_events_none_falls_back fs m video_path cfg events_file msgs :
  try_events fs video_path cfg events_file = (msgs, Ok None) ->
  forallb (fun a => negb (is_media_action a)) msgs = true ->
  falls_back_to_signal fs m video_path cfg events_file.
Proof.
  intros H Hm. exists msgs. split; [exact Hm|].
  rewrite detect_highlights_unfold, H, bind_ok. reflexivity.
Qed.

Ltac fall_back_with msgs :=
  exists msgs; split;
  [reflexivity
  |unfold emit, ret; repeat (rewrite bind_ok; cbn beta iota; cbn [fst snd app]);
   reflexivity].

Lemma no_events_falls_back fs m video_path cfg events_file :
  match load_highlights_from_events fs
          (resolve_events_path fs video_path cfg events_file) video_path cfg with
  | Ok (Some (_ :: _)) => False
  | Ok _ => True
  | Raise _ => False
  end ->
  falls_back_to_signal fs m video_path cfg events_file.
Proof.
  intros H. unfold falls_back_to_signal.
  rewrite detect_highlights_unfold. unfold try_events.
  destruct (truthy (ge_enabled (game_events cfg)) true); [|fall_back_with (@nil action)].
  destruct (truthy (prefer_events_over_ai (game_events cfg)) true);
    [|fall_back_with (@nil action)].
  destruct (load_highlights_from_events fs _ video_path cfg) as [[[|c cs]|]|e];
    try contradiction; unfold lift; rewrite bind_ok; cbn [app];
    destruct (path_exists fs _);
    (fall_back_with [Print "  Events file found but no matching kills (check filter_my_kills_only / player_summoner_name)"]
     || fall_back_with [Print "  No game_events.json found - using AI detection"]).
Qed.

Lemma events_disabled_falls_back fs m video_path cfg events_file :
  truthy (ge_enabled (game_events cfg)) true = false
  \/ truthy (prefer_events_over_ai (game_events cfg)) true = false ->
  falls_back_to_signal fs m video_path cfg events_file.
Proof.
  intros H. apply try_events_none_falls_back with (msgs := []); [|reflexivity].
  unfold try_events. destruct H as [-> | ->]; [reflexivity|].
  destruct (truthy (ge_enabled (game_events cfg)) true); reflexivity.
Qed.

Lemma events_preferred_short_circuit fs m video_path cfg events_file c cs :
  truthy (ge_enabled (game_events cfg)) true = true ->
  truthy (prefer_events_over_ai (game_events cfg)) true = true ->
  load_highlights_from_events fs
    (resolve_events_path fs video_path cfg events_file) video_path cfg
  = Ok (Some (c :: cs)) ->
  detect_highlights fs m video_path (Some cfg) events_file
  = ([Print "  Using game events (kill timestamps from Live Client Data API)"],
     Ok (c :: cs)).
Proof.
  intros He Hp Hl. rewrite detect_highlights_unfold.
  unfold try_events. rewrite He, Hp, Hl. reflexivity.
Qed.

(** An exception of the event selector is not caught: the run ends with
    it, before any line is printed and before the video is looked at. *)
Lemma events_raise_is_fatal fs m video_path cfg events_file e :
  truthy (ge_enabled (game_events cfg)) true = true ->
  truthy (prefer_events_over_ai (game_events cfg)) true = true ->
  load_highlights_from_events fs
    (resolve_events_path fs video_path cfg events_file) video_path cfg
  = Raise e ->
  detect_highlights fs m video_path (Some cfg) events_file = ([], Raise e).
Proof.
  intros He Hp Hl. rewrite detect_highlights_unfold.
  unfold try_events. rewrite He, Hp, Hl. reflexivity.
Qed.




(** The signal pipeline may find nothing: with [min_score] at 2 no value of
    a combined series of normalised scores qualifies. *)
Example signal_pipeline_may_be_empty :
  snd (detect_signal example_fs example_media "game.mp4"
         (mkConfig (mkDetection None None None (Some 2) None None None None)
                   (clip empty_config) (game_events empty_config) None))
  = Ok [].
Proof. vm_compute. reflexivity. Qed.

(** Under each event-log condition of the specification (no file, JSON
    that does not parse, a log with no kill event, a log with no kill by
    the configured player) the event selector returns [None], not an empty
    list and not an error, and [detect_highlights] goes on with the signal
    pipeline. *)
Lemma event_log_conditions_fall_back
  (fs : filesystem) (events_path video_path : string) (cfg : config) :
  no_usable_events fs events_path cfg ->
  load_highlights_from_events fs events_path video_path cfg = Ok None
  /\ forall m events_file,
       resolve_events_path fs video_path cfg events_file = events_path ->
       falls_back_to_signal fs m video_path cfg events_file.
Proof.
  intros H. pose proof (no_usable_events_none video_path H) as Hn.
  split; [exact Hn|].
  intros m events_file <-. apply no_events_falls_back. rewrite Hn. exact I.
Qed.

Example missing_event_log_falls_back :
  load_highlights_from_events missing_fs "game_events.json" "game.mp4" empty_config
  = Ok None
  /\ forall m events_file,
       resolve_events_path missing_fs "game.mp4" empty_config events_file
       = "game_events.json"%string ->
       falls_back_to_signal missing_fs m "game.mp4" empty_config events_file.
Proof.
  apply (@event_log_conditions_fall_back missing_fs "game_events.json" "game.mp4"
           empty_config).
  left. reflexivity.
Qed.

(** C6, at an events file that parses but does not hold a log (a JSON list
    or [null]; an object whose ["events"] is [null], or holds a number):
    the two lines that look for the kills are outside the [try], so the
    event selector raises [AttributeError] or [TypeError], where "no usable
    events" is promised; [detect_highlights] does not fall back to the
    signal pipeline, it ends with the exception before it prints a line or
    looks at the video. *)
Theorem unexpected_event_log_is_fatal
  (fs : filesystem) (m : media) (video_path : string) (cfg : config)
  (events_file : option string) (doc : json_doc) :
  truthy (ge_enabled (game_events cfg)) true = true ->
  truthy (prefer_events_over_ai (game_events cfg)) true = true ->
  path_exists fs (resolve_events_path fs video_path cfg events_file) = true ->
  read_json fs (resolve_events_path fs video_path cfg events_file) = Some doc ->
  (forall log, doc <> Log log) ->
  exists e,
    (e = AttributeError \/ e = TypeError)
    /\ load_highlights_from_events fs
         (resolve_events_path fs video_path cfg events_file) video_path cfg
       = Raise e
    /\ detect_highlights fs m video_path (Some cfg) events_file
       = ([], Raise e).
Proof.
  intros He Hp Hex Hdoc Hlog.
  assert (H : exists e,
             (e = AttributeError \/ e = TypeError)
             /\ load_highlights_from_events fs
                  (resolve_events_path fs video_path cfg events_file)
                  video_path cfg
                = Raise e).
  { unfold load_highlights_from_events. rewrite Hex, Hdoc. cbn [negb].
    destruct doc as [log| | |].
    - exfalso. exact (Hlog log eq_refl).
    - exists AttributeError. split; [left|]; reflexivity.
    - exists TypeError. split; [right|]; reflexivity.
    - exists AttributeError. split; [left|]; reflexivity. }
  destruct H as (e & Hcls & Hl). exists e. split; [exact Hcls|].
  split; [exact Hl|]. apply events_raise_is_fatal; assumption.
Qed.

Lemma unexpected_event_log_is_fatal_witness :
  exists e,
    (e = AttributeError \/ e = TypeError)
    /\ load_highlights_from_events (fs_with_doc NotAnObject 0)
         (resolve_events_path (fs_with_doc NotAnObject 0) "game.mp4"
                              empty_config None)
         "game.mp4" empty_config
       = Raise e
    /\ detect_highlights (fs_with_doc NotAnObject 0) example_media "game.mp4"
                         (Some empty_config) None
       = ([], Raise e).
Proof.
  apply (@unexpected_event_log_is_fatal (fs_with_doc NotAnObject 0)
           example_media "game.mp4" empty_config None NotAnObject);
    [reflexivity | reflexivity | reflexivity | reflexivity | discriminate].
Defined.

(** ** Clip windows of the two paths *)

Lemma select_indexed_In det cl duration combined l x :
  select_indexed det cl duration combined = Ok l -> In x l ->
  exists threshold, In x (indexed_candidates det cl duration combined threshold).
Proof.
  unfold select_indexed.
  destruct (np_percentile combined _) as [threshold|]; [|discriminate].
  intros [= <-] Hx. exists threshold.
  apply sort_by_In in Hx. apply nms_loop_incl in Hx as [[]|Hx].
  apply sort_by_In in Hx. exact Hx.
Qed.

Lemma indexed_candidates_In det cl duration combined threshold i c :
  In (i, c) (indexed_candidates det cl duration combined threshold) ->
  In i (peak_indices det combined threshold)
  /\ clip_window det cl duration combined i = Some c.
Proof.
  unfold indexed_candidates. rewrite in_flat_map. intros (j & Hj & Hc).
  destruct (clip_window det cl duration combined j) as [c'|] eqn:E; [|destruct Hc].
  destruct Hc as [[= <- <-]|[]]. split; assumption.
Qed.

Lemma clip_window_end det cl duration combined i c :
  clip_window det cl duration combined i = Some c -> c_end c <= duration.
Proof.
  unfold clip_window. destruct (Qle_bool _ _); [|discriminate].
  intros [= <-]. cbn [c_end]. apply qmin_le_l.
Qed.

Lemma select_peaks_end det cl duration combined l c :
  select_peaks det cl duration combined = Ok l -> In c l -> c_end c <= duration.
Proof.
  unfold select_peaks.
  destruct (select_indexed det cl duration combined) as [li|] eqn:E; [|discriminate].
  intros [= <-] Hc. apply in_map_iff in Hc as ([i c'] & <- & Hin).
  eapply select_indexed_In in Hin as (threshold & Hx); [|exact E].
  apply indexed_candidates_In in Hx as [_ Hw].
  eapply clip_window_end. exact Hw.
Qed.

Lemma load_highlights_from_events_In fs events_path video_path cfg l c :
  load_highlights_from_events fs events_path video_path cfg = Ok (Some l) ->
  In c l ->
  exists data k,
    read_json fs events_path = Some (Log data)
    /\ In k (events data) /\ is_kill k = true
    /\ c = event_candidate data (get_or (getctime fs video_path) 0)
             (get_or (recording_start_offset (game_events cfg)) 0)
             (cfg_padding_before (clip cfg)) (cfg_clip_duration (clip cfg)) k.
Proof.
  intros H Hc.
  apply load_highlights_from_events_inv in H as (data & kills & Hj & _ & Hk & ->).
  apply nms_loop_incl in Hc as [[]|Hc]. apply sort_by_In in Hc.
  apply in_map_iff in Hc as (k & <- & Hin).
  apply Hk in Hin. apply filter_In in Hin as [Hin Hkill].
  exists data, k. auto.
Qed.

(** A candidate past any given duration. *)
Lemma event_candidate_past_duration (duration : Q) :
  let log := one_kill_log (qmax 0 duration + 4) in
  let c := event_candidate log 0 0 3 30
             (mkEvent (Some "ChampionKill"%string) (Some (qmax 0 duration + 4))
                      None None None None) in
  load_highlights_from_events (fs_with_log log 0) "game_events.json" "game.mp4"
                              empty_config = Ok (Some [c])
  /\ duration < c_start c /\ duration < c_end c.
Proof.
  cbv zeta. split; [reflexivity|].
  cbn [event_candidate ev_wall_clock c_start c_end].
  assert (H : duration < qmax 0 (qmax 0 duration + 4 - 0 + 0 - 3)).
  { eapply Qlt_le_trans; [|apply qmax_ge_r].
    apply Qle_lt_trans with (qmax 0 duration); [apply qmax_ge_r|].
    setoid_replace (qmax 0 duration + 4 - 0 + 0 - 3) with (qmax 0 duration + 1) by ring.
    rewrite <- (Qplus_0_r (qmax 0 duration)) at 1.
    apply Qplus_lt_r. reflexivity. }
  split; [exact H|].
  eapply Qlt_le_trans; [exact H|].
  rewrite <- (Qplus_0_r (qmax 0 _)) at 1.
  apply Qplus_le_r. discriminate.
Qed.

(** C10. Every candidate of the event path ends exactly [clip_duration]
    after its start, and starts at 0 or later; the signal path never lets a
    candidate end after the duration of the video, but the event path does
    not look at the duration: whatever it is, some event log gives a
    candidate that starts, and ends, after it. *)
Theorem event_candidates_not_clamped :
  (forall fs events_path video_path cfg l c,
      load_highlights_from_events fs events_path video_path cfg = Ok (Some l) ->
      In c l ->
      c_end c = c_start c + cfg_clip_duration (clip cfg) /\ 0 <= c_start c)
  /\ (forall det cl duration combined l c,
         select_peaks det cl duration combined = Ok l -> In c l ->
         c_end c <= duration)
  /\ (forall duration,
         exists fs events_path video_path cfg l c,
           load_highlights_from_events fs events_path video_path cfg
           = Ok (Some l)
           /\ In c l /\ duration < c_start c /\ duration < c_end c).
Proof.
  split; [|split].
  - intros fs ep vp cfg l c H Hc.
    eapply load_highlights_from_events_In in Hc as (data & k & _ & _ & _ & ->);
      [|exact H].
    cbn [event_candidate c_start c_end]. split; [reflexivity | apply qmax_ge_l].
  - intros det cl duration combined l c H Hc. eapply select_peaks_end; eassumption.
  - intros duration.
    destruct (event_candidate_past_duration duration) as (H & Hs & He).
    do 6 eexists. split; [exact H|]. split; [left; reflexivity|]. split; assumption.
Qed.

Lemma event_candidates_not_clamped_witness :
  c_end (mkCandidate 7 37 1 (Some "game_events"%string))
  = c_start (mkCandidate 7 37 1 (Some "game_events"%string))
    + cfg_clip_duration (clip empty_config)
  /\ 0 <= c_start (mkCandidate 7 37 1 (Some "game_events"%string)).
Proof.
  apply (proj1 event_candidates_not_clamped example_fs "game_events.json"%string
               "game.mp4"%string empty_config
               [mkCandidate 7 37 1 (Some "game_events"%string)]).
  - vm_compute. reflexivity.
  - left. reflexivity.
Defined.

(** ** Three kills, 130 seconds apart *)

Lemma perm3 {A} (a b c : A) (l : list A) :
  Permutation l [a; b; c] ->
  l = [a; b; c] \/ l = [a; c; b] \/ l = [b; a; c]
  \/ l = [b; c; a] \/ l = [c; a; b] \/ l = [c; b; a].
Proof.
  intros H. pose proof (Permutation_length H) as Hlen.
  destruct l as [|x [|y [|z [|? ?]]]]; try discriminate Hlen.
  assert (Hx : In x [a; b; c]) by (eapply Permutation_in; [exact H | left; reflexivity]).
  destruct Hx as [<-|[<-|[<-|[]]]].
  - apply Permutation_cons_inv in H.
    apply Permutation_length_2_inv in H as [[= -> ->]|[= -> ->]]; auto.
  - apply (@Permutation_cons_app_inv _ [y; z] [a] [c] b) in H.
    apply Permutation_length_2_inv in H as [[= -> ->]|[= -> ->]]; auto 6.
  - apply (@Permutation_cons_app_inv _ [y; z] [a; b] [] c) in H.
    apply Permutation_length_2_inv in H as [[= -> ->]|[= -> ->]]; auto 7.
Qed.

Lemma by_start_lt x y sx sy :
  c_start x == sx -> c_start y == sy -> sx < sy -> by_start x y = true.
Proof. intros Hx Hy H. unfold by_start. rewrite Hx, Hy. apply Qltb_lt. exact H. Qed.

Lemma by_start_ge x y sx sy :
  c_start x == sx -> c_start y == sy -> sy <= sx -> by_start x y = false.
Proof. intros Hx Hy H. unfold by_start. rewrite Hx, Hy. apply Qltb_ge. exact H. Qed.

Lemma not_too_close x y sx sy mb lim :
  c_start x == sx -> c_start y == sy -> mb == lim -> lim <= Qabs (sx - sy) ->
  Qltb (Qabs (c_start x - c_start y)) mb = false.
Proof. intros Hx Hy Hm H. rewrite Hx, Hy, Hm. apply Qltb_ge. exact H. Qed.

Section ThreeKills.

Variables a b c : candidate.
Hypothesis start_a : c_start a == 2.
Hypothesis start_b : c_start b == 132.
Hypothesis start_c : c_start c == 262.

Ltac order_by_start :=
  repeat match goal with
    | |- context [by_start ?x ?y] =>
        first [ rewrite (@by_start_lt x y _ _ ltac:(eassumption) ltac:(eassumption)
                           eq_refl)
              | rewrite (@by_start_ge x y _ _ ltac:(eassumption) ltac:(eassumption))
                  by discriminate ]
    end.

Lemma sort_three l :
  Permutation l [a; b; c] -> sort_by by_start l = [a; b; c].
Proof.
  intros H.
  destruct (perm3 H) as [-> | [-> | [-> | [-> | [-> | ->]]]]];
    unfold sort_by;
    repeat (progress (cbn [fold_right insert_by]; order_by_start));
    reflexivity.
Qed.

Lemma nms_three mb max_clips :
  mb == 120 -> (3 <= max_clips)%Z ->
  nms_loop c_start max_clips mb [a; b; c] [] = [a; b; c].
Proof.
  intros Hmb Hmax.
  assert (L : forall n, (n < 3)%nat -> (Z.of_nat n >=? max_clips)%Z = false).
  { intros n Hn. destruct (Z.geb_spec (Z.of_nat n) max_clips); [lia | reflexivity]. }
  cbn [nms_loop too_close existsb List.length app].
  rewrite (L 0%nat) by lia.
  cbn [nms_loop too_close existsb List.length app].
  rewrite (L 1%nat) by lia.
  rewrite (@not_too_close b a _ _ _ _ start_b start_a Hmb) by discriminate.
  cbn [orb nms_loop too_close existsb List.length app].
  rewrite (L 2%nat) by lia.
  rewrite (@not_too_close c a _ _ _ _ start_c start_a Hmb) by discriminate.
  rewrite (@not_too_close c b _ _ _ _ start_c start_b Hmb) by discriminate.
  reflexivity.
Qed.

End ThreeKills.

Lemma event_candidate_start log created offset padding duration k w s :
  ev_wall_clock k = Some w ->
  w - created + offset - padding == s -> 0 < s ->
  c_start (event_candidate log created offset padding duration k) == s.
Proof.
  intros Hw Hs Hpos. unfold event_candidate. rewrite Hw. cbn [c_start].
  unfold qmax.
  assert (E : Qltb 0 (w - created + offset - padding) = true).
  { apply Qltb_lt. rewrite Hs. exact Hpos. }
  rewrite E. exact Hs.
Qed.

(** C4. Kills logged at wall-clock times [T0], [T0 + 130] and [T0 + 260]
    (in any order in the log, among events of other types), a recording
    created at [T0 - 5], no offset, 3 seconds of padding, clips of 30
    seconds, 120 seconds between clips and room for at least 3 clips: the
    event selector returns exactly three candidates, starting at 2, 132 and
    262 seconds in this order, each ending 30 seconds after its start, each
    with score 1. *)
Theorem three_kills_three_clips
  (fs : filesystem) (events_path video_path : string) (cfg : config)
  (log : event_log) (T0 w1 w2 w3 created : Q) :
  path_exists fs events_path = true ->
  read_json fs events_path = Some (Log log) ->
  Permutation (map ev_wall_clock (filter is_kill (events log)))
              [Some w1; Some w2; Some w3] ->
  w1 == T0 -> w2 == T0 + 130 -> w3 == T0 + 260 ->
  getctime fs video_path = Some created -> created == T0 - 5 ->
  truthy (filter_my_kills_only (game_events cfg)) false = false ->
  get_or (recording_start_offset (game_events cfg)) 0 == 0 ->
  cfg_padding_before (clip cfg) == 3 ->
  cfg_clip_duration (clip cfg) == 30 ->
  cfg_min_between (detection cfg) == 120 ->
  (3 <= cfg_max_clips (detection cfg))%Z ->
  exists c1 c2 c3,
    load_highlights_from_events fs events_path video_path cfg
    = Ok (Some [c1; c2; c3])
    /\ (c_start c1 == 2 /\ c_end c1 == c_start c1 + 30 /\ c_score c1 == 1)
    /\ (c_start c2 == 132 /\ c_end c2 == c_start c2 + 30 /\ c_score c2 == 1)
    /\ (c_start c3 == 262 /\ c_end c3 == c_start c3 + 30 /\ c_score c3 == 1).
Proof.
  intros Hex Hjson Hperm Hw1 Hw2 Hw3 Hct Hcreated Hfilter Hoff Hpad Hdur Hmb Hmax.
  symmetry in Hperm. apply Permutation_map_inv in Hperm as (ks & Hks & Hp).
  destruct ks as [|k1 [|k2 [|k3 [|? ?]]]]; try discriminate Hks.
  injection Hks as E1 E2 E3. symmetry in E1, E2, E3.
  set (ec := event_candidate log (get_or (getctime fs video_path) 0)
               (get_or (recording_start_offset (game_events cfg)) 0)
               (cfg_padding_before (clip cfg)) (cfg_clip_duration (clip cfg))).
  assert (S1 : c_start (ec k1) == 2).
  { apply event_candidate_start with (w := w1); [exact E1 | | reflexivity].
    rewrite Hct. cbn [get_or]. rewrite Hw1, Hcreated, Hoff, Hpad. ring. }
  assert (S2 : c_start (ec k2) == 132).
  { apply event_candidate_start with (w := w2); [exact E2 | | reflexivity].
    rewrite Hct. cbn [get_or]. rewrite Hw2, Hcreated, Hoff, Hpad. ring. }
  assert (S3 : c_start (ec k3) == 262).
  { apply event_candidate_start with (w := w3); [exact E3 | | reflexivity].
    rewrite Hct. cbn [get_or]. rewrite Hw3, Hcreated, Hoff, Hpad. ring. }
  exists (ec k1), (ec k2), (ec k3). split.
  - unfold load_highlights_from_events. rewrite Hex, Hjson. cbn [negb].
    destruct (filter is_kill (events log)) as [|k ks] eqn:Ek.
    { apply Permutation_nil in Hp. discriminate Hp. }
    rewrite Hfilter. fold ec.
    rewrite (@sort_three (ec k1) (ec k2) (ec k3) S1 S2 S3)
      by (change [ec k1; ec k2; ec k3] with (map ec [k1; k2; k3]);
          apply Permutation_map; exact Hp).
    rewrite (@nms_three (ec k1) (ec k2) (ec k3) S1 S2 S3 _ _ Hmb Hmax).
    reflexivity.
  - repeat split; try assumption; try reflexivity;
      unfold ec, event_candidate; cbn [c_start c_end]; rewrite Hdur; reflexivity.
Qed.

Lemma three_kills_three_clips_witness :
  exists c1 c2 c3,
    load_highlights_from_events (fs_with_log three_kills_log 995)
      "game_events.json" "game.mp4" empty_config = Ok (Some [c1; c2; c3])
    /\ (c_start c1 == 2 /\ c_end c1 == c_start c1 + 30 /\ c_score c1 == 1)
    /\ (c_start c2 == 132 /\ c_end c2 == c_start c2 + 30 /\ c_score c2 == 1)
    /\ (c_start c3 == 262 /\ c_end c3 == c_start c3 + 30 /\ c_score c3 == 1).
Proof.
  apply (@three_kills_three_clips (fs_with_log three_kills_log 995)
           "game_events.json" "game.mp4" empty_config three_kills_log
           1000 1000 1130 1260 995);
    try reflexivity.
  - apply perm_swap.
  - vm_compute. discriminate.
Defined.

(** The killer-name filter compares names after [strip] and [lower]: with
    the player name written " AHRI " the two kills by "Ahri" are kept; with
    a name nobody in the log has, the selector returns [None]. *)
Example killer_filter_ignores_case :
  let by_player name :=
    mkConfig (detection empty_config) (clip empty_config)
             (mkGameEvents None None None (Some true) (Some name) None) None in
  load_highlights_from_events (fs_with_log three_kills_log 995)
    "game_events.json" "game.mp4" (by_player " AHRI "%string)
  = Ok (Some [mkCandidate 2 32 1 (Some "game_events"%string);
              mkCandidate 132 162 1 (Some "game_events"%string)])
  /\ load_highlights_from_events (fs_with_log three_kills_log 995)
       "game_events.json" "game.mp4" (by_player "Teemo"%string)
     = Ok None.
Proof. split; vm_compute; reflexivity. Qed.

(** The video-relative time of an event with a wall-clock time is
    [wall_clock - recording_start_time + offset]; its clip starts
    [padding_before] earlier, but not before 0. *)
Lemma event_candidate_window log created offset padding duration k w :
  ev_wall_clock k = Some w ->
  let c := event_candidate log created offset padding duration k in
  c_start c = qmax 0 (w - created + offset - padding)
  /\ c_end c = c_start c + duration
  /\ c_score c = 1
  /\ c_source c = Some "game_events"%string.
Proof.
  intros Hw. unfold event_candidate. rewrite Hw. cbn. auto.
Qed.

(** * Further properties of the code *)

(** ** Order of the sorted lists *)

Section SortOrder.

Context {A : Type} (before : A -> A -> bool) (le : A -> A -> Prop).
Hypothesis le_trans : forall x y z, le x y -> le y z -> le x z.
Hypothesis before_true : forall y x, before y x = true -> le y x.
Hypothesis before_false : forall y x, before y x = false -> le x y.

Lemma insert_by_sorted x l :
  StronglySorted le l -> StronglySorted le (insert_by before x l).
Proof.
  induction 1 as [|y l Hs IH Hy]; cbn [insert_by].
  - constructor; constructor.
  - destruct (before y x) eqn:E.
    + constructor; [exact IH|].
      apply Forall_forall. intros z Hz.
      apply (Permutation_in _ (insert_by_perm before x l)) in Hz.
      destruct Hz as [<-|Hz]; [apply before_true; exact E|].
      rewrite Forall_forall in Hy. auto.
    + constructor; [constructor; assumption|].
      constructor; [apply before_false; exact E|].
      eapply Forall_impl; [|exact Hy].
      intros z Hz. eapply le_trans; [apply before_false; exact E | exact Hz].
Qed.

Lemma sort_by_sorted l : StronglySorted le (sort_by before l).
Proof.
  induction l as [|x l IH]; cbn [sort_by fold_right]; [constructor|].
  apply insert_by_sorted. exact IH.
Qed.

End SortOrder.

Lemma StronglySorted_app_inv_mid {A} (R : A -> A -> Prop) l1 x l2 :
  StronglySorted R (l1 ++ x :: l2) -> StronglySorted R (l1 ++ l2).
Proof.
  induction l1 as [|a l1 IH]; cbn [app]; intros H.
  - inversion H; assumption.
  - inversion H as [|? ? Hs Ha]; subst. constructor; [apply IH; exact Hs|].
    rewrite Forall_app in *. destruct Ha as [H1 H2].
    inversion H2; subst. split; assumption.
Qed.

Lemma StronglySorted_map {A B} (R : B -> B -> Prop) (f : A -> B) l :
  StronglySorted (fun x y => R (f x) (f y)) l -> StronglySorted R (map f l).
Proof.
  induction 1 as [|a l Hs IH Ha]; cbn [map]; constructor; [exact IH|].
  apply Forall_map. exact Ha.
Qed.

(** ** The spacing loop: order, first candidate, maximality *)

Section NmsMore.

Context {A : Type} (start_of : A -> Q).

Lemma nms_loop_prefix max_clips mb cands : forall sel,
  exists more, nms_loop start_of max_clips mb cands sel = sel ++ more.
Proof.
  induction cands as [|c rest IH]; cbn [nms_loop]; intros sel.
  - exists []. rewrite app_nil_r. reflexivity.
  - destruct (Z.of_nat (List.length sel) >=? max_clips)%Z.
    + exists []. rewrite app_nil_r. reflexivity.
    + destruct (too_close start_of mb c sel); [apply IH|].
      destruct (IH (sel ++ [c])) as (more & ->).
      exists (c :: more). rewrite <- app_assoc. reflexivity.
Qed.

Lemma nms_loop_sorted (R : A -> A -> Prop) max_clips mb cands : forall sel,
  StronglySorted R (sel ++ cands) ->
  StronglySorted R (nms_loop start_of max_clips mb cands sel).
Proof.
  induction cands as [|c rest IH]; cbn [nms_loop]; intros sel H.
  - rewrite app_nil_r in H. exact H.
  - destruct (Z.of_nat (List.length sel) >=? max_clips)%Z.
    + clear IH. induction rest as [|r rest IHr].
      * apply StronglySorted_app_inv_mid in H. rewrite app_nil_r in H. exact H.
      * apply IHr. change (sel ++ c :: r :: rest) with (sel ++ [c] ++ r :: rest) in H.
        rewrite app_assoc in H. apply StronglySorted_app_inv_mid in H.
        rewrite <- app_assoc in H. exact H.
    + destruct (too_close start_of mb c sel).
      * apply IH. eapply StronglySorted_app_inv_mid. exact H.
      * apply IH. rewrite <- app_assoc. exact H.
Qed.

(** With room for one clip, the first candidate in the order is selected,
    and comes first. *)
Lemma nms_loop_first max_clips mb c rest :
  (1 <= max_clips)%Z ->
  exists more, nms_loop start_of max_clips mb (c :: rest) [] = c :: more.
Proof.
  intros Hmax. cbn [nms_loop List.length too_close existsb app].
  destruct (Z.geb_spec (Z.of_nat 0) max_clips) as [H|_]; [lia|].
  apply (nms_loop_prefix max_clips mb rest [c]).
Qed.

(** Without room for a clip, nothing is selected. *)
Lemma nms_loop_no_room max_clips mb cands :
  (max_clips <= 0)%Z -> nms_loop start_of max_clips mb cands [] = [].
Proof.
  intros Hmax. destruct cands as [|c rest]; cbn [nms_loop List.length]; [reflexivity|].
  destruct (Z.geb_spec (Z.of_nat 0) max_clips) as [_|H]; [reflexivity | lia].
Qed.

Lemma too_close_true mb c sel :
  too_close start_of mb c sel = true ->
  exists s, In s sel /\ Qabs (start_of c - start_of s) < mb.
Proof.
  unfold too_close. intros H. apply existsb_exists in H as (s & Hs & Hlt).
  exists s. split; [exact Hs | apply Qltb_lt; exact Hlt].
Qed.

(** While the limit is not reached, a candidate is left out only for being
    too close to a selected one. *)
Lemma nms_loop_maximal max_clips mb cands : forall sel,
  (Z.of_nat (List.length (nms_loop start_of max_clips mb cands sel)) < max_clips)%Z ->
  forall x, In x cands ->
    In x (nms_loop start_of max_clips mb cands sel)
    \/ exists s, In s (nms_loop start_of max_clips mb cands sel)
                 /\ Qabs (start_of x - start_of s) < mb.
Proof.
  induction cands as [|c rest IH]; intros sel Hlen x Hx; [destruct Hx|].
  cbn [nms_loop] in *.
  destruct (Z.geb_spec (Z.of_nat (List.length sel)) max_clips) as [Hge|Hlt]; [lia|].
  destruct (too_close start_of mb c sel) eqn:E.
  - destruct Hx as [<-|Hx]; [|apply IH; assumption].
    right. apply too_close_true in E as (s & Hs & Hclose).
    exists s. split; [|exact Hclose].
    destruct (nms_loop_prefix max_clips mb rest sel) as (more & ->).
    apply in_or_app. left. exact Hs.
  - destruct Hx as [<-|Hx]; [|apply IH; assumption].
    left. destruct (nms_loop_prefix max_clips mb rest (sel ++ [c])) as (more & ->).
    apply in_or_app. left. apply in_or_app. right. left. reflexivity.
Qed.

End NmsMore.

(** ** Event selector: what is selected *)

Lemma by_start_true y x : by_start y x = true -> c_start y <= c_start x.
Proof. unfold by_start. intros H. apply Qltb_lt in H. apply Qlt_le_weak. exact H. Qed.

Lemma by_start_false y x : by_start y x = false -> c_start x <= c_start y.
Proof. unfold by_start. intros H. apply Qltb_ge in H. exact H. Qed.

Lemma sort_by_start_sorted l : sorted_by_start (sort_by by_start l).
Proof.
  apply sort_by_sorted.
  - intros x y z. apply Qle_trans.
  - apply by_start_true.
  - apply by_start_false.
Qed.

(** [load_highlights_from_events] in one equation: the spacing loop over
    the candidates of the surviving kills, sorted by start. *)
Lemma load_highlights_from_events_eq fs events_path video_path cfg :
  load_highlights_from_events fs events_path video_path cfg
  = if negb (path_exists fs events_path) then Ok None
    else match read_json fs events_path with
         | None => Ok None
         | Some NotAnObject => Raise AttributeError
         | Some EventsNotIterable => Raise TypeError
         | Some EventNotAnObject => Raise AttributeError
         | Some (Log data) =>
             match surviving_kills cfg data with
             | [] => Ok None
             | _ :: _ =>
                 Ok (Some (nms_loop c_start (cfg_max_clips (detection cfg))
                             (cfg_min_between (detection cfg))
                             (sort_by by_start
                                (event_candidates fs video_path cfg data
                                   (surviving_kills cfg data)))
                             []))
             end
         end.
Proof.
  unfold load_highlights_from_events, surviving_kills, filter_player_name,
    event_candidates.
  destruct (negb (path_exists fs events_path)); [reflexivity|].
  destruct (read_json fs events_path) as [[data| | |]|]; try reflexivity.
  rewrite str_or_empty.
  destruct (filter is_kill (events data)) as [|k ks] eqn:Ek.
  - destruct (truthy _ false && _); reflexivity.
  - destruct (truthy (filter_my_kills_only (game_events cfg)) false); cbn [andb];
      [|reflexivity].
    destruct (String.eqb _ EmptyString); cbn [negb]; [reflexivity|].
    destruct (filter _ (k :: ks)); reflexivity.
Qed.

Lemma load_highlights_from_events_some fs events_path video_path cfg l :
  load_highlights_from_events fs events_path video_path cfg = Ok (Some l) ->
  exists data,
    read_json fs events_path = Some (Log data)
    /\ surviving_kills cfg data <> []
    /\ l = nms_loop c_start (cfg_max_clips (detection cfg))
             (cfg_min_between (detection cfg))
             (sort_by by_start
                (event_candidates fs video_path cfg data
                   (surviving_kills cfg data)))
             [].
Proof.
  rewrite load_highlights_from_events_eq.
  destruct (negb (path_exists fs events_path)); [discriminate|].
  destruct (read_json fs events_path) as [[data| | |]|]; try discriminate.
  destruct (surviving_kills cfg data) as [|k ks] eqn:E; [discriminate|].
  intros [= <-]. exists data. split; [reflexivity|].
  rewrite E. split; [discriminate | reflexivity].
Qed.

(** X1. The event selector returns its clips in ascending order of
    start. *)
Theorem events_in_start_order
  (fs : filesystem) (events_path video_path : string) (cfg : config)
  (l : list candidate) :
  load_highlights_from_events fs events_path video_path cfg = Ok (Some l) ->
  sorted_by_start l.
Proof.
  intros H. apply load_highlights_from_events_some in H as (data & _ & _ & ->).
  apply nms_loop_sorted. cbn [app]. apply sort_by_start_sorted.
Qed.

Lemma events_in_start_order_witness :
  sorted_by_start [mkCandidate 2 32 1 (Some "game_events"%string);
                   mkCandidate 132 162 1 (Some "game_events"%string);
                   mkCandidate 262 292 1 (Some "game_events"%string)].
Proof.
  apply (@events_in_start_order (fs_with_log three_kills_log 995)
           "game_events.json" "game.mp4" empty_config).
  vm_compute. reflexivity.
Defined.

(** X2. With room for at least one clip, a returned list is not empty and
    begins with a clip that starts earliest among the candidates: the
    clips of all the kills of the log or, when the killer filter applies,
    of the kills of the configured player.  No candidate, kept or not,
    starts before it.  Kills are not filtered by time: the clip of a kill
    from before the recording starts at 0. *)
Theorem events_earliest_kill_first
  (fs : filesystem) (events_path video_path : string) (cfg : config)
  (l : list candidate) :
  (1 <= cfg_max_clips (detection cfg))%Z ->
  load_highlights_from_events fs events_path video_path cfg = Ok (Some l) ->
  exists data first rest,
    read_json fs events_path = Some (Log data)
    /\ l = first :: rest
    /\ In first (event_candidates fs video_path cfg data (surviving_kills cfg data))
    /\ forall c, In c (event_candidates fs video_path cfg data
                         (surviving_kills cfg data)) ->
                 c_start first <= c_start c.
Proof.
  intros Hmax H. apply load_highlights_from_events_some in H as (data & Hj & Hne & ->).
  set (cands := event_candidates fs video_path cfg data (surviving_kills cfg data)).
  assert (Hc : cands <> []).
  { unfold cands, event_candidates. destruct (surviving_kills cfg data);
      [congruence | discriminate]. }
  pose proof (sort_by_start_sorted cands) as Hs.
  assert (Hin : forall c, In c (sort_by by_start cands) <-> In c cands)
    by (intros c; apply sort_by_In).
  destruct (sort_by by_start cands) as [|first sorted] eqn:E.
  { exfalso. destruct cands as [|c cs]; [congruence|].
    apply (proj2 (Hin c)). left. reflexivity. }
  destruct (nms_loop_first c_start (cfg_min_between (detection cfg)) first sorted Hmax)
    as (more & ->).
  exists data, first, more. repeat split; try assumption.
  - apply Hin. left. reflexivity.
  - intros c Hcin. apply Hin in Hcin as [<-|Hcin]; [apply Qle_refl|].
    inversion Hs as [|? ? _ Hall]; subst. rewrite Forall_forall in Hall. auto.
Qed.

Lemma events_earliest_kill_first_witness :
  exists data first rest,
    read_json (fs_with_log three_kills_log 995) "game_events.json" = Some (Log data)
    /\ [mkCandidate 2 32 1 (Some "game_events"%string);
        mkCandidate 132 162 1 (Some "game_events"%string);
        mkCandidate 262 292 1 (Some "game_events"%string)] = first :: rest
    /\ In first (event_candidates (fs_with_log three_kills_log 995) "game.mp4"
                   empty_config data (surviving_kills empty_config data))
    /\ forall c, In c (event_candidates (fs_with_log three_kills_log 995)
                         "game.mp4" empty_config data
                         (surviving_kills empty_config data)) ->
                 c_start first <= c_start c.
Proof.
  apply (@events_earliest_kill_first (fs_with_log three_kills_log 995)
           "game_events.json" "game.mp4" empty_config).
  - vm_compute. discriminate.
  - vm_compute. reflexivity.
Defined.

(** X3. While fewer than [max_clips_per_video] clips are returned, every
    surviving kill has its clip in the list or starts less than
    [min_seconds_between_clips] from a clip in the list: a kill is dropped
    only for being too close to a kept one. *)
Theorem events_dropped_only_when_close
  (fs : filesystem) (events_path video_path : string) (cfg : config)
  (l : list candidate) :
  load_highlights_from_events fs events_path video_path cfg = Ok (Some l) ->
  (Z.of_nat (List.length l) < cfg_max_clips (detection cfg))%Z ->
  exists data,
    read_json fs events_path = Some (Log data)
    /\ forall c, In c (event_candidates fs video_path cfg data
                         (surviving_kills cfg data)) ->
                 In c l \/ near_one_of (cfg_min_between (detection cfg)) c l.
Proof.
  intros H Hlen. apply load_highlights_from_events_some in H as (data & Hj & _ & ->).
  exists data. split; [exact Hj|]. intros c Hc.
  apply nms_loop_maximal; [exact Hlen|]. apply sort_by_In. exact Hc.
Qed.

Lemma events_dropped_only_when_close_witness :
  exists data,
    read_json (fs_with_log three_kills_log 995) "game_events.json" = Some (Log data)
    /\ forall c, In c (event_candidates (fs_with_log three_kills_log 995)
                         "game.mp4" empty_config data
                         (surviving_kills empty_config data)) ->
                 In c [mkCandidate 2 32 1 (Some "game_events"%string);
                       mkCandidate 132 162 1 (Some "game_events"%string);
                       mkCandidate 262 292 1 (Some "game_events"%string)]
                 \/ near_one_of (cfg_min_between (detection empty_config)) c
                      [mkCandidate 2 32 1 (Some "game_events"%string);
                       mkCandidate 132 162 1 (Some "game_events"%string);
                       mkCandidate 262 292 1 (Some "game_events"%string)].
Proof.
  apply (@events_dropped_only_when_close (fs_with_log three_kills_log 995)
           "game_events.json" "game.mp4" empty_config).
  - vm_compute. reflexivity.
  - vm_compute. reflexivity.
Defined.

Lemma lower_empty s : Str.lower s = EmptyString -> s = EmptyString.
Proof. destruct s; [reflexivity | discriminate]. Qed.

(** X4. A killer-name filter that is switched on with no player name, or
    with a blank one, filters nothing: the selector returns what it returns
    with the filter off. *)
Theorem blank_player_name_filters_nothing
  (fs : filesystem) (events_path video_path : string) (cfg : config) :
  Str.strip (get_or (player_summoner_name (game_events cfg)) EmptyString)
  = EmptyString ->
  load_highlights_from_events fs events_path video_path cfg
  = load_highlights_from_events fs events_path video_path
      (without_killer_filter cfg).
Proof.
  intros Hblank. rewrite !load_highlights_from_events_eq.
  assert (E : forall data, surviving_kills cfg data
                           = surviving_kills (without_killer_filter cfg) data).
  { intros data. unfold surviving_kills, filter_player_name.
    cbn [without_killer_filter game_events filter_my_kills_only
         player_summoner_name truthy get_or andb].
    rewrite Hblank. cbn [Str.lower String.eqb negb]. rewrite andb_false_r.
    reflexivity. }
  destruct (negb (path_exists fs events_path)); [reflexivity|].
  destruct (read_json fs events_path) as [[data| | |]|]; try reflexivity.
  rewrite <- E. reflexivity.
Qed.

Lemma blank_player_name_filters_nothing_witness :
  let cfg := mkConfig (detection empty_config) (clip empty_config)
               (mkGameEvents None None None (Some true) (Some "  "%string) None)
               None in
  load_highlights_from_events (fs_with_log three_kills_log 995)
    "game_events.json" "game.mp4" cfg
  = load_highlights_from_events (fs_with_log three_kills_log 995)
      "game_events.json" "game.mp4" (without_killer_filter cfg).
Proof.
  cbv zeta. apply blank_player_name_filters_nothing. reflexivity.
Defined.

(** ** Signal selector: what is selected *)

Lemma select_peaks_eq det cl duration combined :
  select_peaks det cl duration combined
  = match np_percentile combined (100 - cfg_sensitivity det * 40) with
    | Raise e => Raise e
    | Ok threshold =>
        Ok (map snd
              (sort_by by_start_asc
                 (nms_loop (fun c : nat * candidate => c_start (snd c))
                    (cfg_max_clips det) (cfg_min_between det)
                    (sort_by by_score_desc
                       (indexed_candidates det cl duration combined threshold))
                    [])))
    end.
Proof.
  unfold select_peaks, select_indexed.
  destruct (np_percentile combined _); reflexivity.
Qed.

Lemma np_percentile_raises a q e :
  np_percentile a q = Raise e
  <-> (e = ValueError /\ (q < 0 \/ 100 < q))
      \/ (e = IndexError /\ 0 <= q /\ q <= 100 /\ a = []).
Proof.
  unfold np_percentile.
  destruct (Qltb_spec q 0) as [H0|H0]; cbn [orb].
  - split; [intros [= <-]; auto|].
    intros [[-> _]|(_ & H & _)]; [reflexivity | exfalso; lra].
  - destruct (Qltb_spec 100 q) as [H1|H1].
    + split; [intros [= <-]; auto|].
      intros [[-> _]|(_ & _ & H & _)]; [reflexivity | exfalso; lra].
    + split.
      * destruct a; [|discriminate]. intros [= <-]. right. auto.
      * intros [[_ [H|H]]|(-> & _ & _ & ->)]; [exfalso; lra | exfalso; lra|].
        reflexivity.
Qed.

(** X5. The signal selector fails only in [np.percentile]: it raises
    [ValueError] exactly when the sensitivity is below 0 or above 2.5, so
    that [100 - sensitivity * 40] leaves the range 0 to 100, whatever the
    series; it raises [IndexError] exactly when the sensitivity is in range
    and the combined series is empty; and it returns a list otherwise. *)
Theorem select_peaks_raises_iff
  (det : detection_cfg) (cl : clip_cfg) (duration : Q) (combined : list Q)
  (e : exn) :
  select_peaks det cl duration combined = Raise e
  <-> (e = ValueError
       /\ (cfg_sensitivity det < 0 \/ 5 # 2 < cfg_sensitivity det))
      \/ (e = IndexError
          /\ 0 <= cfg_sensitivity det /\ cfg_sensitivity det <= 5 # 2
          /\ combined = []).
Proof.
  rewrite select_peaks_eq.
  assert (Hraise : forall e',
             np_percentile combined (100 - cfg_sensitivity det * 40) = Raise e'
             <-> (e' = ValueError
                  /\ (cfg_sensitivity det < 0 \/ 5 # 2 < cfg_sensitivity det))
                 \/ (e' = IndexError
                     /\ 0 <= cfg_sensitivity det /\ cfg_sensitivity det <= 5 # 2
                     /\ combined = [])).
  { intros e'. rewrite np_percentile_raises. split.
    - intros [[-> H]|(-> & H0 & H1 & ->)].
      + left. split; [reflexivity|]. destruct H; [right | left]; lra.
      + right. repeat split; lra.
    - intros [[-> H]|(-> & H0 & H1 & ->)].
      + left. split; [reflexivity|]. destruct H; [right | left]; lra.
      + right. repeat split; lra. }
  destruct (np_percentile combined (100 - cfg_sensitivity det * 40)) as [thr|e'] eqn:E.
  - split; [discriminate|]. intros H. apply Hraise in H. discriminate.
  - split.
    + intros [= <-]. apply Hraise. reflexivity.
    + intros H. apply Hraise in H. congruence.
Qed.

Lemma by_start_asc_sorted (l : list (nat * candidate)) :
  StronglySorted (fun x y => c_start (snd x) <= c_start (snd y))
                 (sort_by by_start_asc l).
Proof.
  apply sort_by_sorted.
  - intros x y z. apply Qle_trans.
  - intros y x H. unfold by_start_asc in H. apply Qltb_lt in H.
    apply Qlt_le_weak. exact H.
  - intros y x H. unfold by_start_asc in H. apply Qltb_ge in H. exact H.
Qed.

Lemma by_score_desc_sorted (l : list (nat * candidate)) :
  StronglySorted (fun x y => c_score (snd y) <= c_score (snd x))
                 (sort_by by_score_desc l).
Proof.
  apply sort_by_sorted.
  - intros x y z H1 H2. eapply Qle_trans; eassumption.
  - intros y x H. unfold by_score_desc in H. apply Qltb_lt in H.
    apply Qlt_le_weak. exact H.
  - intros y x H. unfold by_score_desc in H. apply Qltb_ge in H. exact H.
Qed.

(** X6. The signal selector returns its clips in ascending order of
    start. *)
Theorem peaks_in_start_order
  (det : detection_cfg) (cl : clip_cfg) (duration : Q) (combined : list Q)
  (l : list candidate) :
  select_peaks det cl duration combined = Ok l -> sorted_by_start l.
Proof.
  rewrite select_peaks_eq.
  destruct (np_percentile combined _) as [thr|]; [|discriminate].
  intros [= <-]. apply StronglySorted_map. apply by_start_asc_sorted.
Qed.

Lemma peaks_in_start_order_witness :
  sorted_by_start [mkCandidate 1 31 1 None].
Proof.
  apply (@peaks_in_start_order (detection empty_config) (clip empty_config)
           1000 two_peaks).
  vm_compute. reflexivity.
Defined.



(** X8. While fewer than [max_clips_per_video] clips are returned, every
    candidate peak is returned or starts less than
    [min_seconds_between_clips] from a returned clip: a peak is suppressed
    only by a clip that is kept. *)
Theorem peaks_dropped_only_when_close
  (det : detection_cfg) (cl : clip_cfg) (duration : Q) (combined : list Q)
  (threshold : option Q) (l : list candidate) :
  np_percentile combined (100 - cfg_sensitivity det * 40) = Ok threshold ->
  select_peaks det cl duration combined = Ok l ->
  (Z.of_nat (List.length l) < cfg_max_clips det)%Z ->
  forall c, In c (signal_candidates det cl duration combined threshold) ->
            In c l \/ near_one_of (cfg_min_between det) c l.
Proof.
  intros Hp. rewrite select_peaks_eq, Hp. intros [= <-] Hlen c Hc.
  unfold signal_candidates in Hc. apply in_map_iff in Hc as (x & <- & Hx).
  rewrite List.length_map, sort_by_length in Hlen.
  assert (Hx' : In x (sort_by by_score_desc
                        (indexed_candidates det cl duration combined threshold)))
    by (apply sort_by_In; exact Hx).
  destruct (@nms_loop_maximal _ (fun c : nat * candidate => c_start (snd c))
              (cfg_max_clips det) (cfg_min_between det)
              (sort_by by_score_desc
                 (indexed_candidates det cl duration combined threshold))
              [] Hlen x Hx') as [H|(s & Hs & Hclose)].
  - left. apply in_map. apply sort_by_In. exact H.
  - right. exists (snd s). split; [|exact Hclose].
    apply in_map. apply sort_by_In. exact Hs.
Qed.

Lemma peaks_dropped_only_when_close_witness :
  Forall (fun c => In c [mkCandidate 1 31 1 None]
                   \/ near_one_of (cfg_min_between (detection empty_config)) c
                        [mkCandidate 1 31 1 None])
         (signal_candidates (detection empty_config) (clip empty_config)
                            1000 two_peaks (Some (18000 # 20000))).
Proof.
  apply Forall_forall.
  apply (@peaks_dropped_only_when_close (detection empty_config)
           (clip empty_config) 1000 two_peaks (Some (18000 # 20000))
           [mkCandidate 1 31 1 None]).
  - vm_compute. reflexivity.
  - vm_compute. reflexivity.
  - vm_compute. reflexivity.
Defined.

(** The clip window behind a returned clip. *)
Lemma select_peaks_clip_window
  (det : detection_cfg) (cl : clip_cfg) (duration : Q) (combined : list Q)
  (l : list candidate) (c : candidate) :
  select_peaks det cl duration combined = Ok l -> In c l ->
  exists i,
    (1 <= i)%nat /\ (i + 2 <= List.length combined)%nat
    /\ c_start c = qmax 0 (inject_Z (Z.of_nat i) * cfg_window_sec det
                           - cfg_padding_before cl)
    /\ c_end c = qmin duration (c_start c + cfg_clip_duration cl)
    /\ c_score c = nth i combined 0
    /\ c_source c = None
    /\ 0 <= c_start c
    /\ cfg_min_clip_length cl <= c_end c - c_start c
    /\ cfg_min_score det <= c_score c.
Proof.
  unfold select_peaks.
  destruct (select_indexed det cl duration combined) as [li|] eqn:E; [|discriminate].
  intros [= <-] Hc. apply in_map_iff in Hc as ([i c'] & <- & Hin).
  eapply select_indexed_In in Hin as (threshold & Hx); [|exact E].
  apply indexed_candidates_In in Hx as [Hi Hw].
  unfold peak_indices in Hi. apply filter_In in Hi as [Hrange Hpeak].
  apply in_seq in Hrange. apply is_peak_iff in Hpeak as (_ & _ & _ & Hms & _).
  exists i. unfold clip_window in Hw.
  destruct (Qle_bool (cfg_min_clip_length cl) _) eqn:Hlen; [|discriminate].
  injection Hw as <-. cbn [snd c_start c_end c_score c_source].
  apply Qle_bool_iff in Hlen.
  repeat split; try assumption; try lia. apply qmax_ge_l.
Qed.

(** X9. Every clip the signal selector returns is the clip window of an
    interior index [i] of the combined series: it starts at
    [max(0, i * window_seconds - padding_before)], never before 0, ends at
    [min(duration, start + clip_duration)], is at least [min_clip_length]
    long, carries the combined score at [i], which is at least [min_score],
    and has no source tag. *)
Theorem returned_peak_is_a_clip_window
  (det : detection_cfg) (cl : clip_cfg) (duration : Q) (combined : list Q)
  (l : list candidate) (c : candidate) :
  select_peaks det cl duration combined = Ok l -> In c l ->
  exists i,
    (1 <= i)%nat /\ (i + 2 <= List.length combined)%nat
    /\ c_start c = qmax 0 (inject_Z (Z.of_nat i) * cfg_window_sec det
                           - cfg_padding_before cl)
    /\ c_end c = qmin duration (c_start c + cfg_clip_duration cl)
    /\ c_score c = nth i combined 0
    /\ c_source c = None
    /\ 0 <= c_start c
    /\ cfg_min_clip_length cl <= c_end c - c_start c
    /\ cfg_min_score det <= c_score c.
Proof. apply select_peaks_clip_window. Qed.

Lemma returned_peak_is_a_clip_window_witness :
  exists i,
    (1 <= i)%nat /\ (i + 2 <= List.length two_peaks)%nat
    /\ c_start (mkCandidate 1 31 1 None)
       = qmax 0 (inject_Z (Z.of_nat i) * cfg_window_sec (detection empty_config)
                 - cfg_padding_before (clip empty_config))
    /\ c_end (mkCandidate 1 31 1 None)
       = qmin 1000 (c_start (mkCandidate 1 31 1 None)
                    + cfg_clip_duration (clip empty_config))
    /\ c_score (mkCandidate 1 31 1 None) = nth i two_peaks 0
    /\ c_source (mkCandidate 1 31 1 None) = None
    /\ 0 <= c_start (mkCandidate 1 31 1 None)
    /\ cfg_min_clip_length (clip empty_config)
       <= c_end (mkCandidate 1 31 1 None) - c_start (mkCandidate 1 31 1 None)
    /\ cfg_min_score (detection empty_config) <= c_score (mkCandidate 1 31 1 None).
Proof.
  apply (@returned_peak_is_a_clip_window (detection empty_config)
           (clip empty_config) 1000 two_peaks [mkCandidate 1 31 1 None]).
  - vm_compute. reflexivity.
  - left. reflexivity.
Defined.

Lemma np_percentile_ok a q :
  0 <= q -> q <= 100 -> a <> [] ->
  exists threshold, np_percentile a q = Ok threshold.
Proof.
  intros H0 H1 Hne. destruct (np_percentile a q) as [thr|e] eqn:E; [eauto|].
  apply np_percentile_raises in E as [[_ [H|H]]|(_ & _ & _ & H)];
    [lra | lra | contradiction].
Qed.

(** X10. With a sensitivity between 0 and 2.5 and a combined series that
    is not empty, the signal selector returns the empty list, and no error,
    when the series has one or two values, when all its values are below
    [min_score], or when [max_clips_per_video] is not positive. *)
Theorem no_peaks_no_error
  (det : detection_cfg) (cl : clip_cfg) (duration : Q) (combined : list Q) :
  0 <= cfg_sensitivity det -> cfg_sensitivity det <= 5 # 2 ->
  combined <> [] ->
  (List.length combined < 3)%nat
  \/ Forall (fun x => x < cfg_min_score det) combined
  \/ (cfg_max_clips det <= 0)%Z ->
  select_peaks det cl duration combined = Ok [].
Proof.
  intros H0 H1 Hne H. rewrite select_peaks_eq.
  destruct (@np_percentile_ok combined (100 - cfg_sensitivity det * 40))
    as (thr & ->); [lra | lra | exact Hne |].
  assert (Hnone : peak_indices det combined thr = [] ->
                  map snd (sort_by by_start_asc
                    (nms_loop (fun c : nat * candidate => c_start (snd c))
                       (cfg_max_clips det) (cfg_min_between det)
                       (sort_by by_score_desc
                          (indexed_candidates det cl duration combined thr)) []))
                  = []).
  { intros E. unfold indexed_candidates. rewrite E. reflexivity. }
  destruct H as [Hshort | [Hlow | Hmax]].
  - rewrite Hnone; [reflexivity|]. unfold peak_indices.
    replace (List.length combined - 2)%nat with 0%nat by lia. reflexivity.
  - rewrite Hnone; [reflexivity|]. unfold peak_indices.
    apply filter_none. intros i Hi. apply in_seq in Hi.
    destruct (is_peak det combined thr i) eqn:E; [|reflexivity].
    apply is_peak_iff in E as (_ & _ & _ & Hms & _).
    rewrite Forall_forall in Hlow.
    assert (Hin : In (nth i combined 0) combined) by (apply nth_In; lia).
    apply Hlow in Hin. exfalso. lra.
  - rewrite nms_loop_no_room by exact Hmax. reflexivity.
Qed.

Lemma no_peaks_no_error_witness :
  select_peaks (detection empty_config) (clip empty_config) 1000
               [1 # 2; 11 # 20; 1 # 2; 1 # 4]
  = Ok [].
Proof.
  apply no_peaks_no_error.
  - vm_compute. discriminate.
  - vm_compute. discriminate.
  - discriminate.
  - right. left. repeat constructor.
Defined.

(** X11. With [max_clips_per_video] at 0 or below, [detect_highlights]
    never returns a clip: the event selector selects nothing, control falls
    through to the signal pipeline, and that selects nothing either. *)
Theorem no_room_no_clips
  (fs : filesystem) (m : media) (video_path : string) (cfg : config)
  (events_file : option string) (t : list action) (l : list candidate) :
  (cfg_max_clips (detection cfg) <= 0)%Z ->
  detect_highlights fs m video_path (Some cfg) events_file = (t, Ok l) ->
  l = [].
Proof.
  intros Hmax H. rewrite detect_highlights_unfold in H.
  apply bind_ok_inv in H as (t1 & hl & t2 & Ht & H & _).
  destruct hl as [hl|].
  - apply try_events_some in Ht as (Hl & Hne & _).
    apply load_highlights_from_events_some in Hl as (data & _ & _ & E).
    rewrite nms_loop_no_room in E by exact Hmax. contradiction.
  - apply detect_signal_ok in H as (duration & combined & H).
    rewrite select_peaks_eq in H.
    destruct (np_percentile combined _) as [thr|]; [|discriminate].
    rewrite nms_loop_no_room in H by exact Hmax. injection H as <-. reflexivity.
Qed.

Lemma no_room_no_clips_witness : @nil candidate = [].
Proof.
  eapply (@no_room_no_clips example_fs example_media "game.mp4"
            (mkConfig (mkDetection None None None None None None (Some 0%Z) None)
                      (clip empty_config) (game_events empty_config) None)
            None _ []).
  - vm_compute. discriminate.
  - vm_compute. reflexivity.
Defined.

(** ** Sensitivity and the threshold *)

Lemma sort_Qltb_sorted a : StronglySorted Qle (sort_by Qltb a).
Proof.
  apply sort_by_sorted.
  - intros x y z. apply Qle_trans.
  - intros y x H. apply Qltb_lt in H. apply Qlt_le_weak. exact H.
  - intros y x H. apply Qltb_ge in H. exact H.
Qed.

Lemma sorted_nth_le l :
  StronglySorted Qle l ->
  forall i j, (i <= j)%nat -> (j < List.length l)%nat -> nth i l 0 <= nth j l 0.
Proof.
  induction 1 as [|x l Hs IH Hx]; intros i j Hij Hj; cbn [List.length] in Hj; [lia|].
  destruct j as [|j].
  - replace i with 0%nat by lia. apply Qle_refl.
  - destruct i as [|i]; cbn [nth].
    + rewrite Forall_forall in Hx. apply Hx. apply nth_In. lia.
    + apply IH; lia.
Qed.

Lemma np_percentile_value a q :
  a <> [] -> 0 <= q -> q <= 100 ->
  np_percentile a q
  = Ok (Some (interpolate (sort_by Qltb a) (List.length a) q)).
Proof.
  intros Hne H0 H1. unfold np_percentile.
  destruct (Qltb_spec q 0) as [H|_]; [lra|].
  destruct (Qltb_spec 100 q) as [H|_]; [lra|].
  cbn [orb]. destruct a; [congruence | reflexivity].
Qed.

Lemma interpolate_between sorted n q :
  StronglySorted Qle sorted -> List.length sorted = n -> (1 <= n)%nat ->
  0 <= q -> q <= 100 ->
  let virtual := inject_Z (Z.of_nat (n - 1)) * (q / 100) in
  let previous := Z.to_nat (Qfloor virtual) in
  (0 <= Qfloor virtual)%Z /\ (previous <= n - 1)%nat
  /\ nth previous sorted 0 <= interpolate sorted n q
  /\ interpolate sorted n q <= nth (Nat.min (S previous) (n - 1)) sorted 0.
Proof.
  intros Hs Hlen Hn H0 H1. cbv zeta. unfold interpolate.
  change (q / 100) with (q * (1 # 100)).
  set (N := inject_Z (Z.of_nat (n - 1))).
  assert (HN : 0 <= N).
  { unfold N. change 0 with (inject_Z 0). rewrite <- Zle_Qle. lia. }
  set (v := N * (q * (1 # 100))).
  assert (Hv0 : 0 <= v) by (unfold v; apply Qmult_le_0_compat; [exact HN | lra]).
  assert (Hv1 : v <= N).
  { unfold v. setoid_replace N with (N * 1) at 2 by ring.
    destruct (Qeq_dec N 0) as [E|E]; [rewrite E; lra|].
    apply Qmult_le_l; [|lra].
    destruct (Qlt_le_dec 0 N) as [L|L]; [exact L|]. exfalso. apply E. lra. }
  assert (HF0 : (0 <= Qfloor v)%Z).
  { change 0%Z with (Qfloor 0). apply Qfloor_resp_le. exact Hv0. }
  assert (HF1 : (Qfloor v <= Z.of_nat (n - 1))%Z).
  { rewrite <- (Qfloor_Z (Z.of_nat (n - 1))). apply Qfloor_resp_le. exact Hv1. }
  assert (Hj : (Z.to_nat (Qfloor v) <= n - 1)%nat) by lia.
  pose proof (Qfloor_le v) as Hg0. pose proof (Qlt_floor v) as Hg1.
  rewrite inject_Z_plus in Hg1.
  assert (Hlh : nth (Z.to_nat (Qfloor v)) sorted 0
                <= nth (Nat.min (S (Z.to_nat (Qfloor v))) (n - 1)) sorted 0).
  { apply sorted_nth_le; [exact Hs | lia | lia]. }
  set (lo := nth (Z.to_nat (Qfloor v)) sorted 0) in *.
  set (hi := nth (Nat.min (S (Z.to_nat (Qfloor v))) (n - 1)) sorted 0) in *.
  set (g := v - inject_Z (Qfloor v)).
  assert (G0 : 0 <= g) by (unfold g; lra).
  assert (G1 : g <= 1) by (unfold g; change (inject_Z 1) with 1 in Hg1; lra).
  repeat split; try assumption; nra.
Qed.

Lemma interpolate_mono sorted n q1 q2 :
  StronglySorted Qle sorted -> List.length sorted = n -> (1 <= n)%nat ->
  0 <= q1 -> q1 <= q2 -> q2 <= 100 ->
  interpolate sorted n q1 <= interpolate sorted n q2.
Proof.
  intros Hs Hlen Hn H0 H12 H2.
  assert (H1 : q1 <= 100) by lra. assert (H0' : 0 <= q2) by lra.
  destruct (@interpolate_between sorted n q1 Hs Hlen Hn H0 H1) as (F1 & J1 & L1 & U1).
  destruct (@interpolate_between sorted n q2 Hs Hlen Hn H0' H2) as (F2 & J2 & L2 & U2).
  set (N := inject_Z (Z.of_nat (n - 1))) in *.
  assert (HN : 0 <= N).
  { unfold N. change 0 with (inject_Z 0). rewrite <- Zle_Qle. lia. }
  change (q1 / 100) with (q1 * (1 # 100)) in *.
  change (q2 / 100) with (q2 * (1 # 100)) in *.
  assert (Hv : N * (q1 * (1 # 100)) <= N * (q2 * (1 # 100))).
  { destruct (Qeq_dec N 0) as [E|E]; [rewrite E; lra|].
    apply Qmult_le_l; [|lra].
    destruct (Qlt_le_dec 0 N) as [L|L]; [exact L|]. exfalso. apply E. lra. }
  pose proof (Qfloor_resp_le _ _ Hv) as HF.
  destruct (Z.eq_dec (Qfloor (N * (q1 * (1 # 100))))
                     (Qfloor (N * (q2 * (1 # 100))))) as [E|E].
  - unfold interpolate.
    change (q1 / 100) with (q1 * (1 # 100)).
    change (q2 / 100) with (q2 * (1 # 100)).
    fold N. rewrite <- E.
    assert (Hlh : nth (Z.to_nat (Qfloor (N * (q1 * (1 # 100))))) sorted 0
                  <= nth (Nat.min (S (Z.to_nat (Qfloor (N * (q1 * (1 # 100))))))
                                  (n - 1))
                         sorted 0).
    { apply sorted_nth_le; [exact Hs | lia | lia]. }
    set (lo := nth _ sorted 0) in *. set (hi := nth (Nat.min _ _) sorted 0) in *.
    nra.
  - eapply Qle_trans; [exact U1|]. eapply Qle_trans; [|exact L2].
    apply sorted_nth_le; [exact Hs | lia | lia].
Qed.

(** The threshold does not rise when the sensitivity does. *)
Lemma threshold_antitone combined s1 s2 t1 t2 :
  0 <= s1 -> s1 <= s2 -> s2 <= 5 # 2 ->
  np_percentile combined (100 - s1 * 40) = Ok (Some t1) ->
  np_percentile combined (100 - s2 * 40) = Ok (Some t2) ->
  t2 <= t1.
Proof.
  intros H0 H12 H2 E1 E2.
  assert (Hne : combined <> []).
  { intros ->. unfold np_percentile in E1.
    destruct (Qltb _ 0 || Qltb 100 _); discriminate. }
  rewrite np_percentile_value in E1, E2 by (try assumption; lra).
  injection E1 as <-. injection E2 as <-.
  apply interpolate_mono; try lra.
  - apply sort_Qltb_sorted.
  - apply sort_by_length.
  - destruct combined; [congruence | cbn [List.length]; lia].
Qed.

(** X12. Raising the sensitivity (within 0 to 2.5, the other settings
    unchanged) does not raise the threshold and loses no peak: every index
    that passes the peak tests at the lower sensitivity passes them at the
    higher one. *)
Theorem more_sensitive_keeps_peaks
  (det1 det2 : detection_cfg) (combined : list Q) (thr1 thr2 : option Q) :
  cfg_min_score det1 == cfg_min_score det2 ->
  cfg_min_prominence det1 == cfg_min_prominence det2 ->
  0 <= cfg_sensitivity det1 ->
  cfg_sensitivity det1 <= cfg_sensitivity det2 ->
  cfg_sensitivity det2 <= 5 # 2 ->
  np_percentile combined (100 - cfg_sensitivity det1 * 40) = Ok thr1 ->
  np_percentile combined (100 - cfg_sensitivity det2 * 40) = Ok thr2 ->
  (forall t1 t2, thr1 = Some t1 -> thr2 = Some t2 -> t2 <= t1)
  /\ incl (peak_indices det1 combined thr1) (peak_indices det2 combined thr2).
Proof.
  intros Hms Hmp H0 H12 H2 E1 E2.
  assert (Hthr : forall t1 t2, thr1 = Some t1 -> thr2 = Some t2 -> t2 <= t1).
  { intros t1 t2 -> ->. eapply threshold_antitone; eassumption. }
  split; [exact Hthr|].
  intros i Hi. unfold peak_indices in *.
  apply filter_In in Hi as [Hrange Hpeak]. apply filter_In. split; [exact Hrange|].
  apply in_seq in Hrange.
  assert (Hne : combined <> []) by (intros ->; cbn in Hrange; lia).
  rewrite np_percentile_value in E1 by (try assumption; lra).
  injection E1 as <-.
  apply is_peak_iff in Hpeak as (Hl & Hr & Ht & Hm & Hp).
  apply is_peak_iff. repeat split; try assumption.
  - intros t2 ->. eapply Qle_trans; [|apply Ht; reflexivity].
    eapply Hthr; reflexivity.
  - rewrite <- Hms. exact Hm.
  - rewrite <- Hmp. exact Hp.
Qed.

Lemma more_sensitive_keeps_peaks_witness :
  let det2 := mkDetection None None (Some 1) None None None None None in
  (forall t1 t2, Some (18000 # 20000) = Some t1 -> Some (0 # 1000) = Some t2 ->
                 t2 <= t1)
  /\ incl (peak_indices (detection empty_config) two_peaks (Some (18000 # 20000)))
          (peak_indices det2 two_peaks (Some (0 # 1000))).
Proof.
  cbv zeta.
  apply (@more_sensitive_keeps_peaks (detection empty_config)
           (mkDetection None None (Some 1) None None None None None) two_peaks);
    try reflexivity; vm_compute; discriminate.
Defined.

(** ** The combined series of the pipeline *)

Lemma last_Forall {A} (P : A -> Prop) (xs : list A) (x : A) :
  P x -> Forall P xs -> P (last xs x).
Proof.
  intros Hx H. induction H as [|y xs Hy H IH]; [exact Hx|].
  cbn [last]. destruct xs; [exact Hy | exact IH].
Qed.

Lemma firstn_Forall {A} (P : A -> Prop) n (l : list A) :
  Forall P l -> Forall P (firstn n l).
Proof.
  intros H. apply Forall_forall. intros x Hx. rewrite Forall_forall in H.
  apply H. eapply In_nth_error in Hx as (k & Hk).
  rewrite <- (firstn_skipn n l). apply in_or_app. left.
  eapply nth_error_In. exact Hk.
Qed.

Lemma pad_edge_in_unit s k s' :
  Forall in_unit s -> pad_edge s k = Ok s' -> Forall in_unit s'.
Proof.
  intros Hs. unfold pad_edge. destruct k as [|k]; [intros [= <-]; exact Hs|].
  destruct s as [|x xs]; [discriminate|]. intros E.
  assert (E' : s' = (x :: xs) ++ repeat (last xs x) (S k)) by congruence.
  subst s'. apply Forall_app. split; [exact Hs|].
  apply Forall_forall. intros y Hy. apply repeat_spec in Hy. subst y.
  inversion Hs; subst. apply last_Forall; assumption.
Qed.

Lemma align_in_unit s n s' :
  Forall in_unit s -> align s n = Ok s' -> Forall in_unit s'.
Proof.
  intros Hs. unfold align. destruct (List.length s <? n)%nat.
  - destruct (pad_edge s (n - List.length s)) as [p|] eqn:E; [|discriminate].
    intros [= <-]. apply firstn_Forall. eapply pad_edge_in_unit; eassumption.
  - intros [= <-]. apply firstn_Forall. exact Hs.
Qed.

Lemma combine_scores_bound aw mw an mn :
  0 <= aw -> 0 <= mw -> Forall in_unit an -> Forall in_unit mn ->
  Forall (fun v => 0 <= v /\ v <= aw + mw) (combine_scores aw mw an mn).
Proof.
  intros Ha Hm Han Hmn. unfold combine_scores.
  apply Forall_forall. intros v Hv. apply in_map_iff in Hv as ([x y] & <- & Hin).
  rewrite Forall_forall in Han, Hmn.
  destruct (Han x (in_combine_l _ _ _ _ Hin)) as [X0 X1].
  destruct (Hmn y (in_combine_r _ _ _ _ Hin)) as [Y0 Y1].
  cbn [fst snd]. split; nra.
Qed.

(** Whatever [detect_signal] returns is selected from a weighted sum of two
    series with values between 0 and 1. *)
Lemma detect_signal_combined fs m video_path cfg t l :
  detect_signal fs m video_path cfg = (t, Ok l) ->
  exists duration audio_norm motion_norm,
    Forall in_unit audio_norm /\ Forall in_unit motion_norm
    /\ select_peaks (detection cfg) (clip cfg) duration
         (combine_scores (get_or (audio_weight (detection cfg)) (1 # 2))
                         (get_or (motion_weight (detection cfg)) (1 # 2))
                         audio_norm motion_norm)
       = Ok l.
Proof.
  unfold detect_signal.
  destruct (negb (path_exists fs (resolve fs video_path))); [discriminate|].
  intros H.
  apply bind_ok_inv in H as (? & [ffmpeg ffprobe] & ? & _ & H & _).
  apply bind_ok_inv in H as (? & ? & ? & _ & H & _).
  destruct (get_video_info m (resolve fs video_path) ffprobe) as [[duration fps]|];
    [|discriminate].
  apply bind_ok_inv in H as (? & ? & ? & _ & H & _).
  apply bind_ok_inv in H as (? & ? & ? & _ & H & _).
  destruct (audio_rms m (resolve fs video_path) ffmpeg) as [rms|]; [|discriminate].
  apply bind_ok_inv in H as (? & audio_energy & ? & _ & H & _).
  apply bind_ok_inv in H as (? & audio_norm & ? & Ha & H & _).
  apply bind_ok_inv in H as (? & ? & ? & _ & H & _).
  apply bind_ok_inv in H as (? & ? & ? & _ & H & _).
  apply bind_ok_inv in H as (? & motion_nan & ? & _ & H & _).
  apply bind_ok_inv in H as (? & motion_scores & ? & _ & H & _).
  apply bind_ok_inv in H as (? & motion_norm & ? & Hm & H & _).
  unfold lift in H, Ha, Hm. injection H as _ H.
  injection Ha as _ Ha. injection Hm as _ Hm.
  exists duration, audio_norm, motion_norm. split; [|split; [|exact H]].
  - eapply align_in_unit; [|exact Ha]. apply normalize_scores_in_unit.
  - eapply align_in_unit; [|exact Hm]. apply normalize_scores_in_unit.
Qed.

(** X13. In a run of the signal pipeline whose scores are all numbers the
    combined score never exceeds [audio_weight + motion_weight] (for
    weights that are not negative): with [min_score] above that sum such a
    run returns no clip.  A run in which a window of motion samples is
    empty has NaN scores and is not covered: it ends with [NotANumber]
    here, and the code may return clips with a NaN score. *)
Theorem min_score_above_weights_finds_nothing
  (fs : filesystem) (m : media) (video_path : string) (cfg : config)
  (t : list action) (l : list candidate) :
  0 <= get_or (audio_weight (detection cfg)) (1 # 2) ->
  0 <= get_or (motion_weight (detection cfg)) (1 # 2) ->
  get_or (audio_weight (detection cfg)) (1 # 2)
  + get_or (motion_weight (detection cfg)) (1 # 2)
  < cfg_min_score (detection cfg) ->
  detect_signal fs m video_path cfg = (t, Ok l) ->
  l = [].
Proof.
  intros Ha Hm Hlt H.
  apply detect_signal_combined in H as (duration & an & mn & Han & Hmn & H).
  destruct l as [|c l]; [reflexivity|]. exfalso.
  destruct (@select_peaks_clip_window _ _ _ _ _ c H (or_introl eq_refl))
    as (i & Hi1 & Hi2 & _ & _ & Hs & _ & _ & _ & Hmin).
  pose proof (combine_scores_bound Ha Hm Han Hmn) as Hb.
  rewrite Forall_forall in Hb.
  destruct (Hb (c_score c)) as [_ Hub]; [rewrite Hs; apply nth_In; lia|].
  lra.
Qed.

Lemma min_score_above_weights_finds_nothing_witness : @nil candidate = [].
Proof.
  eapply (@min_score_above_weights_finds_nothing example_fs example_media
            "game.mp4"
            (mkConfig (mkDetection None None None (Some 2) None None None None)
                      (clip empty_config) (game_events empty_config) None)
            _ []).
  - vm_compute. discriminate.
  - vm_compute. discriminate.
  - vm_compute. reflexivity.
  - vm_compute. reflexivity.
Defined.

(** ** Audio energy: when it fails, what it averages *)

Lemma py_int_zero x : py_int x = 0%Z <-> -1 < x /\ x < 1.
Proof.
  unfold py_int. destruct (Qltb_spec x 0) as [Hneg|Hpos].
  - pose proof (Qle_ceiling x) as Hc. pose proof (Qceiling_lt x) as Hl.
    split.
    + intros E. rewrite E in Hl. change (inject_Z (0 - 1)) with (-1) in Hl.
      split; lra.
    + intros [H1 _].
      assert (Hhi : (Qceiling x <= 0)%Z).
      { change 0%Z with (Qceiling 0). apply Qceiling_resp_le. lra. }
      assert (Hlo : (-1 < Qceiling x)%Z).
      { rewrite Zlt_Qlt. change (inject_Z (-1)) with (-1). lra. }
      lia.
  - pose proof (Qfloor_le x) as Hf. pose proof (Qlt_floor x) as Hl.
    split.
    + intros E. rewrite E in Hl. change (inject_Z (0 + 1)) with 1 in Hl.
      split; lra.
    + intros [_ H1].
      assert (Hlo : (0 <= Qfloor x)%Z).
      { change 0%Z with (Qfloor 0). apply Qfloor_resp_le. exact Hpos. }
      assert (Hhi : (Qfloor x < 1)%Z).
      { rewrite Zlt_Qlt. change (inject_Z 1) with 1. lra. }
      lia.
Qed.

(** X14. [compute_audio_energy] fails exactly when [window_seconds] lies
    strictly between -0.5 and 0.5, whatever the series, and then with
    [ZeroDivisionError]; for every other window length it returns. *)
Theorem compute_audio_energy_raises_iff
  (rms : list Q) (window_seconds : Q) (e : exn) :
  compute_audio_energy rms window_seconds = Raise e
  <-> e = ZeroDivisionError
      /\ - (1 # 2) < window_seconds /\ window_seconds < 1 # 2.
Proof.
  unfold compute_audio_energy.
  destruct (Z.eqb_spec (py_int (window_seconds * 2)) 0) as [E|E].
  - apply py_int_zero in E as [H1 H2].
    split; [intros [= <-] | intros [-> _]; reflexivity].
    split; [reflexivity | split; lra].
  - split.
    + destruct (_ >=? _)%Z; discriminate.
    + intros (_ & H1 & H2). exfalso. apply E. apply py_int_zero. split; lra.
Qed.

Lemma firstn_slice {A} (l : list A) a b :
  (a <= b)%nat -> firstn a l ++ slice l a b = firstn b l.
Proof.
  unfold slice. revert l b. induction a as [|a IH]; intros l b Hab.
  - cbn. rewrite Nat.sub_0_r. reflexivity.
  - destruct b as [|b]; [lia|]. destruct l as [|x l]; [cbn; rewrite firstn_nil; reflexivity|].
    cbn [firstn skipn app Nat.sub]. f_equal. apply IH. lia.
Qed.

(** Slices between the successive values of a boundary sequence that starts
    at 0 and does not decrease put the list back together. *)
Lemma concat_slices {A} (l : list A) (bound : nat -> nat) n :
  bound 0%nat = 0%nat ->
  (forall i, (i < n)%nat -> (bound i <= bound (S i))%nat) ->
  concat (map (fun i => slice l (bound i) (bound (S i))) (seq 0 n))
  = firstn (bound n) l.
Proof.
  intros H0. induction n as [|n IH]; intros Hmono.
  - cbn. rewrite H0. reflexivity.
  - rewrite seq_S, map_app, concat_app. cbn [map concat Nat.add].
    rewrite app_nil_r, IH by (intros i Hi; apply Hmono; lia).
    apply firstn_slice. apply Hmono. lia.
Qed.

Lemma audio_buckets_concat rms n :
  (1 <= n)%nat -> concat (audio_buckets rms n) = rms.
Proof.
  intros Hn. unfold audio_buckets.
  rewrite (map_ext _ (fun i => slice rms ((fun i => i * List.length rms / n)%nat i)
                                        ((fun i => i * List.length rms / n)%nat (S i)))).
  - rewrite concat_slices.
    + cbv beta. rewrite (Nat.mul_comm n), Nat.div_mul by lia. apply firstn_all.
    + cbv beta. rewrite Nat.mul_0_l. apply Nat.Div0.div_0_l.
    + intros i _. cbv beta. apply Nat.Div0.div_le_mono. nia.
  - intros i. cbv beta. rewrite Nat.add_1_r. reflexivity.
Qed.

Lemma audio_buckets_nonempty rms n :
  (1 <= n)%nat -> (n <= List.length rms)%nat ->
  Forall (fun b => b <> []) (audio_buckets rms n).
Proof.
  intros Hn Hlen. unfold audio_buckets. apply Forall_forall.
  intros b Hb. apply in_map_iff in Hb as (i & <- & Hi). apply in_seq in Hi.
  set (len := List.length rms) in *.
  assert (Hstep : (i * len / n + 1 <= (i + 1) * len / n)%nat).
  { replace ((i + 1) * len)%nat with (i * len + len)%nat by lia.
    rewrite <- (Nat.div_add (i * len) 1 n) by lia.
    apply Nat.Div0.div_le_mono. lia. }
  assert (Hin : (i * len / n < len)%nat).
  { apply Nat.Div0.div_lt_upper_bound. nia. }
  intros E. apply (f_equal (@List.length Q)) in E. unfold slice in E.
  rewrite List.length_firstn, List.length_skipn in E. cbn [List.length] in E.
  fold len in E. lia.
Qed.

(** X15. When [compute_audio_energy] downsamples (a window of at least
    half a second, fewer windows than hops), it cuts the hop series into
    consecutive runs, none of them empty, that together are the whole
    series, and returns the mean of each run: no hop is dropped or counted
    twice, and no mean is taken over nothing. *)
Theorem compute_audio_energy_partitions
  (rms : list Q) (window_seconds : Q) :
  1 # 2 <= window_seconds ->
  let n_windows :=
    Z.max 1 (Z.of_nat (List.length rms) / py_int (window_seconds * 2)) in
  (n_windows < Z.of_nat (List.length rms))%Z ->
  exists buckets,
    compute_audio_energy rms window_seconds = Ok (map np_mean buckets)
    /\ Z.of_nat (List.length buckets) = n_windows
    /\ concat buckets = rms
    /\ Forall (fun b => b <> []) buckets.
Proof.
  intros Hws. cbv zeta. intros Hlt.
  exists (audio_buckets rms
            (Z.to_nat (Z.max 1 (Z.of_nat (List.length rms)
                                / py_int (window_seconds * 2))))).
  split; [|split; [|split]].
  - unfold compute_audio_energy.
    destruct (Z.eqb_spec (py_int (window_seconds * 2)) 0) as [E|_].
    { apply py_int_zero in E. lra. }
    destruct (Z.geb_spec (Z.max 1 (Z.of_nat (List.length rms)
                                   / py_int (window_seconds * 2)))
                         (Z.of_nat (List.length rms))); [lia|].
    unfold audio_buckets. rewrite map_map. reflexivity.
  - unfold audio_buckets. rewrite List.length_map, List.length_seq. lia.
  - apply audio_buckets_concat. lia.
  - apply audio_buckets_nonempty; lia.
Qed.

Lemma compute_audio_energy_partitions_witness :
  exists buckets,
    compute_audio_energy [1; 2; 3; 4; 5; 6; 7; 8; 9] 2 = Ok (map np_mean buckets)
    /\ Z.of_nat (List.length buckets) = 2%Z
    /\ concat buckets = [1; 2; 3; 4; 5; 6; 7; 8; 9]
    /\ Forall (fun b => b <> []) buckets.
Proof.
  apply (@compute_audio_energy_partitions [1; 2; 3; 4; 5; 6; 7; 8; 9] 2).
  - discriminate.
  - reflexivity.
Defined.

(** ** Motion scores: how many, and when *)

Lemma py_int_quotient_nonneg duration window_seconds :
  0 <= duration -> 0 < window_seconds ->
  (0 <= py_int (duration / window_seconds))%Z.
Proof.
  intros Hd Hw.
  assert (H : 0 <= duration / window_seconds).
  { apply Qle_shift_div_l; [exact Hw | lra]. }
  rewrite (py_int_nonneg H). change 0%Z with (Qfloor 0).
  apply Qfloor_resp_le. exact H.
Qed.

(** A window mean is NaN exactly when the window starts at or after the
    end of the samples. *)
Lemma window_mean_none (motions : list Q) (a b : nat) :
  (a < b)%nat ->
  (window_mean (slice motions a (Nat.min b (List.length motions))) = None
   <-> (List.length motions <= a)%nat).
Proof.
  intros Hab. unfold window_mean, slice.
  set (w := firstn _ _).
  assert (Hlen : List.length w
                 = Nat.min (Nat.min b (List.length motions) - a)
                           (List.length motions - a)).
  { unfold w. rewrite length_firstn, length_skipn. reflexivity. }
  destruct w as [|x w]; cbn [List.length] in Hlen.
  - split; [intros _; lia | reflexivity].
  - split; [discriminate | intros H; lia].
Qed.

(** With two samples at least, some window is empty exactly when there
    are more windows than samples. *)
Lemma empty_motion_window (motions : list Q) (n_windows : nat) :
  (1 <= n_windows)%nat ->
  let len := List.length motions in
  let window_size := Nat.max 1 (len / n_windows) in
  In None (map (fun i => window_mean (slice motions (i * window_size)
                                        (Nat.min ((i + 1) * window_size) len)))
               (seq 0 n_windows))
  <-> (len < n_windows)%nat.
Proof.
  intros Hn. cbv zeta.
  set (len := List.length motions). set (ws := Nat.max 1 (len / n_windows)).
  assert (Hws : (1 <= ws)%nat) by (unfold ws; lia).
  rewrite in_map_iff. split.
  - intros (i & Hi & Hin). apply in_seq in Hin.
    apply window_mean_none in Hi; [|nia]. fold len in Hi.
    destruct (Nat.lt_ge_cases len n_windows) as [Hlt|Hge]; [exact Hlt|].
    exfalso.
    assert (Hq : (1 <= len / n_windows)%nat)
      by (apply Nat.div_le_lower_bound; lia).
    assert (Hm : (n_windows * (len / n_windows) <= len)%nat)
      by (apply Nat.Div0.mul_div_le).
    assert (E : ws = (len / n_windows)%nat) by (unfold ws; lia).
    rewrite E in Hi. nia.
  - intros Hlt. exists len. split.
    + apply window_mean_none; [nia|]. fold len.
      assert (E : (len / n_windows = 0)%nat) by (apply Nat.div_small; exact Hlt).
      unfold ws. rewrite E. cbn. lia.
    + apply in_seq. lia.
Qed.

(** X16. For a duration that is not negative and a positive window length
    [compute_motion_scores] returns, and never an empty series: a capture
    that cannot be opened gives [int(duration / window_seconds) + 1] zeros;
    fewer than two frame differences give the single score 0; otherwise
    there are [max(1, int(duration / window_seconds))] scores, however many
    frames were sampled, and one of them is NaN exactly when there are
    fewer frame differences than windows. *)
Theorem compute_motion_scores_returns
  (motions : option (list Q)) (duration window_seconds : Q) :
  0 <= duration -> 0 < window_seconds ->
  let windows := Z.to_nat (py_int (duration / window_seconds)) in
  exists out,
    compute_motion_scores motions duration window_seconds = Ok out
    /\ out <> []
    /\ match motions with
       | None => out = repeat (Some 0) (S windows)
       | Some ms =>
           if (List.length ms <? 2)%nat then out = [Some 0]
           else List.length out = Nat.max 1 windows
                /\ (In None out <-> (List.length ms < Nat.max 1 windows)%nat)
       end.
Proof.
  intros Hd Hw. cbv zeta.
  pose proof (py_int_quotient_nonneg Hd Hw) as Hp.
  assert (Hw0 : Qeq_bool window_seconds 0 = false).
  { destruct (Qeq_bool window_seconds 0) eqn:E; [|reflexivity].
    apply Qeq_bool_iff in E. lra. }
  unfold compute_motion_scores. destruct motions as [ms|].
  - destruct (List.length ms <? 2)%nat.
    + exists [Some 0]. repeat split. discriminate.
    + rewrite Hw0. eexists. split; [reflexivity|].
      assert (L : forall (f : nat -> option Q) n,
                 List.length (map f (seq 0 n)) = n)
        by (intros; rewrite List.length_map, List.length_seq; reflexivity).
      assert (En : Z.to_nat (Z.max 1 (py_int (duration / window_seconds)))
                   = Nat.max 1 (Z.to_nat (py_int (duration / window_seconds))))
        by lia.
      rewrite En. split; [|split].
      * intros E. apply (f_equal (@List.length (option Q))) in E. rewrite L in E.
        cbn [List.length] in E. lia.
      * apply L.
      * apply empty_motion_window. lia.
  - rewrite Hw0.
    destruct (Z.ltb_spec (py_int (duration / window_seconds) + 1) 0); [lia|].
    exists (map Some (zeros (py_int (duration / window_seconds) + 1))).
    assert (E : map Some (zeros (py_int (duration / window_seconds) + 1))
                = repeat (Some 0)
                         (S (Z.to_nat (py_int (duration / window_seconds))))).
    { unfold zeros. rewrite map_repeat. f_equal. lia. }
    rewrite E. repeat split. discriminate.
Qed.

Lemma compute_motion_scores_returns_witness :
  exists out,
    compute_motion_scores (Some [1; 2; 3; 4; 5; 6; 7]) 12 4 = Ok out
    /\ out <> []
    /\ List.length out = Nat.max 1 (Z.to_nat (py_int (12 / 4)))
    /\ (In None out <-> (7 < Nat.max 1 (Z.to_nat (py_int (12 / 4))))%nat).
Proof.
  apply (@compute_motion_scores_returns (Some [1; 2; 3; 4; 5; 6; 7]) 12 4);
    [discriminate | reflexivity].
Defined.

(** ** Score normaliser: extremes, order, changes of scale *)

Lemma Forall2_Qeq_refl l : Forall2 Qeq l l.
Proof. induction l; constructor; [reflexivity | assumption]. Qed.

Lemma Forall2_map_both {A B C} (R : B -> C -> Prop) (f : A -> B) (g : A -> C) l :
  (forall x, In x l -> R (f x) (g x)) -> Forall2 R (map f l) (map g l).
Proof.
  induction l as [|a l IH]; cbn [map]; intros H; constructor.
  - apply H. left. reflexivity.
  - apply IH. intros x Hx. apply H. right. exact Hx.
Qed.

Lemma nonconstant_extremes s :
  ~ constant_series s ->
  exists mn mx,
    np_min s = Some mn /\ np_max s = Some mx /\ mn < mx
    /\ normalize_scores s = map (fun x => (x - mn) / (mx - mn)) s.
Proof.
  intros Hnc.
  assert (Hs : s <> []) by (intros ->; apply Hnc; intros a b []).
  destruct (np_min_some Hs) as (mn & Hmn), (np_max_some Hs) as (mx & Hmx).
  pose proof (np_min_is_min _ Hmn) as Imn. pose proof (np_max_is_max _ Hmx) as Imx.
  pose proof (min_lt_max_of_nonconstant Imn Imx Hnc) as Hne.
  exists mn, mx. repeat split; try assumption.
  - destruct Imn as [(x & Hx & Ex) Hall]. destruct Imx as [(y & Hy & Ey) Hall'].
    rewrite Forall_forall in Hall'. specialize (Hall' x Hx).
    destruct (Qlt_le_dec mn mx) as [L|L]; [exact L|].
    exfalso. apply Hne. lra.
  - apply normalize_scores_rescale; assumption.
Qed.

(** X17. On a series that is not constant, [normalize_scores] sends a
    minimum to 0 and a maximum to 1, both attained, and keeps the order of
    the values: a window that scores at most as much as another before
    normalising scores at most as much after. *)
Theorem normalize_scores_keeps_order (s : list Q) :
  ~ constant_series s ->
  (exists y, In y (normalize_scores s) /\ y == 0)
  /\ (exists y, In y (normalize_scores s) /\ y == 1)
  /\ forall i j,
      (i < List.length s)%nat -> (j < List.length s)%nat ->
      nth i s 0 <= nth j s 0 ->
      nth i (normalize_scores s) 0 <= nth j (normalize_scores s) 0.
Proof.
  intros Hnc. destruct (nonconstant_extremes Hnc) as (mn & mx & Hmn & Hmx & Hlt & ->).
  set (f := fun x => (x - mn) / (mx - mn)).
  assert (Hd : ~ mx - mn == 0) by lra.
  split; [|split].
  - apply np_min_spec in Hmn as [Hin _]. exists (f mn).
    split; [apply in_map; exact Hin | unfold f; field; exact Hd].
  - apply np_max_spec in Hmx as [Hin _]. exists (f mx).
    split; [apply in_map; exact Hin | unfold f; field; exact Hd].
  - intros i j Hi Hj Hle.
    rewrite (nth_indep _ 0 (f 0)), (nth_indep (map f s) 0 (f 0))
      by (rewrite List.length_map; assumption).
    rewrite !map_nth. unfold f, Qdiv.
    apply Qmult_le_compat_r; [lra|].
    apply Qlt_le_weak. apply Qinv_lt_0_compat. lra.
Qed.

Lemma normalize_scores_keeps_order_witness :
  (exists y, In y (normalize_scores [1 # 4; 3 # 4; 1 # 2]) /\ y == 0)
  /\ (exists y, In y (normalize_scores [1 # 4; 3 # 4; 1 # 2]) /\ y == 1)
  /\ forall i j,
      (i < 3)%nat -> (j < 3)%nat ->
      nth i [1 # 4; 3 # 4; 1 # 2] 0 <= nth j [1 # 4; 3 # 4; 1 # 2] 0 ->
      nth i (normalize_scores [1 # 4; 3 # 4; 1 # 2]) 0
      <= nth j (normalize_scores [1 # 4; 3 # 4; 1 # 2]) 0.
Proof.
  apply (@normalize_scores_keeps_order [1 # 4; 3 # 4; 1 # 2]).
  intros H. specialize (H (1 # 4) (3 # 4)). cbn [In] in H.
  assert (E : 1 # 4 == 3 # 4) by (apply H; auto).
  discriminate E.
Defined.

Lemma is_min_affine a b mn s :
  0 < a -> is_min mn s -> is_min (a * mn + b) (map (fun x => a * x + b) s).
Proof.
  intros Ha [(x & Hx & Ex) Hall]. split.
  - exists (a * x + b).
    split; [apply in_map_iff; exists x; split; [reflexivity | exact Hx]
           | rewrite Ex; reflexivity].
  - apply Forall_forall. intros y Hy. apply in_map_iff in Hy as (z & <- & Hz).
    rewrite Forall_forall in Hall. specialize (Hall z Hz). nra.
Qed.

Lemma is_max_affine a b mx s :
  0 < a -> is_max mx s -> is_max (a * mx + b) (map (fun x => a * x + b) s).
Proof.
  intros Ha [(x & Hx & Ex) Hall]. split.
  - exists (a * x + b).
    split; [apply in_map_iff; exists x; split; [reflexivity | exact Hx]
           | rewrite Ex; reflexivity].
  - apply Forall_forall. intros y Hy. apply in_map_iff in Hy as (z & <- & Hz).
    rewrite Forall_forall in Hall. specialize (Hall z Hz). nra.
Qed.

(** X18. [normalize_scores] does not see a change of scale or of origin:
    multiplying every value by a positive constant and adding a constant
    gives the same normalised series. *)
Theorem normalize_scores_affine (s : list Q) (a b : Q) :
  0 < a ->
  Forall2 Qeq (normalize_scores (map (fun x => a * x + b) s)) (normalize_scores s).
Proof.
  intros Ha. destruct s as [|x0 s0]; [constructor|].
  set (s := x0 :: s0). set (f := fun x => a * x + b).
  assert (Hs : s <> []) by discriminate.
  assert (Hfs : map f s <> []) by discriminate.
  destruct (np_min_some Hs) as (mn & Hmn), (np_max_some Hs) as (mx & Hmx).
  destruct (np_min_some Hfs) as (mn' & Hmn'), (np_max_some Hfs) as (mx' & Hmx').
  assert (Emn : mn' == a * mn + b).
  { eapply is_min_unique; [apply np_min_is_min; exact Hmn'|].
    apply is_min_affine; [exact Ha | apply np_min_is_min; exact Hmn]. }
  assert (Emx : mx' == a * mx + b).
  { eapply is_max_unique; [apply np_max_is_max; exact Hmx'|].
    apply is_max_affine; [exact Ha | apply np_max_is_max; exact Hmx]. }
  unfold normalize_scores. rewrite Hmn, Hmx, Hmn', Hmx'.
  destruct (Qeq_bool mx mn) eqn:E.
  - apply Qeq_bool_iff in E.
    assert (E' : Qeq_bool mx' mn' = true).
    { apply Qeq_bool_iff. rewrite Emn, Emx, E. reflexivity. }
    rewrite E'. unfold zeros_like. rewrite map_map. apply Forall2_Qeq_refl.
  - apply Qeq_bool_neq in E.
    assert (E' : Qeq_bool mx' mn' = false).
    { destruct (Qeq_bool mx' mn') eqn:E2; [|reflexivity].
      apply Qeq_bool_iff in E2. rewrite Emn, Emx in E2.
      exfalso. apply E. nra. }
    rewrite E', map_map. apply Forall2_map_both. intros x _.
    unfold f. rewrite Emn, Emx. field. split; intros H; apply E; nra.
Qed.

Lemma normalize_scores_affine_witness :
  Forall2 Qeq (normalize_scores (map (fun x => 3 * x + 5) [1 # 4; 3 # 4; 1 # 2]))
              (normalize_scores [1 # 4; 3 # 4; 1 # 2]).
Proof.
  apply (@normalize_scores_affine [1 # 4; 3 # 4; 1 # 2] 3 5). reflexivity.
Defined.

(** ** Looking for ffmpeg *)

Lemma find_installed_raises fs e :
  find_installed fs = Raise e
  <-> e = FileNotFoundError
      /\ forall folder, In folder (install_folders fs) ->
                        holds_ffmpeg fs folder = false.
Proof.
  unfold find_installed.
  change (fun folder : string =>
            path_exists fs folder
            && path_exists fs (executable_in fs folder "ffmpeg")
            && path_exists fs (executable_in fs folder "ffprobe"))
    with (holds_ffmpeg fs).
  destruct (find (holds_ffmpeg fs) (install_folders fs)) as [folder|] eqn:E.
  - split; [discriminate|]. intros [_ H].
    apply find_some in E as [Hin Hh]. rewrite (H folder Hin) in Hh. discriminate.
  - split.
    + intros [= <-]. split; [reflexivity|]. intros folder Hin.
      exact (find_none _ _ E folder Hin).
    + intros [-> _]. reflexivity.
Qed.

Lemma find_first {A} (f : A -> bool) (before : list A) (x : A) (after : list A) :
  (forall y, In y before -> f y = false) -> f x = true ->
  find f (before ++ x :: after) = Some x.
Proof.
  intros Hb Hx. induction before as [|y before IH]; cbn [app find].
  - rewrite Hx. reflexivity.
  - rewrite (Hb y (or_introl eq_refl)). apply IH.
    intros z Hz. apply Hb. right. exact Hz.
Qed.

Lemma find_installed_first fs before folder after :
  install_folders fs = before ++ folder :: after ->
  (forall f, In f before -> holds_ffmpeg fs f = false) ->
  holds_ffmpeg fs folder = true ->
  find_installed fs
  = Ok (executable_in fs folder "ffmpeg", executable_in fs folder "ffprobe").
Proof.
  intros E Hb Hf. unfold find_installed.
  change (fun folder : string =>
            path_exists fs folder
            && path_exists fs (executable_in fs folder "ffmpeg")
            && path_exists fs (executable_in fs folder "ffprobe"))
    with (holds_ffmpeg fs).
  rewrite E, (find_first (holds_ffmpeg fs) before folder after Hb Hf).
  reflexivity.
Qed.

Lemma _get_ffmpeg_bin_eq fs cfg :
  _get_ffmpeg_bin fs cfg
  = let folder := Str.strip (get_or (ffmpeg_path cfg) EmptyString) in
    if negb (String.eqb folder EmptyString) && path_exists fs folder
    then Ok (executable_in fs folder "ffmpeg", executable_in fs folder "ffprobe")
    else match on_path fs with
         | Some bins => Ok bins
         | None => find_installed fs
         end.
Proof.
  unfold _get_ffmpeg_bin, on_path. cbv zeta.
  destruct (negb _ && path_exists fs _); [reflexivity|].
  destruct (which fs "ffmpeg") as [f|]; [|reflexivity].
  destruct (which fs "ffprobe") as [p|]; [|reflexivity].
  destruct (negb (String.eqb f EmptyString) && negb (String.eqb p EmptyString));
    reflexivity.
Qed.

(** X19. [_get_ffmpeg_bin] takes the configured folder when it is not
    blank and exists, without looking for the executables in it; otherwise
    the pair found on PATH; otherwise the two executables of the first
    usual install folder, in the order of the list, that exists and holds
    both.  It fails, with [FileNotFoundError], exactly when all three are
    missing. *)
Theorem ffmpeg_lookup_order (fs : filesystem) (cfg : config) :
  let folder := Str.strip (get_or (ffmpeg_path cfg) EmptyString) in
  (folder <> EmptyString -> path_exists fs folder = true ->
   _get_ffmpeg_bin fs cfg
   = Ok (executable_in fs folder "ffmpeg", executable_in fs folder "ffprobe"))
  /\ (forall bins,
        (folder = EmptyString \/ path_exists fs folder = false) ->
        on_path fs = Some bins -> _get_ffmpeg_bin fs cfg = Ok bins)
  /\ (forall before installed after,
        (folder = EmptyString \/ path_exists fs folder = false) ->
        on_path fs = None ->
        install_folders fs = before ++ installed :: after ->
        (forall f, In f before -> holds_ffmpeg fs f = false) ->
        holds_ffmpeg fs installed = true ->
        _get_ffmpeg_bin fs cfg
        = Ok (executable_in fs installed "ffmpeg",
              executable_in fs installed "ffprobe"))
  /\ (forall e,
        _get_ffmpeg_bin fs cfg = Raise e
        <-> e = FileNotFoundError
            /\ (folder = EmptyString \/ path_exists fs folder = false)
            /\ on_path fs = None
            /\ forall f, In f (install_folders fs) -> holds_ffmpeg fs f = false).
Proof.
  cbv zeta. rewrite _get_ffmpeg_bin_eq. cbv zeta.
  set (folder := Str.strip (get_or (ffmpeg_path cfg) EmptyString)).
  assert (Hcfg : negb (String.eqb folder EmptyString) && path_exists fs folder = false
                 <-> folder = EmptyString \/ path_exists fs folder = false).
  { destruct (String.eqb_spec folder EmptyString) as [E|E]; cbn [negb andb].
    - split; auto.
    - split; [auto | intros [H|H]; [contradiction | exact H]]. }
  split; [|split; [|split]].
  - intros Hne Hex. rewrite Hex.
    destruct (String.eqb_spec folder EmptyString); [contradiction | reflexivity].
  - intros bins Hno Hpath. apply Hcfg in Hno. rewrite Hno, Hpath. reflexivity.
  - intros before installed after Hno Hpath E Hb Hi. apply Hcfg in Hno.
    rewrite Hno, Hpath. exact (@find_installed_first fs before installed after E Hb Hi).
  - intros e.
    destruct (negb (String.eqb folder EmptyString) && path_exists fs folder) eqn:Hc.
    + split; [discriminate|]. intros (_ & Hno & _).
      apply Hcfg in Hno. discriminate.
    + destruct (on_path fs) as [bins|].
      * split; [discriminate | intros (_ & _ & H & _); discriminate].
      * rewrite find_installed_raises. split.
        -- intros [-> H]. repeat split; [apply Hcfg; reflexivity | exact H].
        -- intros (-> & _ & _ & H). split; [reflexivity | exact H].
Qed.

(** ** Orchestrator: what it calls, and when *)

Lemma try_events_prints fs video_path cfg events_file :
  exists msgs r,
    try_events fs video_path cfg events_file = (msgs, r)
    /\ media_calls msgs = [].
Proof.
  unfold try_events.
  destruct (truthy (ge_enabled (game_events cfg)) true);
    [|exists [], (Ok None); split; reflexivity].
  destruct (truthy (prefer_events_over_ai (game_events cfg)) true);
    [|exists [], (Ok None); split; reflexivity].
  destruct (load_highlights_from_events fs _ video_path cfg) as [[[|c cs]|]|e];
    unfold lift; [rewrite bind_ok..|rewrite bind_raise];
    try destruct (path_exists fs _);
    eexists; eexists; split; reflexivity.
Qed.

Lemma media_calls_app t1 t2 : media_calls (t1 ++ t2) = media_calls t1 ++ media_calls t2.
Proof. apply filter_app. Qed.

Lemma detect_signal_media_calls fs m video_path cfg :
  let v := resolve fs video_path in
  exists rest,
    media_calls (fst (detect_signal fs m video_path cfg)) ++ rest
    = [ProbeVideo v; ExtractAudio v; ReadFrames v].
Proof.
  cbv zeta. unfold detect_signal.
  destruct (negb (path_exists fs (resolve fs video_path))); [eexists; reflexivity|].
  destruct (_get_ffmpeg_bin fs cfg) as [[ffmpeg ffprobe]|]; [|eexists; reflexivity].
  unfold lift at 1. rewrite bind_ok. cbn beta iota. cbn [fst snd app].
  unfold emit at 1. rewrite bind_ok. cbn beta iota. cbn [fst snd app].
  destruct (get_video_info m (resolve fs video_path) ffprobe) as [[duration fps]|];
    [|eexists; reflexivity].
  unfold emit at 1. rewrite bind_ok. cbn beta iota.
  unfold emit at 1. rewrite bind_ok. cbn beta iota.
  destruct (audio_rms m (resolve fs video_path) ffmpeg) as [rms|];
    [|eexists; reflexivity].
  destruct (compute_audio_energy rms _) as [audio_energy|]; [|eexists; reflexivity].
  unfold lift at 1. rewrite bind_ok. cbn beta iota.
  destruct (align (normalize_scores audio_energy) _) as [audio_norm|];
    [|eexists; reflexivity].
  unfold lift at 1. rewrite bind_ok. cbn beta iota.
  unfold emit at 1. rewrite bind_ok. cbn beta iota.
  unfold emit at 1. rewrite bind_ok. cbn beta iota.
  destruct (compute_motion_scores _ duration _) as [motion_nan|];
    [|exists []; reflexivity].
  unfold lift at 1. rewrite bind_ok. cbn beta iota.
  destruct (numbers motion_nan) as [motion_scores|];
    [|exists []; reflexivity].
  unfold lift at 1. rewrite bind_ok. cbn beta iota.
  destruct (align (normalize_scores motion_scores) _) as [motion_norm|];
    [|exists []; reflexivity].
  unfold lift at 1. rewrite bind_ok. cbn beta iota.
  exists []. reflexivity.
Qed.

(** X20. Whatever the configuration, the files and the media backend,
    [detect_highlights] calls the media backend in one order, each step at
    most once and only after the one before: probe the video, extract the
    audio, read the frames, all on the resolved video path.  The calls made
    in a run are a beginning of that sequence. *)
Theorem media_calls_in_order
  (fs : filesystem) (m : media) (video_path : string) (cfg : config)
  (events_file : option string) :
  exists rest,
    media_calls (fst (detect_highlights fs m video_path (Some cfg) events_file))
    ++ rest
    = [ProbeVideo (resolve fs video_path); ExtractAudio (resolve fs video_path);
       ReadFrames (resolve fs video_path)].
Proof.
  rewrite detect_highlights_unfold.
  destruct (try_events_prints fs video_path cfg events_file) as (msgs & r & -> & Hm).
  destruct r as [[hl|]|e].
  - rewrite bind_ok. cbn [fst]. rewrite media_calls_app, Hm. cbn [app].
    eexists. reflexivity.
  - rewrite bind_ok. cbn [fst]. rewrite media_calls_app, Hm. cbn [app].
    apply detect_signal_media_calls.
  - rewrite bind_raise. cbn [fst]. rewrite Hm. eexists. reflexivity.
Qed.

(** X21. When the video file does not exist, [detect_highlights] makes no
    call to the media backend.  It raises [FileNotFoundError], unless the
    event selector has clips to offer, which are returned even so, or
    raises itself. *)
Theorem missing_video_is_reported_first
  (fs : filesystem) (m : media) (video_path : string) (cfg : config)
  (events_file : option string) :
  path_exists fs (resolve fs video_path) = false ->
  media_calls (fst (detect_highlights fs m video_path (Some cfg) events_file)) = []
  /\ (snd (detect_highlights fs m video_path (Some cfg) events_file)
      = Raise FileNotFoundError
      \/ (exists c cs,
            snd (detect_highlights fs m video_path (Some cfg) events_file)
            = Ok (c :: cs)
            /\ load_highlights_from_events fs
                 (resolve_events_path fs video_path cfg events_file)
                 video_path cfg
               = Ok (Some (c :: cs)))
      \/ (exists e,
            snd (detect_highlights fs m video_path (Some cfg) events_file)
            = Raise e
            /\ load_highlights_from_events fs
                 (resolve_events_path fs video_path cfg events_file)
                 video_path cfg
               = Raise e)).
Proof.
  intros Hmiss.
  assert (Hsig : detect_signal fs m video_path cfg = ([], Raise FileNotFoundError)).
  { unfold detect_signal. rewrite Hmiss. reflexivity. }
  rewrite detect_highlights_unfold.
  destruct (try_events fs video_path cfg events_file) as [msgs r] eqn:E.
  destruct (try_events_prints fs video_path cfg events_file) as (msgs' & r' & E' & Hm).
  rewrite E in E'. injection E' as -> ->.
  destruct r' as [[hl|]|e].
  - rewrite bind_ok. cbn [fst snd]. rewrite media_calls_app, Hm. cbn [app].
    split; [reflexivity|]. right. left.
    apply try_events_some in E as (Hl & Hne & _).
    destruct hl as [|c cs]; [congruence|].
    exists c, cs. split; [reflexivity | exact Hl].
  - rewrite bind_ok. cbn [fst snd]. rewrite media_calls_app, Hm. cbn [app].
    rewrite Hsig. split; [reflexivity | left; reflexivity].
  - rewrite bind_raise. cbn [fst snd]. split; [exact Hm|]. right. right.
    exists e. split; [reflexivity|].
    apply try_events_raise in E. exact E.
Qed.

Lemma missing_video_is_reported_first_witness :
  media_calls (fst (detect_highlights missing_fs example_media "game.mp4"
                      (Some empty_config) None)) = []
  /\ (snd (detect_highlights missing_fs example_media "game.mp4"
             (Some empty_config) None)
      = Raise FileNotFoundError
      \/ (exists c cs,
            snd (detect_highlights missing_fs example_media "game.mp4"
                   (Some empty_config) None)
            = Ok (c :: cs)
            /\ load_highlights_from_events missing_fs
                 (resolve_events_path missing_fs "game.mp4" empty_config None)
                 "game.mp4" empty_config
               = Ok (Some (c :: cs)))
      \/ (exists e,
            snd (detect_highlights missing_fs example_media "game.mp4"
                   (Some empty_config) None)
            = Raise e
            /\ load_highlights_from_events missing_fs
                 (resolve_events_path missing_fs "game.mp4" empty_config None)
                 "game.mp4" empty_config
               = Raise e)).
Proof.
  apply (@missing_video_is_reported_first missing_fs example_media "game.mp4"
           empty_config None).
  reflexivity.
Defined.

(** X22. With [game_events.enabled] off, or [prefer_events_over_ai] off,
    [detect_highlights] is the signal pipeline and nothing else: it prints
    nothing about events, and what a log file holds, or when the video was
    created, makes no difference to what it does and returns. *)
Theorem events_off_is_signal_only
  (fs : filesystem) (m : media) (video_path : string) (cfg : config)
  (events_file : option string) :
  truthy (ge_enabled (game_events cfg)) true = false
  \/ truthy (prefer_events_over_ai (game_events cfg)) true = false ->
  detect_highlights fs m video_path (Some cfg) events_file
  = detect_signal fs m video_path cfg
  /\ forall read ctime,
       detect_highlights (replace_event_log fs read ctime) m video_path
                         (Some cfg) events_file
       = detect_highlights fs m video_path (Some cfg) events_file.
Proof.
  intros Hoff.
  assert (Hsig : forall fs', detect_highlights fs' m video_path (Some cfg) events_file
                             = detect_signal fs' m video_path cfg).
  { intros fs'. rewrite detect_highlights_unfold.
    assert (E : try_events fs' video_path cfg events_file = ([], Ok None)).
    { unfold try_events. destruct Hoff as [-> | ->]; [reflexivity|].
      destruct (truthy (ge_enabled (game_events cfg)) true); reflexivity. }
    rewrite E, bind_ok. cbn [app]. symmetry. apply surjective_pairing. }
  split; [apply Hsig|].
  intros read ctime. rewrite !Hsig. reflexivity.
Qed.

Lemma events_off_is_signal_only_witness :
  detect_highlights example_fs example_media "game.mp4"
                    (Some events_not_preferred) None
  = detect_signal example_fs example_media "game.mp4" events_not_preferred
  /\ forall read ctime,
       detect_highlights (replace_event_log example_fs read ctime) example_media
                         "game.mp4" (Some events_not_preferred) None
       = detect_highlights example_fs example_media "game.mp4"
                           (Some events_not_preferred) None.
Proof.
  apply (@events_off_is_signal_only example_fs example_media "game.mp4"
           events_not_preferred None).
  right. reflexivity.
Defined.

(** * Clip extraction *)

(** ** File names *)

Lemma string_length_append (a b : string) :
  String.length (a ++ b) = (String.length a + String.length b)%nat.
Proof. induction a as [|c a IH]; cbn; [reflexivity | rewrite IH; reflexivity]. Qed.

Lemma string_append_inv_l (s a b : string) : (s ++ a = s ++ b)%string -> a = b.
Proof.
  induction s as [|c s IH]; cbn; intros H; [exact H|].
  injection H as H. apply IH. exact H.
Qed.

Lemma string_append_inv_r (t a b : string) : (a ++ t = b ++ t)%string -> a = b.
Proof.
  revert b. induction a as [|c a IH]; intros b H.
  - destruct b as [|d b]; [reflexivity|].
    apply (f_equal String.length) in H. cbn in H.
    rewrite string_length_append in H. lia.
  - destruct b as [|d b].
    + apply (f_equal String.length) in H. cbn in H.
      rewrite string_length_append in H. lia.
    + cbn in H. injection H as -> H. f_equal. apply IH. exact H.
Qed.

Lemma string_of_uint_inj d d' :
  NilEmpty.string_of_uint d = NilEmpty.string_of_uint d' -> d = d'.
Proof.
  intros H. apply (f_equal NilEmpty.uint_of_string) in H.
  rewrite !NilEmpty.usu in H. congruence.
Qed.

Lemma fmt_02d_inj n m : Extract.fmt_02d n = Extract.fmt_02d m -> n = m.
Proof.
  unfold Extract.fmt_02d.
  set (s := NilEmpty.string_of_uint (Nat.to_uint n)).
  set (s' := NilEmpty.string_of_uint (Nat.to_uint m)).
  assert (Hplain : s = s' -> n = m).
  { intros H. apply Unsigned.to_uint_inj. apply string_of_uint_inj. exact H. }
  assert (Hpad : forall k k', String "0" (NilEmpty.string_of_uint (Nat.to_uint k))
                              = NilEmpty.string_of_uint (Nat.to_uint k') -> k = k').
  { intros k k' H. apply (f_equal NilEmpty.uint_of_string) in H.
    rewrite NilEmpty.usu in H. cbn [NilEmpty.uint_of_string] in H.
    rewrite NilEmpty.usu in H. cbn in H. injection H as H.
    apply (f_equal Nat.of_uint) in H. rewrite Unsigned.of_to in H.
    rewrite <- (Unsigned.of_to k). exact H. }
  destruct (String.length s <? 2)%nat, (String.length s' <? 2)%nat; intros H.
  - injection H as H. apply Hplain. exact H.
  - apply Hpad. exact H.
  - symmetry. apply Hpad. symmetry. exact H.
  - apply Hplain. exact H.
Qed.

(** X23. Two highlights of one video never get the same output file name:
    [<stem>_clip_<NN>.mp4] determines the index. *)
Theorem clip_names_are_distinct (video_stem : string) (i j : nat) :
  Extract.clip_name video_stem i = Extract.clip_name video_stem j -> i = j.
Proof.
  unfold Extract.clip_name. intros H.
  apply string_append_inv_l in H. apply string_append_inv_l in H.
  apply string_append_inv_r in H. apply fmt_02d_inj in H. lia.
Qed.

Lemma clip_names_are_distinct_witness : 8%nat = 8%nat.
Proof.
  apply (@clip_names_are_distinct "game" 8 8). reflexivity.
Defined.

(** ** The extraction loop *)

Lemma subseq_refl {A} (l : list A) : subseq l l.
Proof. induction l; constructor; assumption. Qed.

Section ExtractFacts.

Variable W : Type.
Variable view : W -> filesystem.
Variable run_ffmpeg : W -> Extract.clip_command -> option bool * W.
Variable make_dirs : W -> string -> option W.
Variable path_stem : string -> string.
Variable join_path : string -> string -> string.
Variable load_config : W -> option (config * Extract.render_cfg).

Local Abbreviation extract_clip := (@Extract.extract_clip W view run_ffmpeg).
Local Abbreviation extract_loop := (@Extract.extract_loop W view run_ffmpeg join_path).
Local Abbreviation extract_all_clips :=
  (@Extract.extract_all_clips W view run_ffmpeg make_dirs path_stem join_path
     load_config).
Local Abbreviation planned_paths := (@Extract.planned_paths join_path).

Variables video_path out_dir video_stem ffmpeg_path preset : string.
Variable crf : Z.

Lemma extract_clip_trace w start_sec end_sec out_path aspect :
  exists cmd w' ok,
    (extract_clip w video_path start_sec end_sec out_path aspect ffmpeg_path
                  crf preset = ([Extract.RunFfmpeg cmd], w', ok)
     \/ (ok = false
         /\ extract_clip w video_path start_sec end_sec out_path aspect
                         ffmpeg_path crf preset
            = ([Extract.RunFfmpeg cmd; Extract.SayError], w', ok)))
    /\ Extract.cmd_ffmpeg cmd = ffmpeg_path
    /\ Extract.cmd_input cmd = video_path
    /\ Extract.cmd_vf cmd = Extract.crop_filter
    /\ Extract.cmd_ss cmd = start_sec
    /\ Extract.cmd_t cmd = end_sec - start_sec.
Proof.
  unfold Extract.extract_clip.
  destruct (run_ffmpeg w _) as [[ok|] w'] eqn:E.
  - eexists; exists w', ok. split; [left; reflexivity|]. repeat split.
  - eexists; exists w', false. split; [right; split; reflexivity|]. repeat split.
Qed.

Lemma extract_loop_spec aspect total highlights : forall w i outs t w' r,
  extract_loop w video_path out_dir video_stem aspect ffmpeg_path crf preset
               total i highlights outs = (t, w', r) ->
  exists kept,
    r = outs ++ kept
    /\ subseq kept (planned_paths out_dir video_stem i (List.length highlights))
    /\ (List.length kept + List.length (filter Extract.is_failed t)
        = List.length highlights)%nat
    /\ (List.length (filter Extract.is_run t) <= List.length highlights)%nat
    /\ forall cmd, In (Extract.RunFfmpeg cmd) t -> clips_one_of ffmpeg_path video_path highlights cmd.
Proof.
  induction highlights as [|h rest IH]; intros w i outs t w' r H;
    cbn [Extract.extract_loop] in H.
  - injection H as <- <- <-. exists []. rewrite app_nil_r.
    split; [reflexivity|]. split; [apply subseq_nil|].
    split; [reflexivity|]. split; [cbn; lia|]. intros cmd [].
  - unfold Extract.planned_paths. cbn [List.length seq map].
    fold (planned_paths out_dir video_stem (S i) (List.length rest)).
    assert (Hrest : forall cmd, clips_one_of ffmpeg_path video_path rest cmd -> clips_one_of ffmpeg_path video_path (h :: rest) cmd).
    { intros cmd (A1 & A2 & A3 & h' & Hin & A4 & A5).
      split; [exact A1|]. split; [exact A2|]. split; [exact A3|].
      exists h'. split; [right; exact Hin | split; assumption]. }
    destruct (path_exists (view w) _).
    + destruct (extract_loop w _ _ _ _ _ _ _ _ (S i) rest _) as [[t0 w0] r0] eqn:E.
      injection H as <- <- <-.
      apply IH in E as (kept & -> & Hsub & Hcount & Hruns & Hcmd).
      exists (join_path out_dir (Extract.clip_name video_stem i) :: kept).
      rewrite <- app_assoc. cbn [app filter Extract.is_failed Extract.is_run List.length].
      split; [reflexivity|]. split; [constructor; exact Hsub|].
      split; [lia|]. split; [lia|].
      intros cmd [Hc|Hc]; [discriminate|]. apply Hrest. apply Hcmd. exact Hc.
    + destruct (extract_clip_trace w (c_start h) (c_end h)
                  (join_path out_dir (Extract.clip_name video_stem i)) aspect)
        as (cmd0 & w1 & ok & Hclip & C1 & C2 & C3 & C4 & C5).
      assert (Hcmd0 : clips_one_of ffmpeg_path video_path (h :: rest) cmd0).
      { split; [exact C1|]. split; [exact C2|]. split; [exact C3|].
        exists h. split; [left; reflexivity | split; assumption]. }
      destruct Hclip as [Hclip | [-> Hclip]]; rewrite Hclip in H.
      * destruct (extract_loop w1 _ _ _ _ _ _ _ _ (S i) rest _) as [[t0 w0] r0] eqn:E.
        injection H as <- <- <-.
        apply IH in E as (kept & -> & Hsub & Hcount & Hruns & Hcmd).
        destruct ok.
        -- exists (join_path out_dir (Extract.clip_name video_stem i) :: kept).
           rewrite <- app_assoc.
           cbn [app filter Extract.is_failed Extract.is_run List.length].
           split; [reflexivity|]. split; [constructor; exact Hsub|].
           split; [lia|]. split; [lia|].
           intros cmd [Hc|[Hc|[Hc|Hc]]]; try discriminate.
           ++ injection Hc as <-. exact Hcmd0.
           ++ apply Hrest. apply Hcmd. exact Hc.
        -- exists kept.
           cbn [app filter Extract.is_failed Extract.is_run List.length].
           split; [reflexivity|]. split; [constructor; exact Hsub|].
           split; [lia|]. split; [lia|].
           intros cmd [Hc|[Hc|[Hc|Hc]]]; try discriminate.
           ++ injection Hc as <-. exact Hcmd0.
           ++ apply Hrest. apply Hcmd. exact Hc.
      * destruct (extract_loop w1 _ _ _ _ _ _ _ _ (S i) rest _) as [[t0 w0] r0] eqn:E.
        injection H as <- <- <-.
        apply IH in E as (kept & -> & Hsub & Hcount & Hruns & Hcmd).
        exists kept.
        cbn [app filter Extract.is_failed Extract.is_run List.length].
        split; [reflexivity|]. split; [constructor; exact Hsub|].
        split; [lia|]. split; [lia|].
        intros cmd [Hc|[Hc|[Hc|[Hc|Hc]]]]; try discriminate.
        -- injection Hc as <-. exact Hcmd0.
        -- apply Hrest. apply Hcmd. exact Hc.
Qed.

End ExtractFacts.

Section ExtractProperties.

Variable W : Type.
Variable view : W -> filesystem.
Variable run_ffmpeg : W -> Extract.clip_command -> option bool * W.
Variable make_dirs : W -> string -> option W.
Variable path_stem : string -> string.
Variable join_path : string -> string -> string.
Variable load_config : W -> option (config * Extract.render_cfg).

Local Abbreviation extract_loop := (@Extract.extract_loop W view run_ffmpeg join_path).
Local Abbreviation extract_all_clips :=
  (@Extract.extract_all_clips W view run_ffmpeg make_dirs path_stem join_path
     load_config).
Local Abbreviation planned_paths := (@Extract.planned_paths join_path).

Lemma extract_loop_all_succeed video_path out_dir video_stem aspect ffmpeg_path
  crf preset total highlights :
  (forall w cmd, fst (run_ffmpeg w cmd) = Some true) ->
  forall w i outs t w' r,
    extract_loop w video_path out_dir video_stem aspect ffmpeg_path crf preset
                 total i highlights outs = (t, w', r) ->
    r = outs ++ planned_paths out_dir video_stem i (List.length highlights).
Proof.
  intros Hok. induction highlights as [|h rest IH]; intros w i outs t w' r H;
    cbn [Extract.extract_loop] in H.
  - injection H as <- <- <-. unfold Extract.planned_paths. cbn.
    rewrite app_nil_r. reflexivity.
  - unfold Extract.planned_paths. cbn [List.length seq map].
    fold (planned_paths out_dir video_stem (S i) (List.length rest)).
    destruct (path_exists (view w) _).
    + destruct (extract_loop w _ _ _ _ _ _ _ _ (S i) rest _) as [[t0 w0] r0] eqn:E.
      injection H as <- <- <-. apply IH in E as ->.
      rewrite <- app_assoc. reflexivity.
    + unfold Extract.extract_clip in H.
      match type of H with
      | context [run_ffmpeg w ?c] =>
          specialize (Hok w c); destruct (run_ffmpeg w c) as [o w1]
      end.
      cbn [fst] in Hok. subst o.
      destruct (extract_loop w1 _ _ _ _ _ _ _ _ (S i) rest _) as [[t0 w0] r0] eqn:E.
      injection H as <- <- <-. apply IH in E as ->.
      rewrite <- app_assoc. reflexivity.
Qed.

Lemma extract_loop_all_exist video_path out_dir video_stem aspect ffmpeg_path
  crf preset total w highlights : forall i outs,
  (forall p, In p (planned_paths out_dir video_stem i (List.length highlights)) ->
             path_exists (view w) p = true) ->
  exists t,
    extract_loop w video_path out_dir video_stem aspect ffmpeg_path crf preset
                 total i highlights outs
    = (t, w, outs ++ planned_paths out_dir video_stem i (List.length highlights))
    /\ ffmpeg_runs t = [].
Proof.
  induction highlights as [|h rest IH]; intros i outs Hex;
    cbn [Extract.extract_loop].
  - exists []. unfold Extract.planned_paths. cbn. rewrite app_nil_r.
    split; reflexivity.
  - unfold Extract.planned_paths in *. cbn [List.length seq map] in *.
    rewrite (Hex _ (or_introl eq_refl)).
    destruct (IH (S i) (outs ++ [join_path out_dir (Extract.clip_name video_stem i)]))
      as (t & -> & Hruns).
    { intros p Hp. apply Hex. right. exact Hp. }
    eexists. rewrite <- app_assoc. split; [reflexivity|].
    unfold ffmpeg_runs in *. cbn [filter Extract.is_run]. exact Hruns.
Qed.

Lemma extract_loop_aspect video_path out_dir video_stem aspect aspect'
  ffmpeg_path crf preset total highlights : forall w i outs,
  extract_loop w video_path out_dir video_stem aspect ffmpeg_path crf preset
               total i highlights outs
  = extract_loop w video_path out_dir video_stem aspect' ffmpeg_path crf preset
                 total i highlights outs.
Proof.
  induction highlights as [|h rest IH]; intros w i outs;
    cbn [Extract.extract_loop]; [reflexivity|].
  destruct (path_exists (view w) _).
  - rewrite IH. reflexivity.
  - change (Extract.extract_clip view run_ffmpeg w video_path (c_start h) (c_end h)
              (join_path out_dir (Extract.clip_name video_stem i)) aspect
              ffmpeg_path crf preset)
      with (Extract.extract_clip view run_ffmpeg w video_path (c_start h) (c_end h)
              (join_path out_dir (Extract.clip_name video_stem i)) aspect'
              ffmpeg_path crf preset).
    destruct (Extract.extract_clip _ _ _ _ _ _ _ _ _ _ _) as [[t1 w1] ok].
    rewrite IH. reflexivity.
Qed.

(** What a successful call is made of. *)
Lemma extract_all_clips_done w video_path highlights output_dir_arg base_name
  cfg clip_cfg t w' outs :
  extract_all_clips w video_path highlights output_dir_arg base_name
                    (Some (cfg, clip_cfg)) = (t, w', inl outs) ->
  exists ffmpeg_path ffprobe_path w1 t1,
    _get_ffmpeg_bin (view w) cfg = Ok (ffmpeg_path, ffprobe_path)
    /\ make_dirs w (Extract.or_else output_dir_arg
                      (get_or (Extract.output_dir clip_cfg) "outputs"%string))
       = Some w1
    /\ t = Extract.MakeDirs (Extract.or_else output_dir_arg
                               (get_or (Extract.output_dir clip_cfg)
                                       "outputs"%string)) :: t1
    /\ extract_loop w1 video_path
         (Extract.or_else output_dir_arg
            (get_or (Extract.output_dir clip_cfg) "outputs"%string))
         (Extract.or_else base_name (path_stem video_path))
         (get_or (Extract.aspect_ratio clip_cfg) "9:16"%string)
         ffmpeg_path (get_or (Extract.crf clip_cfg) 18%Z)
         (get_or (Extract.preset clip_cfg) "slow"%string)
         (List.length highlights) 0 highlights []
       = (t1, w', outs).
Proof.
  unfold Extract.extract_all_clips.
  destruct (_get_ffmpeg_bin (view w) cfg) as [[ffmpeg_path ffprobe_path]|];
    [|discriminate].
  destruct (make_dirs w _) as [w1|]; [|discriminate].
  destruct (extract_loop w1 _ _ _ _ _ _ _ _ 0 highlights []) as [[t1 w2] r] eqn:E.
  intros [= <- <- <-]. exists ffmpeg_path, ffprobe_path, w1, t1.
  repeat split. exact E.
Qed.

(** X24. The paths [extract_all_clips] returns are planned output paths
    ([<out_dir>/<stem>_clip_<NN>.mp4], numbered from 01 in the order of the
    highlights), in that order, one for each highlight except those for
    which it printed "Failed"; ffmpeg is run at most once per highlight, and
    each run seeks to the start of a highlight of the list, lasts from its
    start to its end, and crops with the fixed filter. *)
Theorem extracted_paths_are_planned
  (w : W) (video_path : string) (highlights : list candidate)
  (output_dir_arg base_name : option string) (cfg : config)
  (clip_cfg : Extract.render_cfg) (t : list Extract.action) (w' : W)
  (outs : list string) :
  extract_all_clips w video_path highlights output_dir_arg base_name
                    (Some (cfg, clip_cfg)) = (t, w', inl outs) ->
  subseq outs
         (planned_paths
            (Extract.or_else output_dir_arg
               (get_or (Extract.output_dir clip_cfg) "outputs"%string))
            (Extract.or_else base_name (path_stem video_path))
            0 (List.length highlights))
  /\ (List.length outs + List.length (filter Extract.is_failed t)
      = List.length highlights)%nat
  /\ (List.length (ffmpeg_runs t) <= List.length highlights)%nat
  /\ exists ffmpeg_path,
       forall cmd, In (Extract.RunFfmpeg cmd) t ->
                   clips_one_of ffmpeg_path video_path highlights cmd.
Proof.
  intros H.
  apply extract_all_clips_done in H as (ffmpeg_path & _ & w1 & t1 & _ & _ & -> & H).
  apply extract_loop_spec in H as (kept & -> & Hsub & Hcount & Hruns & Hcmd).
  unfold ffmpeg_runs. cbn [app filter Extract.is_failed Extract.is_run].
  split; [exact Hsub|]. split; [exact Hcount|]. split; [exact Hruns|].
  exists ffmpeg_path. intros cmd [Hc|Hc]; [discriminate | apply Hcmd; exact Hc].
Qed.

(** X25. When every run of ffmpeg succeeds, [extract_all_clips] returns
    the planned path of every highlight, in order. *)
Theorem all_clips_extracted
  (w : W) (video_path : string) (highlights : list candidate)
  (output_dir_arg base_name : option string) (cfg : config)
  (clip_cfg : Extract.render_cfg) (t : list Extract.action) (w' : W)
  (outs : list string) :
  (forall w cmd, fst (run_ffmpeg w cmd) = Some true) ->
  extract_all_clips w video_path highlights output_dir_arg base_name
                    (Some (cfg, clip_cfg)) = (t, w', inl outs) ->
  outs = planned_paths
           (Extract.or_else output_dir_arg
              (get_or (Extract.output_dir clip_cfg) "outputs"%string))
           (Extract.or_else base_name (path_stem video_path))
           0 (List.length highlights).
Proof.
  intros Hok H.
  apply extract_all_clips_done in H as (ffmpeg_path & _ & w1 & t1 & _ & _ & _ & H).
  eapply extract_loop_all_succeed in H; [|exact Hok]. exact H.
Qed.

(** X26. When the output file of every highlight already exists once the
    output folder is made, [extract_all_clips] runs ffmpeg for none of
    them, leaves the machine as [mkdir] left it, and returns all the
    planned paths. *)
Theorem existing_clips_are_kept
  (w w1 : W) (video_path : string) (highlights : list candidate)
  (output_dir_arg base_name : option string) (cfg : config)
  (clip_cfg : Extract.render_cfg) (bins : string * string) :
  let out_dir := Extract.or_else output_dir_arg
                   (get_or (Extract.output_dir clip_cfg) "outputs"%string) in
  let planned := planned_paths out_dir
                   (Extract.or_else base_name (path_stem video_path))
                   0 (List.length highlights) in
  _get_ffmpeg_bin (view w) cfg = Ok bins ->
  make_dirs w out_dir = Some w1 ->
  (forall p, In p planned -> path_exists (view w1) p = true) ->
  exists t,
    extract_all_clips w video_path highlights output_dir_arg base_name
                      (Some (cfg, clip_cfg)) = (t, w1, inl planned)
    /\ ffmpeg_runs t = [].
Proof.
  cbv zeta. intros Hbin Hdir Hex. unfold Extract.extract_all_clips.
  rewrite Hbin. destruct bins as [ffmpeg_path ffprobe_path]. rewrite Hdir.
  destruct (@extract_loop_all_exist video_path
              (Extract.or_else output_dir_arg
                 (get_or (Extract.output_dir clip_cfg) "outputs"%string))
              (Extract.or_else base_name (path_stem video_path))
              (get_or (Extract.aspect_ratio clip_cfg) "9:16"%string)
              ffmpeg_path (get_or (Extract.crf clip_cfg) 18%Z)
              (get_or (Extract.preset clip_cfg) "slow"%string)
              (List.length highlights) w1 highlights 0%nat [] Hex)
    as (t & -> & Hruns).
  eexists. split; [reflexivity|].
  unfold ffmpeg_runs in *. cbn [filter Extract.is_run]. exact Hruns.
Qed.

(** X27. The [aspect_ratio] setting changes nothing: [extract_all_clips]
    reads it and passes it on, and [extract_clip] crops to 9:16 whatever it
    is. *)
Theorem aspect_ratio_is_ignored
  (w : W) (video_path : string) (highlights : list candidate)
  (output_dir_arg base_name : option string) (cfg : config)
  (clip_cfg : Extract.render_cfg) (aspect : option string) :
  extract_all_clips w video_path highlights output_dir_arg base_name
                    (Some (cfg, with_aspect_ratio clip_cfg aspect))
  = extract_all_clips w video_path highlights output_dir_arg base_name
                      (Some (cfg, clip_cfg)).
Proof.
  unfold Extract.extract_all_clips, with_aspect_ratio.
  cbn [Extract.output_dir Extract.aspect_ratio Extract.crf Extract.preset].
  destruct (_get_ffmpeg_bin (view w) cfg) as [[ffmpeg_path ffprobe_path]|];
    [|reflexivity].
  destruct (make_dirs w _) as [w1|]; [|reflexivity].
  rewrite (extract_loop_aspect video_path _ _ (get_or aspect "9:16"%string)
             (get_or (Extract.aspect_ratio clip_cfg) "9:16"%string)).
  reflexivity.
Qed.


End ExtractProperties.

Lemma extracted_paths_are_planned_witness :
  subseq ["outputs/game_clip_01.mp4"%string; "outputs/game_clip_03.mp4"%string]
         (Extract.planned_paths example_join "outputs" "game" 0 3)
  /\ (2 + List.length (filter Extract.is_failed example_trace) = 3)%nat
  /\ (List.length (ffmpeg_runs example_trace) <= 3)%nat
  /\ exists ffmpeg_path,
       forall cmd, In (Extract.RunFfmpeg cmd) example_trace ->
                   clips_one_of ffmpeg_path "game.mp4" example_highlights cmd.
Proof.
  apply (@extracted_paths_are_planned (list string) example_view example_ffmpeg
           (fun w dir => Some (dir :: w)) (fun _ => "game"%string) example_join
           (fun _ => None) [] "game.mp4" example_highlights None None
           empty_config (Extract.mkRender None None None None)
           example_trace (snd (fst example_run))
           ["outputs/game_clip_01.mp4"%string; "outputs/game_clip_03.mp4"%string]).
  vm_compute. reflexivity.
Defined.

Lemma all_clips_extracted_witness :
  ["outputs/game_clip_01.mp4"%string; "outputs/game_clip_02.mp4"%string;
   "outputs/game_clip_03.mp4"%string]
  = Extract.planned_paths example_join "outputs" "game" 0 3.
Proof.
  eapply (@all_clips_extracted (list string) example_view reliable_ffmpeg
            (fun w dir => Some (dir :: w)) (fun _ => "game"%string) example_join
            (fun _ => None) [] "game.mp4" example_highlights None None
            empty_config (Extract.mkRender None None None None)).
  - intros w cmd. reflexivity.
  - vm_compute. reflexivity.
Defined.

Lemma existing_clips_are_kept_witness :
  exists t,
    Extract.extract_all_clips example_view example_ffmpeg
      (fun w dir => Some w) (fun _ => "game"%string) example_join (fun _ => None)
      ["outputs/game_clip_01.mp4"%string; "outputs/game_clip_02.mp4"%string]
      "game.mp4" [mkCandidate 2 32 1 None; mkCandidate 100 130 1 None]
      None None (Some (empty_config, Extract.mkRender None None None None))
    = (t, ["outputs/game_clip_01.mp4"%string; "outputs/game_clip_02.mp4"%string],
       inl (Extract.planned_paths example_join "outputs" "game" 0 2))
    /\ ffmpeg_runs t = [].
Proof.
  apply (@existing_clips_are_kept (list string) example_view example_ffmpeg
           (fun w dir => Some w) (fun _ => "game"%string) example_join
           (fun _ => None)
           ["outputs/game_clip_01.mp4"%string; "outputs/game_clip_02.mp4"%string]
           ["outputs/game_clip_01.mp4"%string; "outputs/game_clip_02.mp4"%string]
           "game.mp4" [mkCandidate 2 32 1 None; mkCandidate 100 130 1 None]
           None None empty_config (Extract.mkRender None None None None)
           ("ffmpeg"%string, "ffprobe"%string)).
  - reflexivity.
  - reflexivity.
  - intros p [<-|[<-|[]]]; reflexivity.
Defined.


(** * Upload to YouTube *)

Lemma retry_loop_spec execute remaining : forall retries t r,
  YouTube.retry_loop execute remaining retries = (t, r) ->
  (YouTube.executions t <= remaining)%nat
  /\ (YouTube.longest_sleep t
      <= 2 ^ Z.of_nat (retries + remaining + 1) - 2 ^ Z.of_nat (retries + 1))%Z
  /\ ((forall k, (retries <= k < retries + remaining)%nat ->
                 YouTube.retried (execute k) = true) ->
      r = inl None /\ YouTube.executions t = remaining)
  /\ (forall k, (retries <= k < retries + remaining)%nat ->
                (forall j, (retries <= j < k)%nat ->
                           YouTube.retried (execute j) = true) ->
                YouTube.retried (execute k) = false ->
                r = YouTube.outcome_of (execute k)
                /\ YouTube.executions t = (k - retries + 1)%nat).
Proof.
  unfold YouTube.executions, YouTube.longest_sleep.
  induction remaining as [|remaining IH]; intros retries t r H;
    cbn [YouTube.retry_loop] in H.
  - injection H as <- <-. cbn [filter map fold_right List.length].
    replace (retries + 0 + 1)%nat with (retries + 1)%nat by lia.
    split; [lia|]. split; [lia|]. split; [auto|]. intros k Hk. lia.
  - assert (Hpow : (2 ^ Z.of_nat (retries + 1)
                    <= 2 ^ Z.of_nat (retries + S remaining + 1))%Z)
      by (apply Z.pow_le_mono_r; lia).
    assert (Hstop : forall a, YouTube.retried a = false -> execute retries = a ->
              t = [YouTube.Execute] -> r = YouTube.outcome_of a ->
              (List.length (filter YouTube.is_execute t) <= S remaining)%nat
              /\ (fold_right Z.add 0 (map YouTube.sleep_bound t)
                  <= 2 ^ Z.of_nat (retries + S remaining + 1)
                     - 2 ^ Z.of_nat (retries + 1))%Z
              /\ ((forall k, (retries <= k < retries + S remaining)%nat ->
                             YouTube.retried (execute k) = true) ->
                  r = inl None
                  /\ List.length (filter YouTube.is_execute t) = S remaining)
              /\ (forall k, (retries <= k < retries + S remaining)%nat ->
                            (forall j, (retries <= j < k)%nat ->
                                       YouTube.retried (execute j) = true) ->
                            YouTube.retried (execute k) = false ->
                            r = YouTube.outcome_of (execute k)
                            /\ List.length (filter YouTube.is_execute t)
                               = (k - retries + 1)%nat)).
    { intros a Ha Ea -> ->. cbn [filter map fold_right List.length
                                  YouTube.is_execute YouTube.sleep_bound].
      split; [lia|]. split; [lia|]. split.
      - intros Hall. specialize (Hall retries). rewrite Ea, Ha in Hall.
        assert (false = true) by (apply Hall; lia). discriminate.
      - intros k Hk Hbefore Hk'.
        destruct (Nat.eq_dec k retries) as [->|Hne].
        + rewrite Ea. split; [reflexivity | lia].
        + specialize (Hbefore retries). rewrite Ea, Ha in Hbefore.
          assert (false = true) by (apply Hbefore; lia). discriminate. }
    destruct (execute retries) as [id|status|] eqn:E.
    + injection H as <- <-. apply (Hstop (YouTube.Response id)); reflexivity.
    + destruct (YouTube.server_error status) eqn:Es.
      * destruct (YouTube.retry_loop execute remaining (S retries)) as [t0 r0] eqn:E0.
        injection H as <- <-. apply IH in E0 as (Hn & Hs & Hall & Hk).
        cbn [filter map fold_right List.length YouTube.is_execute YouTube.sleep_bound].
        replace (S retries + remaining + 1)%nat with (retries + S remaining + 1)%nat
          in Hs by lia.
        assert (Hdouble : (2 ^ Z.of_nat (S retries + 1)
                           = 2 * 2 ^ Z.of_nat (S retries))%Z).
        { replace (Z.of_nat (S retries + 1)) with (Z.succ (Z.of_nat (S retries)))
            by lia. apply Z.pow_succ_r. lia. }
        replace (retries + 1)%nat with (S retries) by lia.
        split; [lia|]. split; [lia|]. split.
        -- intros Hall'. destruct Hall as [-> Hc].
           { intros k Hk'. apply Hall'. lia. }
           split; [reflexivity | lia].
        -- intros k Hk' Hbefore Hk''.
           destruct (Nat.eq_dec k retries) as [->|Hne].
           { rewrite E in Hk''. cbn [YouTube.retried] in Hk''. congruence. }
           destruct (Hk k) as [-> Hc]; [lia | intros j Hj; apply Hbefore; lia
                                       | exact Hk'' |].
           split; [reflexivity | lia].
      * injection H as <- <-. apply (Hstop (YouTube.HttpError status));
          [exact Es | reflexivity..].
    + injection H as <- <-. apply (Hstop YouTube.OtherError); reflexivity.
Qed.

(** X29. [upload_video] calls the API at most five times and sleeps at most
    62 seconds in all.  It retries only after an HTTP error 500, 502, 503
    or 504: the first call that ends otherwise decides (the id of the
    response, or the exception raised again), and after five such errors it
    gives up and returns [None].  Without a service or a readable file it
    raises before any call. *)
Theorem upload_video_gives_up_after_five
  (service : Type) (get_youtube_service : option service)
  (media_file_upload : string -> bool)
  (execute : service -> YouTube.video_body -> string -> nat -> YouTube.attempt)
  (file_path title description : string) (tags : option (list string))
  (privacy category_id : string) (youtube : option service) :
  let run := YouTube.upload_video get_youtube_service media_file_upload execute
               file_path title description tags privacy category_id youtube in
  (YouTube.executions (fst run) <= 5)%nat
  /\ (YouTube.longest_sleep (fst run) <= 62)%Z
  /\ (YouTube.service_of get_youtube_service youtube = None ->
      run = ([], inr YouTube.NoService))
  /\ forall y,
      YouTube.service_of get_youtube_service youtube = Some y ->
      (media_file_upload file_path = false -> run = ([], inr YouTube.NoMedia))
      /\ (media_file_upload file_path = true ->
          let calls :=
            execute y (YouTube.request_body title description tags privacy
                                            category_id) file_path in
          ((forall k, (k < 5)%nat -> YouTube.retried (calls k) = true) ->
           snd run = inl None /\ YouTube.executions (fst run) = 5%nat)
          /\ forall k, (k < 5)%nat ->
               (forall j, (j < k)%nat -> YouTube.retried (calls j) = true) ->
               YouTube.retried (calls k) = false ->
               snd run = YouTube.outcome_of (calls k)
               /\ YouTube.executions (fst run) = (k + 1)%nat).
Proof.
  cbv zeta. unfold YouTube.upload_video.
  destruct (YouTube.service_of get_youtube_service youtube) as [y|].
  - destruct (media_file_upload file_path) eqn:Hm.
    + destruct (YouTube.retry_loop _ YouTube.max_retries 0) as [t r] eqn:E.
      apply retry_loop_spec in E as (Hn & Hs & Hall & Hk). cbn [fst snd].
      split; [exact Hn|]. split; [exact Hs|]. split; [discriminate|].
      intros y' [= <-]. split; [discriminate|]. intros _. split.
      * intros H. apply Hall. intros k Hk'. apply H. unfold YouTube.max_retries in Hk'. lia.
      * intros k Hk' Hbefore Hdec.
        destruct (Hk k) as [-> Hc];
          [unfold YouTube.max_retries; lia | intros j Hj; apply Hbefore; lia
           | exact Hdec |].
        split; [reflexivity | lia].
    + cbn [fst snd]. unfold YouTube.executions, YouTube.longest_sleep. cbn.
      split; [lia|]. split; [lia|]. split; [discriminate|].
      intros y' _. split; [reflexivity | discriminate].
  - cbn [fst snd]. unfold YouTube.executions, YouTube.longest_sleep. cbn.
    split; [lia|]. split; [lia|]. split; [reflexivity|]. intros y' H. discriminate.
Qed.

Lemma upload_video_gives_up_after_five_witness :
  let run n := YouTube.upload_video (Some tt) (fun _ => true) (flaky_execute n)
                 "clip_01.mp4" "League Highlight 1" "" None "private" "20" None in
  (snd (run 5%nat) = inl None /\ YouTube.executions (fst (run 5%nat)) = 5%nat)
  /\ (snd (run 2%nat) = inl (Some "abc123"%string)
      /\ YouTube.executions (fst (run 2%nat)) = 3%nat).
Proof.
  cbv zeta. split.
  - apply (proj1 (proj2 (proj2 (proj2 (proj2
      (@upload_video_gives_up_after_five unit (Some tt) (fun _ => true)
         (flaky_execute 5) "clip_01.mp4" "League Highlight 1" "" None
         "private" "20" None))) tt eq_refl) eq_refl)).
    intros k Hk. do 5 (destruct k as [|k]; [reflexivity|]). lia.
  - apply (proj2 (proj2 (proj2 (proj2 (proj2
      (@upload_video_gives_up_after_five unit (Some tt) (fun _ => true)
         (flaky_execute 2) "clip_01.mp4" "League Highlight 1" "" None
         "private" "20" None))) tt eq_refl) eq_refl) 2%nat).
    + lia.
    + intros j Hj. do 2 (destruct j as [|j]; [reflexivity|]). lia.
    + reflexivity.
Defined.

(** ** The clips of a run and their numbers *)

Lemma clip_number_position (start : Z) (total i : nat) :
  (i < total)%nat ->
  YouTube.clip_number
    (map (fun k => (start + Z.of_nat k)%Z) (seq 0 total)) i
  = Some (start + Z.of_nat i)%Z.
Proof.
  intros H. unfold YouTube.clip_number.
  rewrite length_map, length_seq.
  destruct (Nat.ltb_spec i total) as [_|]; [|lia].
  rewrite nth_error_map, (nth_error_nth' _ 0%nat) by (rewrite length_seq; exact H).
  rewrite seq_nth by exact H. reflexivity.
Qed.

Lemma announced_app (t1 t2 : list YouTube.clips_action) :
  YouTube.announced (t1 ++ t2) = YouTube.announced t1 ++ YouTube.announced t2.
Proof. apply flat_map_app. Qed.

Lemma saved_app (t1 t2 : list YouTube.clips_action) :
  YouTube.saved (t1 ++ t2) = YouTube.saved t1 ++ YouTube.saved t2.
Proof. apply flat_map_app. Qed.

Lemma announced_upload (t : list YouTube.action) :
  YouTube.announced (map YouTube.Upload t) = [].
Proof. induction t as [|a t IH]; [reflexivity | exact IH]. Qed.

Lemma saved_upload (t : list YouTube.action) :
  YouTube.saved (map YouTube.Upload t) = [].
Proof. induction t as [|a t IH]; [reflexivity | exact IH]. Qed.

Lemma after_upload_cases (save : nat -> Z -> bool) (given : bool) (i : nat)
  (clip_num : Z) (r : option string + YouTube.failure) :
  let (here, vid) := YouTube.after_upload save given i clip_num r in
  YouTube.announced here = []
  /\ (given = true -> YouTube.saved here = [])
  /\ (given = false ->
      (vid = None /\ YouTube.saved here = [])
      \/ (exists v, vid = Some v /\ YouTube.saved here = [(clip_num + 1)%Z])).
Proof.
  unfold YouTube.after_upload.
  destruct r as [[vid|]|e]; cbn.
  - destruct (String.eqb vid EmptyString); cbn.
    + split; [reflexivity|]. split; [reflexivity|]. intros _. left. split; reflexivity.
    + destruct given; cbn.
      * split; [reflexivity|]. split; [reflexivity|]. discriminate.
      * destruct (save i (clip_num + 1)%Z); cbn;
          (split; [reflexivity|]; split; [discriminate|]; intros _; right;
           exists vid; split; reflexivity).
  - split; [reflexivity|]. split; [reflexivity|]. intros _. left. split; reflexivity.
  - split; [reflexivity|]. split; [reflexivity|]. intros _. left. split; reflexivity.
Qed.

Section ClipsFacts.

Variable service : Type.
Variable get_youtube_service : string -> option service.
Variable media_file_upload : nat -> string -> bool.
Variable execute : nat -> service -> YouTube.video_body -> string -> nat
                   -> YouTube.attempt.
Variable format : string -> Z -> nat -> nat -> option string.
Variable path_name : string -> string.
Variable _save_clip_counter : nat -> Z -> bool.

Local Abbreviation upload_loop :=
  (YouTube.upload_loop get_youtube_service media_file_upload execute format
     path_name _save_clip_counter).
Local Abbreviation upload_clips :=
  (YouTube.upload_clips get_youtube_service media_file_upload execute format
     path_name _save_clip_counter).

Lemma upload_loop_numbers (yt : YouTube.youtube_cfg) (youtube : service)
  (start : Z) (total : nat) :
  (forall num n, format (YouTube.title_template_of yt) num n total <> None) ->
  forall paths i, (i + List.length paths = total)%nat ->
  exists ids,
    snd (upload_loop yt youtube false
           (map (fun k => (start + Z.of_nat k)%Z) (seq 0 total)) total i paths)
    = inl ids
    /\ YouTube.announced
         (fst (upload_loop yt youtube false
                 (map (fun k => (start + Z.of_nat k)%Z) (seq 0 total)) total i paths))
       = map (fun k => ((k + 1)%nat, (start + Z.of_nat k)%Z))
             (seq i (List.length paths))
    /\ subseq
         (YouTube.saved
            (fst (upload_loop yt youtube false
                    (map (fun k => (start + Z.of_nat k)%Z) (seq 0 total)) total i paths)))
         (map (fun k => (start + Z.of_nat k + 1)%Z) (seq i (List.length paths)))
    /\ List.length ids
       = List.length
           (YouTube.saved
              (fst (upload_loop yt youtube false
                      (map (fun k => (start + Z.of_nat k)%Z) (seq 0 total)) total i paths))).
Proof.
  intros Hformat. induction paths as [|path rest IH]; intros i Hi.
  - exists []. cbn. repeat split. constructor.
  - cbn [List.length] in Hi. cbn [YouTube.upload_loop].
    rewrite clip_number_position by lia.
    destruct (format (YouTube.title_template_of yt) (start + Z.of_nat i)%Z
                     (i + 1) total) as [title|] eqn:Ef;
      [|exfalso; exact (Hformat _ _ Ef)].
    destruct (YouTube.upload_one get_youtube_service media_file_upload execute
                yt youtube i path title) as [t r].
    pose proof (after_upload_cases _save_clip_counter false i
                  (start + Z.of_nat i)%Z r) as Hafter.
    destruct (YouTube.after_upload _save_clip_counter false i
                (start + Z.of_nat i)%Z r) as [here vid].
    destruct Hafter as (Ha & _ & Hs). specialize (Hs eq_refl).
    destruct (IH (S i)) as (ids & Er & Eann & Esub & Elen); [lia|].
    destruct (upload_loop yt youtube false
                (map (fun k => (start + Z.of_nat k)%Z) (seq 0 total)) total (S i) rest)
      as [t' r'].
    cbn [fst snd] in *. subst r'.
    cbn [List.length seq map].
    assert (Eannounced :
      YouTube.announced
        (YouTube.SayUploading (i + 1) total (start + Z.of_nat i)%Z (path_name path)
           :: map YouTube.Upload t ++ here ++ t')
      = ((i + 1)%nat, (start + Z.of_nat i)%Z)
          :: map (fun k => ((k + 1)%nat, (start + Z.of_nat k)%Z))
                 (seq (S i) (List.length rest))).
    { change (YouTube.announced (?a :: ?l))
        with ([((i + 1)%nat, (start + Z.of_nat i)%Z)] ++ YouTube.announced l).
      rewrite !announced_app, announced_upload, Ha, Eann. reflexivity. }
    assert (Esaved :
      YouTube.saved
        (YouTube.SayUploading (i + 1) total (start + Z.of_nat i)%Z (path_name path)
           :: map YouTube.Upload t ++ here ++ t')
      = YouTube.saved here ++ YouTube.saved t').
    { change (YouTube.saved (?a :: ?l)) with ([] ++ YouTube.saved l).
      rewrite !saved_app, saved_upload. reflexivity. }
    rewrite Eannounced, Esaved.
    destruct Hs as [[-> ->]|(v & -> & ->)].
    + exists ids. split; [reflexivity|]. split; [reflexivity|].
      split; [apply subseq_skip; exact Esub | exact Elen].
    + exists (v :: ids). split; [reflexivity|]. split; [reflexivity|].
      split; [apply subseq_keep; exact Esub | cbn; lia].
Qed.

Lemma upload_loop_given_saves_nothing (yt : YouTube.youtube_cfg)
  (youtube : service) (clip_numbers : list Z) (total : nat) :
  forall paths i,
    YouTube.saved (fst (upload_loop yt youtube true clip_numbers total i paths))
    = [].
Proof.
  induction paths as [|path rest IH]; intros i; [reflexivity|].
  cbn [YouTube.upload_loop].
  destruct (YouTube.clip_number clip_numbers i) as [clip_num|]; [|reflexivity].
  destruct (format (YouTube.title_template_of yt) clip_num (i + 1) total)
    as [title|]; [|reflexivity].
  destruct (YouTube.upload_one get_youtube_service media_file_upload execute
              yt youtube i path title) as [t r].
  pose proof (after_upload_cases _save_clip_counter true i clip_num r) as Hafter.
  destruct (YouTube.after_upload _save_clip_counter true i clip_num r)
    as [here vid].
  destruct Hafter as (_ & Hs & _). specialize (Hs eq_refl).
  specialize (IH (S i)).
  destruct (upload_loop yt youtube true clip_numbers total (S i) rest) as [t' r'].
  cbn [fst] in *.
  change (YouTube.saved (?a :: ?l)) with ([] ++ YouTube.saved l).
  rewrite !saved_app, saved_upload, Hs, IH. reflexivity.
Qed.


End ClipsFacts.

